(** * image_generator.py: a shallow embedding and its checked properties

    The script [src/image_gen/image_generator.py] is a library of plotting
    and statistics functions.  This development embeds the parts of it that
    decide the documented properties:

    - Python statements become computations in a small state-and-exception
      monad over a frame (local variables plus a trace of observable
      effects such as file reads and saved figures);
    - numpy [float64] data are Rocq's primitive binary64 floats;
    - the closed-form wake and sunflower formulas, which need [cos], [sin]
      and [pi], are stated over the real numbers;
    - text files are strings and the two regular expressions of
      [parse_alpso_files] are scanners over lists of characters. *)

From Stdlib Require Import ZArith QArith Reals Lra Lia List String Ascii Bool.
From Stdlib Require Import Qround DecimalString Floats Uint63 Znumtheory.
From stdpp Require Import gmap strings list fin_maps.
Import ListNotations.

Set Warnings "-inexact-float".
Local Open Scope string_scope.

(** ** Python: exceptions, effects and the statement monad *)

Module Py.

(** The exception classes the embedded code can signal. *)
Inductive exn : Type :=
| IndexError
| ZeroDivisionError
| TypeError (what : string)
| ValueError (msg : string)
| EnvironmentError (msg : string)
| UnboundLocalError (name : string)
| OSError (path : string).

(** Observable effects, in program order. [EvBuild e] records that an
    exception object was constructed by an expression statement (and
    dropped); the other events are calls into the file system or the
    plotting library. *)
Inductive event : Type :=
| EvBuild (e : exn)
| EvLoadtxt (path : string)
| EvOpen (path : string)
| EvSubplot
| EvCircle (radius : float) (linestyle : string)
| EvBar
| EvPlot
| EvPrint (label : string) (x : float)
| EvSavefig (path : string)
| EvShow.

(** Pure fallible computations. *)
Inductive res (A : Type) : Type :=
| Ok (a : A)
| Err (e : exn).
Arguments Ok {A} a.
Arguments Err {A} e.

Definition rbind {A B} (r : res A) (k : A -> res B) : res B :=
  match r with
  | Ok a => k a
  | Err e => Err e
  end.

Fixpoint rmap_list {A B} (f : A -> res B) (l : list A) : res (list B) :=
  match l with
  | [] => Ok []
  | a :: l' =>
      rbind (f a) (fun b => rbind (rmap_list f l') (fun bs => Ok (b :: bs)))
  end.

Section Monad.
Context {S : Type}.

Inductive outcome (A : Type) : Type :=
| Done (a : A) (s : S)
| Raised (e : exn) (s : S).

Definition M (A : Type) : Type := S -> outcome A.

Definition ret {A} (a : A) : M A := fun s => Done A a s.

Definition bind {A B} (c : M A) (k : A -> M B) : M B :=
  fun s =>
    match c s with
    | Done _ a s' => k a s'
    | Raised _ e s' => Raised B e s'
    end.

Definition raise {A} (e : exn) : M A := fun s => Raised A e s.

Definition lift {A} (r : res A) : M A :=
  match r with
  | Ok a => ret a
  | Err e => raise e
  end.

(** [try: c except: h] with a bare [except], which catches everything. *)
Definition try_except {A} (c : M A) (h : M A) : M A :=
  fun s =>
    match c s with
    | Done _ a s' => Done A a s'
    | Raised _ _ s' => h s'
    end.

(** [for x in xs: body x] *)
Fixpoint for_each {A} (xs : list A) (body : A -> M unit) : M unit :=
  match xs with
  | [] => ret tt
  | x :: xs' => bind (body x) (fun _ => for_each xs' body)
  end.

Definition final_state {A} (o : outcome A) : S :=
  match o with
  | Done _ _ s => s
  | Raised _ _ s => s
  end.

Definition raised {A} (o : outcome A) : option exn :=
  match o with
  | Done _ _ _ => None
  | Raised _ e _ => Some e
  end.
End Monad.

Arguments outcome : clear implicits.
Arguments M : clear implicits.
Arguments Done {S A} a s.
Arguments Raised {S A} e s.

End Py.

Import Py.

Notation "x <- c ;; k" := (bind c (fun x => k))
  (at level 100, c at next level, right associativity).
Notation "c ;; k" := (bind c (fun _ => k))
  (at level 100, right associativity).

(** ** String formatting *)

(** ["%i" % z] and [str(z)] for an integer. *)
Definition pyfmt_i (z : Z) : string := NilZero.string_of_int (Z.to_int z).

(** ["%i" % q] truncates a number toward zero before printing. *)
Definition pyfmt_i_num (q : Q) : string :=
  pyfmt_i (Z.quot (Qnum q) (Z.pos (Qden q))).

Definition pad3 (s : string) : string :=
  match String.length s with
  | 0%nat => "000" ++ s
  | 1%nat => "00" ++ s
  | 2%nat => "0" ++ s
  | _ => s
  end.

(** ["%.3f" % q] for a non-negative number: the value rounded to
    thousandths, printed with exactly three decimals. *)
Definition pyfmt_3f (q : Q) : string :=
  let m := Qfloor (q * 1000 + (1 # 2))%Q in
  pyfmt_i (m / 1000)%Z ++ "." ++ pad3 (pyfmt_i (m mod 1000)%Z).

(** ** numpy: float64 arrays and the reductions the script calls *)

Module Np.
Local Open Scope float_scope.

(** The table of a text file as [np.loadtxt] parses it: a list of rows of
    equal length. *)
Definition matrix : Type := list (list float).

(** [np.loadtxt] squeezes the array it returns: a table of two or more rows
    of two or more columns is a two-dimensional array, a table of one row
    or of one column is a vector, an empty table an empty vector. *)
Definition two_dimensional (a : matrix) : bool :=
  (2 <=? length a)%nat && forallb (fun row => (2 <=? length row)%nat) a.

Definition isnan (x : float) : bool := negb (x =? x).

Definition of_nat (n : nat) : float :=
  PrimFloat.of_uint63 (Uint63.of_Z (Z.of_nat n)).

Definition zeros (n : nat) : list float := repeat 0 n.
Definition zeros_like {A} (a : list A) : list float := zeros (length a).

(** The entries at index [c] of the rows. *)
Definition column (c : nat) (a : matrix) : res (list float) :=
  rmap_list (fun row => match row !! c with
                        | Some x => Ok x
                        | None => Err IndexError
                        end) a.

(** [a[:, c]] on the array loaded from the table [a]; two indices on a
    vector are too many and raise [IndexError]. *)
Definition col (c : nat) (a : matrix) : res (list float) :=
  if two_dimensional a then column c a else Err IndexError.

(** [a[i, c]], with the same error on a vector. *)
Definition cell (a : matrix) (i c : nat) : res float :=
  if two_dimensional a
  then match a !! i with
       | Some row => match row !! c with
                     | Some x => Ok x
                     | None => Err IndexError
                     end
       | None => Err IndexError
       end
  else Err IndexError.

(** [xs[i]] on a one-dimensional array or a list. *)
Definition item {A} (xs : list A) (i : nat) : res A :=
  match xs !! i with
  | Some x => Ok x
  | None => Err IndexError
  end.

(** [xs[mask]] with a boolean mask: the lengths must agree. *)
Fixpoint mask_select {A} (mask : list bool) (xs : list A) : res (list A) :=
  match mask, xs with
  | [], [] => Ok []
  | b :: mask', x :: xs' =>
      rbind (mask_select mask' xs')
            (fun r => Ok (if b then x :: r else r))
  | _, _ => Err IndexError
  end.

(** [xs == v] and [xs > v], element by element. *)
Definition eq_mask (xs : list float) (v : float) : list bool :=
  map (fun x => x =? v) xs.
Definition gt_mask (xs : list float) (v : float) : list bool :=
  map (fun x => v <? x) xs.

(** [a + b] on arrays of one shape. *)
Fixpoint add (a b : list float) : res (list float) :=
  match a, b with
  | [], [] => Ok []
  | x :: a', y :: b' => rbind (add a' b') (fun r => Ok (x + y :: r))
  | _, _ => Err (ValueError "operands could not be broadcast together")
  end.

(** [np.sum] adds [float64] values pairwise.  Fewer than eight values
    are added from left to right.  Up to 128 values are added in eight
    running sums, one per position modulo eight, which are then added in
    pairs; the values after the last full group of eight come last. *)
Fixpoint add_groups (k : nat) (r a : list float) : list float * list float :=
  match k with
  | O => (r, a)
  | S k' => add_groups k' (zip_with PrimFloat.add r (firstn 8 a)) (skipn 8 a)
  end.

Definition sum_block (a : list float) : float :=
  if (length a <? 8)%nat then fold_left PrimFloat.add a 0
  else
    let '(r, rest) :=
      add_groups (length a / 8 - 1) (firstn 8 a) (skipn 8 a) in
    match r with
    | [r0; r1; r2; r3; r4; r5; r6; r7] =>
        fold_left PrimFloat.add rest
          (((r0 + r1) + (r2 + r3)) + ((r4 + r5) + (r6 + r7)))
    | _ => nan
    end.

(** A longer array is cut in two, the first part a multiple of eight
    long, and the sums of the parts are added. *)
Fixpoint pairwise_sum (fuel : nat) (a : list float) : float :=
  match fuel with
  | O => sum_block a
  | S fuel' =>
      if (length a <=? 128)%nat then sum_block a
      else
        let n2 := (length a / 2 - (length a / 2) mod 8)%nat in
        pairwise_sum fuel' (firstn n2 a) + pairwise_sum fuel' (skipn n2 a)
  end.

(** The reduction starts from the identity of the addition. *)
Definition sum (a : list float) : float := 0 + pairwise_sum (length a) a.

Definition fmax (x y : float) : float :=
  if isnan x then x else if isnan y then y else if x <? y then y else x.
Definition fmin (x y : float) : float :=
  if isnan x then x else if isnan y then y else if y <? x then y else x.

Definition empty_reduction (what : string) : exn :=
  ValueError ("zero-size array to reduction operation " ++ what
              ++ " which has no identity").

(** [np.max] and [np.min]: not-a-number propagates, an empty array is an
    error. *)
Definition max (a : list float) : res float :=
  match a with
  | [] => Err (empty_reduction "maximum")
  | x :: a' => Ok (fold_left fmax a' x)
  end.
Definition min (a : list float) : res float :=
  match a with
  | [] => Err (empty_reduction "minimum")
  | x :: a' => Ok (fold_left fmin a' x)
  end.

(** [np.average]; on an empty array the quotient [0/0] is not-a-number. *)
Definition average (a : list float) : float := sum a / of_nat (length a).

Fixpoint insert_sorted (x : float) (a : list float) : list float :=
  match a with
  | [] => [x]
  | y :: a' => if x <=? y then x :: a else y :: insert_sorted x a'
  end.
Definition sort (a : list float) : list float :=
  fold_right insert_sorted [] a.

(** [np.median]: the middle of the sorted data, the mean of the two
    middle values when the size is even. *)
Definition median (a : list float) : float :=
  if existsb isnan a then nan
  else
    let s := sort a in
    let n := length s in
    if Nat.even n
    then (nth (n / 2 - 1) s nan + nth (n / 2) s nan) / 2
    else nth (n / 2) s nan.

(** [np.std]: the population standard deviation. *)
Definition std (a : list float) : float :=
  let m := average a in
  PrimFloat.sqrt (average (map (fun x => (x - m) * (x - m)) a)).

End Np.

(** ** Frames: Python local variables and the effect trace *)

Inductive value : Type :=
| VNum (x : float)
| VInt (z : Z)
| VStr (s : string)
| VStrs (l : list string)
| VArr (a : list float)
| VArr2 (a : list (list float))
| VRanges (l : list (list Q)).

(** A frame holds the local variables that are bound (a name absent from
    the map is an unbound local) and the effects performed so far. *)
Record frame : Type := Frame {
  locals : gmap string value;
  trace : list event
}.

Definition empty_frame : frame := Frame ∅ [].

Definition emit (ev : event) : M frame unit :=
  fun s => Done tt (Frame (locals s) (trace s ++ [ev])).

(** [x = v] *)
Definition assign (x : string) (v : value) : M frame unit :=
  fun s => Done tt (Frame (<[x := v]> (locals s)) (trace s)).

(** Reading a local variable; an unbound one raises [UnboundLocalError]. *)
Definition name (x : string) : M frame value :=
  fun s => match locals s !! x with
           | Some v => Done v s
           | None => Raised (UnboundLocalError x) s
           end.

Definition name_str (x : string) : M frame string :=
  v <- name x ;;
  match v with VStr s => ret s | _ => raise (TypeError x) end.

Definition name_strs (x : string) : M frame (list string) :=
  v <- name x ;;
  match v with VStrs l => ret l | _ => raise (TypeError x) end.

Definition name_num (x : string) : M frame float :=
  v <- name x ;;
  match v with VNum f => ret f | _ => raise (TypeError x) end.

Definition name_arr (x : string) : M frame (list float) :=
  v <- name x ;;
  match v with VArr a => ret a | _ => raise (TypeError x) end.

Definition name_arr2 (x : string) : M frame (list (list float)) :=
  v <- name x ;;
  match v with VArr2 a => ret a | _ => raise (TypeError x) end.

Definition name_ranges (x : string) : M frame (list (list Q)) :=
  v <- name x ;;
  match v with VRanges l => ret l | _ => raise (TypeError x) end.

(** [x[i][j] = v] on an array of rows; [None] is stored as not-a-number. *)
Definition assign_cell (x : string) (i j : nat) (v : float) : M frame unit :=
  a <- name_arr2 x ;;
  row <- lift (Np.item a i) ;;
  _ <- lift (Np.item row j) ;;
  assign x (VArr2 (<[i := <[j := v]> row]> a)).

Definition py_None : float := nan.

(** The file system seen by [np.loadtxt]: the table each readable file
    parses to.  A path outside the map cannot be loaded.  The load itself
    succeeds whatever the shape of the table; what the squeezed array
    allows is decided where it is indexed ([Np.col], [Np.cell]). *)
Definition loadtxt (fs : gmap string Np.matrix) (path : string)
  : M frame Np.matrix :=
  emit (EvLoadtxt path) ;;
  match fs !! path with
  | Some a => ret a
  | None => raise (OSError path)
  end.

(** ** The WEC parameter-sweep functions

    [plot_max_wec_const_nstep_results], [plot_maxwec3_nstep_results],
    [plot_wec_nstep_results], [plot_wec_step_results] and
    [plot_max_wec_results] share one shape: a configuration branch for 38
    turbines, a baseline load, and a double loop over the three WEC
    approaches and their swept values that fills five aggregate arrays.
    Each function is embedded up to the end of that double loop; loop
    temporaries are bound by the monad, configuration variables live in the
    frame.  Console output is not part of the trace. *)

Module Sweep.
Local Open Scope float_scope.

Definition ints (l : list Z) : list Q := map inject_Z l.

Definition two_to_ten : list Q := ints [2; 3; 4; 5; 6; 7; 8; 9; 10]%Z.

(** [np.append(np.array([1, ..., 10]), np.arange(10, 41, 5))]: seventeen
    angles, 10 among them twice. *)
Definition const_nstep_wavals : list Q :=
  ints [1; 2; 3; 4; 5; 6; 7; 8; 9; 10; 10; 15; 20; 25; 30; 35; 40]%Z.

(** The branch taken for [nturbs == 38]: the five aggregate arrays (one
    row of zeros per approach), the result directory, the directory-name
    prefixes, the base file name and the swept ranges. *)
Definition sweep_config (nwa nwd nwh : nat)
    (rdir wadirp wddirp whdirp bfilename ranges_name : string)
    (wavals wdvals whvals : list Q) : M frame unit :=
  let rows := [Np.zeros nwa; Np.zeros nwd; Np.zeros nwh] in
  assign "max_aepi" (VArr2 rows) ;;
  assign "min_aepi" (VArr2 rows) ;;
  assign "med_aepi" (VArr2 rows) ;;
  assign "mean_aepi" (VArr2 rows) ;;
  assign "std_aepi" (VArr2 rows) ;;
  assign "rdir" (VStr rdir) ;;
  assign "wadirp" (VStr wadirp) ;;
  assign "wddirp" (VStr wddirp) ;;
  assign "whdirp" (VStr whdirp) ;;
  assign "approaches" (VStrs [wadirp; wddirp; whdirp]) ;;
  assign "bfilename" (VStr bfilename) ;;
  assign ranges_name (VRanges [wavals; wdvals; whvals]).

(** The [else] branch: [ValueError("please include ..." % nturbs)] is an
    expression statement.  The object is built and dropped. *)
Definition unsupported_guard (nturbs : Z) : M frame unit :=
  emit (EvBuild (ValueError
    ("please include results for " ++ pyfmt_i nturbs
     ++ " turbines before rerunning the plotting script"))).

(** [base_data = np.loadtxt(path); orig_aep = base_data[0, 5]] *)
Definition load_baseline (fs : gmap string Np.matrix) (path : string)
  : M frame unit :=
  base_data <- loadtxt fs path ;;
  orig_aep <- lift (Np.cell base_data 0 5) ;;
  assign "orig_aep" (VNum orig_aep).

(** [100*(run_end_aep / orig_aep - 1.)] *)
Definition improvement (run_end_aep : list float) : M frame (list float) :=
  orig_aep <- name_num "orig_aep" ;;
  ret (map (fun a => 100 * (a / orig_aep - 1)) run_end_aep).

(** [100*(1.0 - run_end_aep / max_possible_aep)] *)
Definition wake_loss (run_end_aep : list float) : M frame (list float) :=
  max_possible_aep <- name_num "max_possible_aep" ;;
  ret (map (fun a => 100 * (1 - a / max_possible_aep)) run_end_aep).

(** The [except:] block of one sweep cell. *)
Definition missing_data (i j : nat) : M frame unit :=
  assign_cell "max_aepi" i j py_None ;;
  assign_cell "min_aepi" i j py_None ;;
  assign_cell "med_aepi" i j py_None ;;
  assign_cell "std_aepi" i j py_None.

(** The statements of one sweep cell after a successful load. *)
Definition aggregate (metric : list float -> M frame (list float))
    (i j : nat) (data_set : Np.matrix) : M frame unit :=
  id <- lift (Np.col 0 data_set) ;;
  ef <- lift (Np.col 1 data_set) ;;
  ti_opt <- lift (Np.col 3 data_set) ;;
  aep <- lift (Np.col 7 data_set) ;;
  run_end_aep <- lift (Np.mask_select (Np.eq_mask ti_opt 5) aep) ;;
  run_time <- lift (Np.col 8 data_set) ;;
  fcalls <- lift (Np.col 9 data_set) ;;
  scalls <- lift (Np.col 10 data_set) ;;
  tfcalls <- lift (Np.mask_select (Np.eq_mask ti_opt 5) fcalls) ;;
  tscalls <- lift (Np.mask_select (Np.eq_mask ti_opt 5) fcalls) ;;
  run_improvement <- metric run_end_aep ;;
  vmax <- lift (Np.max run_improvement) ;;
  assign_cell "max_aepi" i j vmax ;;
  vmin <- lift (Np.min run_improvement) ;;
  assign_cell "min_aepi" i j vmin ;;
  assign_cell "mean_aepi" i j (Np.average run_improvement) ;;
  assign_cell "med_aepi" i j (Np.median run_improvement) ;;
  assign_cell "std_aepi" i j (Np.std run_improvement).

(** One pass of the inner loop body: [try] the load, on any exception
    run the [except] block and [continue]. *)
Definition sweep_cell (fs : gmap string Np.matrix)
    (metric : list float -> M frame (list float))
    (i j : nat) (data_file : string) : M frame unit :=
  r <- try_except (data_set <- loadtxt fs data_file ;; ret (Some data_set))
                  (missing_data i j ;; ret None) ;;
  match r with
  | None => ret tt
  | Some data_set => aggregate metric i j data_set
  end.

(** The double loop. [data_file approach wec_val] builds the path of one
    cell from the frame. *)
Definition sweep_loops (fs : gmap string Np.matrix) (ranges_name : string)
    (data_file : string -> Q -> M frame string)
    (metric : list float -> M frame (list float)) : M frame unit :=
  approaches <- name_strs "approaches" ;;
  for_each (seq 0 (length approaches)) (fun i =>
    approaches <- name_strs "approaches" ;;
    approach <- lift (Np.item approaches i) ;;
    ranges <- name_ranges ranges_name ;;
    max_wec_range <- lift (Np.item ranges i) ;;
    for_each (seq 0 (length max_wec_range)) (fun j =>
      wec_val <- lift (Np.item max_wec_range j) ;;
      path <- data_file approach wec_val ;;
      sweep_cell fs metric i j path)).

Definition bfilename_38 : string :=
  "snopt_multistart_rundata_38turbs_nantucketWindRose_12dirs_BPA_all.txt".

(** [rdir + approach + "%.3f" %(wec_val) + "/" + bfilename] *)
Definition data_file_3f (approach : string) (wec_val : Q) : M frame string :=
  rdir <- name_str "rdir" ;;
  bfilename <- name_str "bfilename" ;;
  ret (rdir ++ approach ++ pyfmt_3f wec_val ++ "/" ++ bfilename).

(** [rdir + wadirp + "10.000" + "/" + bfilename] *)
Definition baseline_3f : M frame string :=
  rdir <- name_str "rdir" ;;
  wadirp <- name_str "wadirp" ;;
  bfilename <- name_str "bfilename" ;;
  ret (rdir ++ wadirp ++ "10.000" ++ "/" ++ bfilename).

Definition plot_max_wec_const_nstep_results (fs : gmap string Np.matrix)
    (nturbs : Z) : M frame unit :=
  (if (nturbs =? 38)%Z
   then sweep_config (length const_nstep_wavals) 9 9
          "./image_data/opt_results/20200520-38-turbs-12-dir-nsteps6-maxwec/"
          "snopt_wec_angle_max_wec_" "snopt_wec_diam_max_wec_"
          "snopt_wec_hybrid_max_wec_" bfilename_38 "wec_step_ranges"
          const_nstep_wavals two_to_ten two_to_ten
   else unsupported_guard nturbs) ;;
  rdir <- name_str "rdir" ;;
  wadirp <- name_str "wadirp" ;;
  bfilename <- name_str "bfilename" ;;
  load_baseline fs
    (rdir ++ wadirp ++ (pyfmt_i 5 ++ "_nsteps_") ++ "6.000" ++ "/"
     ++ bfilename) ;;
  assign "max_possible_aep" (VNum (189.77548752 * 1E6)) ;;
  sweep_loops fs "wec_step_ranges"
    (fun approach wec_val =>
       rdir <- name_str "rdir" ;;
       bfilename <- name_str "bfilename" ;;
       ret (rdir ++ approach ++ (pyfmt_i_num wec_val ++ "_nsteps_")
            ++ pyfmt_3f 6 ++ "/" ++ bfilename))
    wake_loss.

Definition plot_maxwec3_nstep_results (fs : gmap string Np.matrix)
    (nturbs : Z) : M frame unit :=
  (if (nturbs =? 38)%Z
   then sweep_config 9 9 9
          "./image_data/opt_results/20200602-38-turbs-12-dir-nsteps-maxweca9/"
          "snopt_wec_angle_max_wec_9_nsteps_"
          "snopt_wec_diam_max_wec_3_nsteps_"
          "snopt_wec_hybrid_max_wec_3_nsteps_" bfilename_38
          "wec_step_ranges" two_to_ten two_to_ten two_to_ten
   else unsupported_guard nturbs) ;;
  path <- baseline_3f ;;
  load_baseline fs path ;;
  assign "max_possible_aep" (VNum (189.77548752 * 1E6)) ;;
  sweep_loops fs "wec_step_ranges" data_file_3f wake_loss.

Definition plot_wec_nstep_results (fs : gmap string Np.matrix)
    (nturbs : Z) : M frame unit :=
  (if (nturbs =? 38)%Z
   then sweep_config 9 9 9
          "./image_data/opt_results/20200512-38-turbs-12-dir-nsteps-maxwec3/"
          "snopt_wec_angle_max_wec_10_nsteps_"
          "snopt_wec_diam_max_wec_4_nsteps_"
          "snopt_wec_hybrid_max_wec_3_nsteps_" bfilename_38
          "wec_step_ranges" two_to_ten two_to_ten two_to_ten
   else unsupported_guard nturbs) ;;
  path <- baseline_3f ;;
  load_baseline fs path ;;
  sweep_loops fs "wec_step_ranges" data_file_3f improvement.

Definition step_wavals : list Q := ints [1; 2; 3; 4; 5; 6; 7; 8; 9; 10]%Z.
Definition step_wdvals : list Q :=
  [1 # 10; 2 # 10; 3 # 10; 4 # 10; 5 # 10; 6 # 10; 7 # 10; 8 # 10; 9 # 10;
   1; 125 # 100; 15 # 10; 175 # 100; 2; 225 # 100; 25 # 10; 275 # 100; 3;
   325 # 100; 35 # 10; 375 # 100; 4]%Q.
Definition step_whvals : list Q :=
  [8 # 10; 9 # 10; 1; 125 # 100; 15 # 10; 175 # 100; 2; 225 # 100;
   25 # 10; 275 # 100; 3]%Q.

Definition plot_wec_step_results (fs : gmap string Np.matrix)
    (nturbs : Z) : M frame unit :=
  (if (nturbs =? 38)%Z
   then sweep_config (length step_wavals) (length step_wdvals)
          (length step_whvals)
          "./image_data/opt_results/202003120725-wec-step-val/"
          "snopt_wec_angle_max_wec_10_wec_step_"
          "snopt_wec_diam_max_wec_4_wec_step_"
          "snopt_wec_hybrid_max_wec_3_wec_step_" bfilename_38
          "wec_step_ranges" step_wavals step_wdvals step_whvals
   else unsupported_guard nturbs) ;;
  path <- baseline_3f ;;
  load_baseline fs path ;;
  sweep_loops fs "wec_step_ranges" data_file_3f improvement.

Definition plot_max_wec_results (fs : gmap string Np.matrix)
    (nturbs : Z) : M frame unit :=
  (if (nturbs =? 38)%Z
   then sweep_config 8 9 9
          "./image_data/opt_results/202003061434-max-wec-val/"
          "snopt_wec_angle_max_wec_" "snopt_wec_diam_max_wec_"
          "snopt_wec_hybrid_max_wec_"
          ("_" ++ bfilename_38) "max_wec_ranges"
          (ints [10; 20; 30; 40; 50; 60; 70; 80]%Z) two_to_ten two_to_ten
   else unsupported_guard nturbs) ;;
  rdir <- name_str "rdir" ;;
  wadirp <- name_str "wadirp" ;;
  bfilename <- name_str "bfilename" ;;
  load_baseline fs
    (rdir ++ wadirp ++ "10" ++ "/" ++ wadirp ++ "10" ++ bfilename) ;;
  sweep_loops fs "max_wec_ranges"
    (fun approach wec_val =>
       rdir <- name_str "rdir" ;;
       bfilename <- name_str "bfilename" ;;
       ret (rdir ++ approach ++ pyfmt_i_num wec_val ++ "/" ++ approach
            ++ pyfmt_i_num wec_val ++ bfilename))
    improvement.

End Sweep.

(** *** Reading the sweep's result arrays *)

Definition cell_of (s : frame) (x : string) (i j : nat) : option float :=
  match locals s !! x with
  | Some (VArr2 a) => match a !! i with
                      | Some row => row !! j
                      | None => None
                      end
  | _ => None
  end.

Definition loads (t : list event) : list string :=
  omap (fun ev => match ev with EvLoadtxt p => Some p | _ => None end) t.

(** A file system in which only the five baseline tables exist.  Each
    holds two converged runs (stage 5) that end at 150 and at 175 from a
    baseline of 100. *)
Definition two_runs : Np.matrix :=
  [[0; 1; 5; 5; 0; 100; 0; 150; 1; 10; 4];
   [1; 1; 5; 5; 0; 100; 0; 175; 1; 12; 5]]%float.

Definition baselines_only : gmap string Np.matrix :=
  list_to_map
    [("./image_data/opt_results/20200520-38-turbs-12-dir-nsteps6-maxwec/"
      ++ "snopt_wec_angle_max_wec_5_nsteps_6.000/" ++ Sweep.bfilename_38,
      two_runs);
     ("./image_data/opt_results/20200602-38-turbs-12-dir-nsteps-maxweca9/"
      ++ "snopt_wec_angle_max_wec_9_nsteps_10.000/" ++ Sweep.bfilename_38,
      two_runs);
     ("./image_data/opt_results/20200512-38-turbs-12-dir-nsteps-maxwec3/"
      ++ "snopt_wec_angle_max_wec_10_nsteps_10.000/" ++ Sweep.bfilename_38,
      two_runs);
     ("./image_data/opt_results/202003120725-wec-step-val/"
      ++ "snopt_wec_angle_max_wec_10_wec_step_10.000/" ++ Sweep.bfilename_38,
      two_runs);
     ("./image_data/opt_results/202003061434-max-wec-val/"
      ++ "snopt_wec_angle_max_wec_10/snopt_wec_angle_max_wec_10_"
      ++ Sweep.bfilename_38,
      two_runs)].

Definition sweep_functions
  : list (gmap string Np.matrix -> Z -> M frame unit) :=
  [Sweep.plot_max_wec_const_nstep_results; Sweep.plot_maxwec3_nstep_results;
   Sweep.plot_wec_nstep_results; Sweep.plot_wec_step_results;
   Sweep.plot_max_wec_results].

(** ** [plot_convergence_history]: case selection

    The function is embedded from its first statement to the first
    [open(input_file_snopt)], the first time an input file is read. *)

Module Convergence.
Local Open Scope float_scope.

Definition name_int (x : string) : M frame Z :=
  v <- name x ;;
  match v with VInt z => ret z | _ => raise (TypeError x) end.

Definition of_Z (z : Z) : float := PrimFloat.of_uint63 (Uint63.of_Z z).

(** [open(path)] on the text files of the file system. *)
Definition open_text (tfs : gmap string string) (path : string)
  : M frame string :=
  emit (EvOpen path) ;;
  match tfs !! path with
  | Some text => ret text
  | None => raise (OSError path)
  end.

Definition invalid_case : exn :=
  EnvironmentError "Invalid Model and Case combination".

Definition select_case (wakemodel : string) (nturbs ndirs : Z)
  : M frame unit :=
  if String.eqb wakemodel "BPA" then
    (if (nturbs =? 60)%Z then
       assign "date" (VInt 20200824) ;;
       assign "aept" (VNum (6653047.52233728 * of_Z nturbs * 1E3)) ;;
       assign "psscale" (VNum (-1E5))
     else if (nturbs =? 38)%Z then
       assign "date" (VInt 20200821) ;;
       (if (ndirs =? 12)%Z then
          assign "labels" (VStrs ["SNOPT+WEC"; "SNOPT"; "ALPSO"; "ALPSO+WEC"]) ;;
          assign "colors" (VStrs ["#0F2080"; "#85C0F9"; "#F5793A"; "#A95AA1"]) ;;
          assign "aept" (VNum (4994091.77684705 * of_Z nturbs * 1E3)) ;;
          assign "psscale" (VNum (-1E5)) ;;
          assign "pswscale" (VNum 1E0)
        else if (ndirs =? 36)%Z then
          assign "aept" (VNum (1630166.61601323 * of_Z nturbs * 1E3)) ;;
          assign "psscale" (VNum (-1E5))
        else ret tt)
     else if (nturbs =? 16)%Z then
       assign "date" (VInt 20200821) ;;
       assign "aept" (VNum (5191363.5933961 * of_Z nturbs * 1E3)) ;;
       assign "psscale" (VNum (-1E4))
     else ret tt) ;;
    date <- name_int "date" ;;
    assign "base_input_directory"
      (VStr ("./image_data/opt_results/" ++ pyfmt_i date ++ "-"
             ++ pyfmt_i nturbs ++ "-turbs-" ++ pyfmt_i ndirs
             ++ "-dir-fcall-and-conv-history/")) ;;
    assign "ps_input_directory"
      (VStr "./image_data/opt_results/202101042132-alpso-runs-random-seed/")
  else if String.eqb wakemodel "JENSEN" then
    (if (nturbs =? 38)%Z then
       assign "date" (VInt 20201110) ;;
       (if (ndirs =? 12)%Z then
          assign "aept" (VNum (5679986.827947 * of_Z nturbs * 1E3)) ;;
          assign "psscale" (VNum 1E5)
        else raise invalid_case)
     else raise invalid_case) ;;
    date <- name_int "date" ;;
    assign "base_input_directory"
      (VStr ("./image_data/opt_results/" ++ pyfmt_i date ++ "-jensen-"
             ++ pyfmt_i nturbs ++ "-turbs-" ++ pyfmt_i ndirs
             ++ "-dir-fcal-and-conv-history/")) ;;
    base_input_directory <- name_str "base_input_directory" ;;
    assign "ps_input_directory" (VStr base_input_directory)
  else raise invalid_case.

(** Everything before the first file is read; the result is the path of
    that file. *)
Definition setup (wakemodel : string) (nturbs ndirs : Z) : M frame string :=
  assign "runs" (VInt 200) ;;
  assign "labels" (VStrs ["SNOPT+WEC"; "SNOPT"; "ALPSO"]) ;;
  assign "colors" (VStrs ["#0F2080"; "#85C0F9"; "#F5793A"]) ;;
  assign "alpha" (VNum 0.08) ;;
  assign "markeralpha" (VNum 0.5) ;;
  select_case wakemodel nturbs ndirs ;;
  base_input_directory <- name_str "base_input_directory" ;;
  assign "input_directory_wec"
    (VStr (base_input_directory ++ "snopt_wec_diam_max_wec_3_nsteps_6.000/")) ;;
  assign "input_directory_snopt" (VStr (base_input_directory ++ "snopt/")) ;;
  ps_input_directory <- name_str "ps_input_directory" ;;
  assign "input_directory_ps" (VStr (ps_input_directory ++ "ps/")) ;;
  assign "input_directory_pswec" (VStr (ps_input_directory ++ "pswec/")) ;;
  input_directory_wec <- name_str "input_directory_wec" ;;
  assign "input_file_wec"
    (VStr (input_directory_wec ++ "convergence_histories.txt")) ;;
  input_directory_snopt <- name_str "input_directory_snopt" ;;
  assign "input_file_snopt"
    (VStr (input_directory_snopt ++ "convergence_histories.txt")) ;;
  input_directory_ps <- name_str "input_directory_ps" ;;
  assign "input_file_ps"
    (VStr (input_directory_ps ++ "convergence_histories_"
           ++ pyfmt_i nturbs ++ "turbs_" ++ pyfmt_i ndirs ++ "dirs.txt")) ;;
  input_directory_pswec <- name_str "input_directory_pswec" ;;
  assign "input_file_pswec"
    (VStr (input_directory_pswec ++ "convergence_histories.txt")) ;;
  assign "aepinit" (VArr (Np.zeros 200)) ;;
  assign "aepinitdata" (VArr (Np.zeros 200)) ;;
  assign "aepfinaldata" (VArr (Np.zeros 200)) ;;
  assign "fcallsdata" (VArr (Np.zeros 200)) ;;
  emit EvSubplot ;;
  name_str "input_file_snopt".

Definition plot_convergence_history (tfs : gmap string string)
    (wakemodel : string) (nturbs ndirs : Z) : M frame string :=
  input_file_snopt <- setup wakemodel nturbs ndirs ;;
  open_text tfs input_file_snopt.

(** The five case studies the script has data for. *)
Definition recognized (wakemodel : string) (nturbs ndirs : Z) : bool :=
  existsb (fun c : string * Z * Z =>
             let '(w, n, d) := c in
             String.eqb wakemodel w && (nturbs =? n)%Z && (ndirs =? d)%Z)
          [("BPA", 16, 20); ("BPA", 38, 12); ("BPA", 38, 36);
           ("BPA", 60, 72); ("JENSEN", 38, 12)]%Z.

Definition opens (t : list event) : list string :=
  omap (fun ev => match ev with EvOpen p => Some p | _ => None end) t.

End Convergence.

(** ** [plot_optimization_results] and [get_statistics_38_turbs]

    [plot_optimization_results] is embedded from its first statement to the
    printed SNOPT+WEC-D statistics; [get_statistics_38_turbs] is embedded
    whole.  What [print] writes is recorded as [EvPrint] events (integers
    are shown as floats); the Welch test of scipy has no effect on the
    frame and is left out. *)

Module Stats.
Local Open Scope float_scope.

Definition name_matrix (x : string) : M frame Np.matrix := name_arr2 x.

(** [x = np.loadtxt(path)] *)
Definition load_into (fs : gmap string Np.matrix) (x path : string)
  : M frame unit :=
  a <- loadtxt fs path ;;
  assign x (VArr2 a).

(** [out[i] = np.sum(calls[id == i])] for [i] in [0 .. n-1]. *)
Definition per_run_totals (id calls : list float) (n : nat)
  : res (list float) :=
  rmap_list (fun i =>
               rbind (Np.mask_select (Np.eq_mask id (Np.of_nat i)) calls)
                     (fun sel => Ok (Np.sum sel)))
            (seq 0 n).

(** [100.0 * (1.0 - (aep / tmax_aep))] *)
Definition wake_loss (tmax_aep : float) (aep : list float) : list float :=
  map (fun a => 100 * (1 - a / tmax_aep)) aep.

Definition print_all (rows : list (string * float)) : M frame unit :=
  for_each rows (fun r => emit (EvPrint (fst r) (snd r))).

Definition opt_dir (d : string) : string :=
  "./image_data/opt_results/" ++ d.

Definition load_case (fs : gmap string Np.matrix) (dir snopt wecd ps : string)
  : M frame unit :=
  load_into fs "data_snopt_no_wec" (opt_dir dir ++ "snopt/" ++ snopt) ;;
  load_into fs "data_snopt_wecd"
    (opt_dir dir ++ "snopt_wec_diam_max_wec_3_nsteps_6.000/" ++ wecd) ;;
  load_into fs "data_ps" (opt_dir dir ++ "ps/" ++ ps).

Definition load_jensen (fs : gmap string Np.matrix) (dir file : string)
  : M frame unit :=
  load_into fs "data_snopt_no_wec" (opt_dir dir ++ "snopt/" ++ file) ;;
  load_into fs "data_snopt_wecd"
    (opt_dir dir ++ "snopt_wec_diam_max_wec_3_nsteps_6.000/" ++ file).

Definition rundata (alg turbs rose dirs : string) : string :=
  alg ++ "_multistart_rundata_" ++ turbs ++ "turbs_" ++ rose ++ "WindRose_"
  ++ dirs ++ "dirs_BPA_all.txt".

(** The data-selection part: which tables are loaded for which model and
    turbine count, and the theoretical maximum AEP. *)
Definition load_results (fs : gmap string Np.matrix) (nturbs : Z)
    (model : string) (ps_wec : bool) : M frame unit :=
  assign "ps_wec" (VInt (if ps_wec then 1 else 0)) ;;
  if String.eqb model "BPA" then
    (if (nturbs =? 9)%Z then
       load_into fs "data_snopt_no_wec"
         (opt_dir "202002240836/no_wec_"
          ++ rundata "snopt" "9" "directional" "20") ;;
       load_into fs "data_snopt_weca"
         (opt_dir "202002240836/angle_wec_"
          ++ rundata "snopt" "9" "directional" "20") ;;
       load_into fs "data_snopt_wecd"
         (opt_dir "202002240836/diam_wec_"
          ++ rundata "snopt" "9" "directional" "20") ;;
       load_into fs "data_snopt_wech"
         (opt_dir "202002240836/hybrid_wec_"
          ++ rundata "snopt" "9" "directional" "20") ;;
       load_into fs "data_ps"
         (opt_dir (rundata "ps" "16" "directional" "20"))
     else ret tt) ;;
    (if (nturbs =? 16)%Z then
       load_case fs "20200821-16-turbs-20-dir-fcall-and-conv-history/"
         (rundata "snopt" "16" "directional" "20")
         (rundata "snopt" "16" "directional" "20")
         (rundata "ps" "16" "directional" "20") ;;
       (if ps_wec
        then load_into fs "data_ps_wec"
               (opt_dir "20200821-16-turbs-20-dir-fcall-and-conv-history/"
                ++ "ps_wec_diam_max_wec_3_nsteps_6.000/"
                ++ rundata "ps" "16" "directional" "20")
        else ret tt) ;;
       assign "tmax_aep" (VNum (5191363.5933961 * Convergence.of_Z nturbs))
     else if (nturbs =? 38)%Z then
       load_case fs "20200821-38-turbs-36-dir-fcall-and-conv-history/"
         (rundata "snopt" "38" "nantucket" "36")
         (rundata "snopt" "38" "nantucket" "36")
         (rundata "ps" "38" "nantucket" "36") ;;
       assign "tmax_aep" (VNum (1630166.61601323 * Convergence.of_Z nturbs)) ;;
       assign "ps_wec" (VInt 0)
     else if (nturbs =? 60)%Z then
       load_case fs "20200824-60-turbs-72-dir-fcall-and-conv-history/"
         (rundata "snopt" "60" "amalia" "72")
         (rundata "snopt" "60" "amalia" "72")
         (rundata "ps" "60" "amalia" "72") ;;
       assign "tmax_aep" (VNum (6653047.52233728 * Convergence.of_Z nturbs)) ;;
       assign "ps_wec" (VInt 0)
     else Sweep.unsupported_guard nturbs)
  else if String.eqb model "JENSEN" then
    (if (nturbs =? 16)%Z then
       load_jensen fs "20200805-jensen-16-turbs-20-dir-maxwecd3-nsteps6/"
         (rundata "snopt" "16" "directional" "20") ;;
       assign "tmax_aep" (VNum (5904352.21200323 * Convergence.of_Z nturbs)) ;;
       assign "ps_wec" (VInt 0)
     else if (nturbs =? 38)%Z then
       load_jensen fs "20200805-jensen-38-turbs-12-dir-maxwecd3-nsteps6/"
         (rundata "snopt" "38" "nantucket" "12") ;;
       assign "tmax_aep" (VNum (5679986.82794711 * Convergence.of_Z nturbs)) ;;
       assign "ps_wec" (VInt 0)
     else ret tt)
  else ret tt.

(** The plain-SNOPT block. *)
Definition snopt_block (model : string) : M frame unit :=
  data <- name_matrix "data_snopt_no_wec" ;;
  snw_id <- lift (Np.col 0 data) ;;
  snw_ti_opt <- lift (Np.col 2 data) ;;
  snw_orig_aep <- lift (Np.cell data 0 4) ;;
  aep <- lift (Np.col 6 data) ;;
  snw_run_end_aep <-
    (if String.eqb model "BPA"
     then lift (Np.mask_select (Np.eq_mask snw_ti_opt 5) aep)
     else ret aep) ;;
  snw_run_time <- lift (Np.col 7 data) ;;
  snw_fcalls <- lift (Np.col 8 data) ;;
  snw_scalls <- lift (Np.col 9 data) ;;
  snw_tfcalls <-
    lift (per_run_totals snw_id snw_fcalls (length snw_run_end_aep)) ;;
  snw_tscalls <-
    lift (per_run_totals snw_id snw_scalls (length snw_run_end_aep)) ;;
  snw_ctfcalls <- lift (Np.add snw_tfcalls snw_tscalls) ;;
  assign "snw_ctfcalls" (VArr snw_ctfcalls) ;;
  kept <- lift (Np.mask_select (Np.gt_mask snw_ctfcalls 0) snw_run_end_aep) ;;
  tmax_aep <- name_num "tmax_aep" ;;
  let snw_run_wake_loss := wake_loss tmax_aep kept in
  assign "snw_run_wake_loss" (VArr snw_run_wake_loss) ;;
  let mean := Np.average snw_run_wake_loss in
  let sd := Np.std snw_run_wake_loss in
  let med := Np.median snw_run_wake_loss in
  hi <- lift (Np.max snw_run_wake_loss) ;;
  lo <- lift (Np.min snw_run_wake_loss) ;;
  calls <- lift (Np.mask_select (Np.gt_mask snw_ctfcalls 0) snw_ctfcalls) ;;
  let cmed := Np.median calls in
  chi <- lift (Np.max calls) ;;
  clo <- lift (Np.min calls) ;;
  print_all
    [("SNOPT Max Wake Loss", hi); ("SNOPT Min Wake Loss", lo);
     ("SNOPT Ave. Wake Loss", mean); ("SNOPT Med. Wake Loss", med);
     ("SNOPT Std Wake Loss", sd); ("SNOPT Max fcalls", chi);
     ("SNOPT Min fcalls", clo); ("SNOPT Median fcalls", cmed)].

(** The SNOPT+WEC-D block.  The three boolean masks are all
    [snw_ctfcalls > 0], the call totals of the plain-SNOPT runs. *)
Definition wecd_block (model : string) : M frame unit :=
  data <- name_matrix "data_snopt_wecd" ;;
  swd_id <- lift (Np.col 0 data) ;;
  swd_ef <- lift (Np.col 1 data) ;;
  swd_ti_opt <- lift (Np.col 3 data) ;;
  swd_orig_aep <- lift (Np.cell data 0 5) ;;
  aep <- lift (Np.col 7 data) ;;
  swd_run_end_aep <-
    (if String.eqb model "BPA"
     then lift (Np.mask_select (Np.eq_mask swd_ti_opt 5) aep)
     else lift (Np.mask_select (Np.eq_mask swd_ef 1) aep)) ;;
  swd_run_time <- lift (Np.col 8 data) ;;
  swd_fcalls <- lift (Np.col 9 data) ;;
  swd_scalls <- lift (Np.col 10 data) ;;
  swd_tfcalls <-
    lift (per_run_totals swd_id swd_fcalls (length swd_run_end_aep)) ;;
  swd_tscalls <-
    lift (per_run_totals swd_id swd_scalls (length swd_run_end_aep)) ;;
  swd_ctfcalls <- lift (Np.add swd_tfcalls swd_tscalls) ;;
  assign "swd_ctfcalls" (VArr swd_ctfcalls) ;;
  snw_ctfcalls <- name_arr "snw_ctfcalls" ;;
  kept <- lift (Np.mask_select (Np.gt_mask snw_ctfcalls 0) swd_run_end_aep) ;;
  tmax_aep <- name_num "tmax_aep" ;;
  let swd_run_wake_loss := wake_loss tmax_aep kept in
  assign "swd_run_wake_loss" (VArr swd_run_wake_loss) ;;
  let mean := Np.average swd_run_wake_loss in
  let sd := Np.std swd_run_wake_loss in
  let med := Np.median swd_run_wake_loss in
  hi <- lift (Np.max swd_run_wake_loss) ;;
  lo <- lift (Np.min swd_run_wake_loss) ;;
  snw_ctfcalls <- name_arr "snw_ctfcalls" ;;
  calls <- lift (Np.mask_select (Np.gt_mask snw_ctfcalls 0) swd_ctfcalls) ;;
  let cmed := Np.median calls in
  chi <- lift (Np.max calls) ;;
  clo <- lift (Np.min calls) ;;
  print_all
    [("SNOPT+WEC-D Max Wake Loss", hi); ("SNOPT+WEC-D Min Wake Loss", lo);
     ("SNOPT+WEC-D Ave. Wake Loss", mean);
     ("SNOPT+WEC-D Med. Wake Loss", med);
     ("SNOPT+WEC-D Std Wake Loss", sd); ("SNOPT+WEC-D Max fcalls", chi);
     ("SNOPT+WEC-D Min fcalls", clo); ("SNOPT+WEC-D Median fcalls", cmed)].

Definition plot_optimization_results (fs : gmap string Np.matrix)
    (nturbs : Z) (model : string) (ps_wec : bool) : M frame unit :=
  load_results fs nturbs model ps_wec ;;
  snopt_block model ;;
  wecd_block model.

(** What the documentation asks of one algorithm's wake-loss sample: the
    runs whose own summed call count is positive. *)
Definition own_runs_wake_loss (tmax_aep : float)
    (run_end_aep ctfcalls : list float) : res (list float) :=
  rbind (Np.mask_select (Np.gt_mask ctfcalls 0) run_end_aep)
        (fun kept => Ok (wake_loss tmax_aep kept)).

End Stats.

(** *** The masks of [plot_optimization_results] on a small case *)

(** Plain SNOPT: run 0 has two rows (stages 4 and 5) with 6+5 and 2+1
    calls, run 1 one row with 7+3 calls. *)
Definition snopt_table : Np.matrix :=
  [[0; 4; 4; 0; 100; 0; 110; 1; 6; 5];
   [0; 4; 5; 0; 100; 0; 120; 1; 2; 1];
   [1; 4; 5; 0; 100; 0; 130; 1; 7; 3]]%float.

(** SNOPT+WEC-D: run 0 has 3+2 and 4+1 calls, run 1 recorded no
    evaluation at all. *)
Definition wecd_table : Np.matrix :=
  [[0; 3; 4; 4; 0; 100; 0; 115; 1; 3; 2];
   [0; 1; 4; 5; 0; 100; 0; 125; 1; 4; 1];
   [1; 1; 4; 5; 0; 100; 0; 135; 1; 0; 0]]%float.

Definition case16 : gmap string Np.matrix :=
  let d := "./image_data/opt_results/20200821-16-turbs-20-dir-fcall-and-conv-history/" in
  list_to_map
    [(d ++ "snopt/" ++ Stats.rundata "snopt" "16" "directional" "20",
      snopt_table);
     (d ++ "snopt_wec_diam_max_wec_3_nsteps_6.000/"
      ++ Stats.rundata "snopt" "16" "directional" "20", wecd_table);
     (d ++ "ps/" ++ Stats.rundata "ps" "16" "directional" "20",
      snopt_table)].

Definition local_arr (s : frame) (x : string) : option (list float) :=
  match locals s !! x with
  | Some (VArr a) => Some a
  | _ => None
  end.

Module Stats38.
Local Open Scope float_scope.

(** [np.argmax]: the index of the first largest entry. *)
Fixpoint argmax_from (best : float) (ibest i : nat) (a : list float) : nat :=
  match a with
  | [] => ibest
  | x :: a' =>
      if Np.isnan best then ibest
      else if Np.isnan x || (best <? x)
           then argmax_from x i (S i) a'
           else argmax_from best ibest (S i) a'
  end.

Definition argmax (a : list float) : res nat :=
  match a with
  | [] => Err (ValueError "attempt to get argmax of an empty sequence")
  | x :: a' => Ok (argmax_from x 0 1 a')
  end.

Definition data_dir : string := "./image_data/".

(** The five call-count statistics, in the order they are computed. *)
Definition call_stats (sample : list float) : res (list float) :=
  let med := Np.median sample in
  let ave := Np.average sample in
  let sd := Np.std sample in
  rbind (Np.min sample) (fun lo =>
  rbind (Np.max sample) (fun hi => Ok [med; ave; sd; lo; hi])).

(** The six AEP statistics times [scale_aep], after the baseline. *)
Definition aep_stats (scale base : float) (aep : list float)
  : res (list float) :=
  rbind (Np.min aep) (fun lo =>
  rbind (Np.max aep) (fun hi =>
    Ok [base * scale; Np.median aep * scale; Np.average aep * scale;
        Np.std aep * scale; lo * scale; hi * scale])).

Definition labels : list string :=
  ["med fcalls"; "ave fcalls"; "std fcalls"; "low fcalls"; "high fcalls";
   "base aep"; "med aep"; "ave aep"; "std aep"; "low aep"; "high aep";
   "best layout"].

Definition print_block (who : string) (values : list float)
  : M frame unit :=
  for_each (zip labels values)
           (fun r => emit (EvPrint (who ++ " " ++ fst r) (snd r))).

Definition get_statistics_38_turbs (fs : gmap string Np.matrix)
  : M frame unit :=
  data_snopt_mstart <-
    loadtxt fs (data_dir ++ "snopt_multistart_rundata_38turbs_nantucketWindRose_12dirs_BPA_all.txt") ;;
  data_snopt_relax <-
    loadtxt fs (data_dir ++ "snopt_relax_rundata_38turbs_nantucketWindRose_12dirs_BPA_all.txt") ;;
  sr_id <- lift (Np.col 0 data_snopt_relax) ;;
  sr_ef <- lift (Np.col 1 data_snopt_relax) ;;
  sr_orig_aep <- lift (Np.cell data_snopt_relax 0 5) ;;
  relax_aep <- lift (Np.col 7 data_snopt_relax) ;;
  sr_run_end_aep <- lift (Np.mask_select (Np.eq_mask sr_ef 1) relax_aep) ;;
  sr_run_time <- lift (Np.col 8 data_snopt_relax) ;;
  sr_fcalls <- lift (Np.col 9 data_snopt_relax) ;;
  sr_scalls <- lift (Np.col 10 data_snopt_relax) ;;
  let sr_run_improvement :=
    map (fun a => a / sr_orig_aep - 1) sr_run_end_aep in
  let sr_mean_run_improvement := Np.average sr_run_improvement in
  let sr_std_improvement := Np.std sr_run_improvement in
  sm_id <- lift (Np.col 0 data_snopt_mstart) ;;
  sm_orig_aep <- lift (Np.cell data_snopt_mstart 0 4) ;;
  sm_run_end_aep <- lift (Np.col 6 data_snopt_mstart) ;;
  sm_run_time <- lift (Np.col 7 data_snopt_mstart) ;;
  sm_fcalls <- lift (Np.col 8 data_snopt_mstart) ;;
  sm_scalls <- lift (Np.col 9 data_snopt_mstart) ;;
  let sm_run_improvement :=
    map (fun a => a / sr_orig_aep - 1) sm_run_end_aep in
  let sm_mean_run_improvement := Np.average sm_run_improvement in
  let sm_std_improvement := Np.std sr_run_improvement in
  sr_tfcalls <- lift (Np.mask_select (Np.eq_mask sr_ef 1) sr_fcalls) ;;
  sr_tscalls <- lift (Np.mask_select (Np.eq_mask sr_ef 1) sr_fcalls) ;;
  let nTurbines := 38 in
  let nvars := 2 * nTurbines in
  let nCons := 741 in
  let scale_aep := 1E-6 in
  s_calls <- lift (call_stats sm_fcalls) ;;
  sr_sample <- lift (Np.add sr_tfcalls sr_tscalls) ;;
  assign "sr_sample" (VArr sr_sample) ;;
  sr_calls <- lift (call_stats sr_sample) ;;
  s_aep <- lift (aep_stats scale_aep sm_orig_aep sm_run_end_aep) ;;
  s_arg <- lift (argmax sm_run_end_aep) ;;
  s_best_layout <- lift (Np.item sm_id s_arg) ;;
  sr_aep <- lift (aep_stats scale_aep sr_orig_aep sr_run_end_aep) ;;
  sr_arg <- lift (argmax sr_run_end_aep) ;;
  sr_best_layout <- lift (Np.item sr_id sr_arg) ;;
  emit (EvPrint "nturbs" nTurbines) ;;
  emit (EvPrint "nvars" nvars) ;;
  emit (EvPrint "ncons" nCons) ;;
  print_block "snopt mstart" (s_calls ++ s_aep ++ [s_best_layout]) ;;
  print_block "snopt relax" (sr_calls ++ sr_aep ++ [sr_best_layout]).

(** What the documentation asks of the relaxation method's call sample:
    function calls plus sensitivity calls (columns 9 and 10) of the rows
    whose continuation factor (column 1) equals 1. *)
Definition converged_total_calls (relax : Np.matrix) : res (list float) :=
  rbind (Np.col 1 relax) (fun ef =>
  rbind (Np.col 9 relax) (fun fcalls =>
  rbind (Np.col 10 relax) (fun scalls =>
  rbind (Np.mask_select (Np.eq_mask ef 1) fcalls) (fun tf =>
  rbind (Np.mask_select (Np.eq_mask ef 1) scalls) (fun ts =>
    Np.add tf ts))))).

Definition printed (who : string) (t : list event) : list (string * float) :=
  omap (fun ev => match ev with
                  | EvPrint l x =>
                      if String.prefix who l then Some (l, x) else None
                  | _ => None
                  end) t.

End Stats38.

(** Two multistart runs, and a relaxation run of three continuation steps
    of which the last (factor 1) is the converged one, with 10 function
    calls and 4 sensitivity calls. *)
Definition mstart_table : Np.matrix :=
  [[0; 4; 5; 0; 100; 0; 120; 1; 30; 12];
   [1; 4; 5; 0; 100; 0; 130; 1; 34; 14]]%float.
Definition relax_table : Np.matrix :=
  [[0; 3; 4; 5; 0; 100; 0; 110; 1; 8; 3];
   [0; 2; 4; 5; 0; 100; 0; 115; 1; 9; 5];
   [0; 1; 4; 5; 0; 100; 0; 125; 1; 10; 4]]%float.

Definition case38 : gmap string Np.matrix :=
  list_to_map
    [("./image_data/snopt_multistart_rundata_38turbs_nantucketWindRose_12dirs_BPA_all.txt",
      mstart_table);
     ("./image_data/snopt_relax_rundata_38turbs_nantucketWindRose_12dirs_BPA_all.txt",
      relax_table)].

(** ** Regular-expression scans of [parse_alpso_files]

    Both patterns have the shape [(?<=LIT)BODY]: a fixed look-behind
    followed by a greedy body that never backtracks.  [re.findall] scans
    the text from left to right; at a position where the look-behind holds
    and the body matches, the match is recorded and the scan resumes at its
    end (one character further on after an empty match).  Texts are ASCII:
    [\d] is a decimal digit and [.] is any character but the line feed. *)

Module Re.

Definition newline : ascii := "010"%char.

Definition is_digit (c : ascii) : bool :=
  (48 <=? nat_of_ascii c)%nat && (nat_of_ascii c <=? 57)%nat.

Definition not_newline (c : ascii) : bool := negb (Ascii.eqb c newline).

Fixpoint take_while (p : ascii -> bool) (s : list ascii) : list ascii :=
  match s with
  | [] => []
  | c :: s' => if p c then c :: take_while p s' else []
  end.

Fixpoint starts_with (p s : list ascii) : bool :=
  match p, s with
  | [], _ => true
  | a :: p', b :: s' => Ascii.eqb a b && starts_with p' s'
  | _ :: _, [] => false
  end.

(** [.\d+]: one character of the line, then the longest run of digits,
    which must not be empty. *)
Definition dot_digits (s : list ascii) : option (list ascii) :=
  match s with
  | [] => None
  | c :: s' =>
      if not_newline c
      then match take_while is_digit s' with
           | [] => None
           | ds => Some (c :: ds)
           end
      else None
  end.

(** [.*]: the rest of the line, possibly empty. *)
Definition dot_star (s : list ascii) : option (list ascii) :=
  Some (take_while not_newline s).

Section Findall.
(** The look-behind literal, reversed, and the body matcher. *)
Variable til : list ascii.
Variable body : list ascii -> option (list ascii).

(** [back] is the text before the current position, last character
    first; [skip] counts the characters still covered by the previous
    match. *)
Fixpoint scan (back : list ascii) (skip : nat) (s : list ascii)
  : list (list ascii) :=
  match s with
  | [] =>
      match skip with
      | O => if starts_with til back
             then match body [] with
                  | Some tok => [tok]
                  | None => []
                  end
             else []
      | S _ => []
      end
  | c :: s' =>
      match skip with
      | S k => scan (c :: back) k s'
      | O =>
          match (if starts_with til back then body s else None) with
          | Some tok => tok :: scan (c :: back) (length tok - 1) s'
          | None => scan (c :: back) 0 s'
          end
      end
  end.
End Findall.

(** [re.findall('(?<=lit)BODY', text)] *)
Definition findall (lit : string)
    (body : list ascii -> option (list ascii)) (text : string)
  : list string :=
  map string_of_list_ascii
      (scan (rev (list_ascii_of_string lit)) body [] 0
            (list_ascii_of_string text)).

Definition evaluations (text : string) : list string :=
  findall "EVALUATIONS: " dot_digits text.

Definition objective (text : string) : list string :=
  findall "F = -" dot_star text.

End Re.

(** [parse_alpso_files(filename)]: the file is opened and read twice; the
    pair returned is [(obj, fcalls)]. *)
Definition parse_alpso_files (tfs : gmap string string) (filename : string)
  : M frame (list string * list string) :=
  text <- Convergence.open_text tfs filename ;;
  let fcalls := Re.evaluations text in
  text' <- Convergence.open_text tfs filename ;;
  let obj := Re.objective text' in
  ret (obj, fcalls).

Definition lf : string := String Re.newline EmptyString.

(** *** Vocabulary for the scans *)

Definition eval_lit : list ascii := list_ascii_of_string "EVALUATIONS: ".

Definition obj_lit : list ascii := list_ascii_of_string "F = -".

Definition digit (c : ascii) : Prop := Re.is_digit c = true.

(** The next [skip] characters of [s] exist and are digits: what the
    scan for [.\d+] knows about the text it is skipping. *)
Definition digits_ahead (skip : nat) (s : list ascii) : Prop :=
  exists ds rest, s = (ds ++ rest)%list /\ length ds = skip
                  /\ Forall digit ds.

Definition on_line (c : ascii) : Prop := Re.not_newline c = true.

(** The same for [(?<=F = -).*]: the text being skipped stays on the
    line. *)
Definition line_ahead (skip : nat) (s : list ascii) : Prop :=
  exists t rest, s = (t ++ rest)%list /\ length t = skip
                 /\ Forall on_line t.

(** What may follow the rest of a line: nothing, or a line feed. *)
Definition ends_line (rest : list ascii) : Prop :=
  rest = [] \/ exists c r, rest = c :: r /\ Re.not_newline c = false.

(** The text read so far is empty or ends with a line feed. *)
Definition line_start (back : list ascii) : Prop :=
  back = [] \/ exists b, back = Re.newline :: b.

(** The literal "F = -" written after [w] is its first occurrence in
    [w ++ "F = -"]: no proper prefix ends with the literal. *)
Definition first_on_line (w : list ascii) : Prop :=
  forall u v u', (w ++ obj_lit = u ++ v)%list -> v <> [] ->
                 u <> (u' ++ obj_lit)%list.

Definition two_line_log : gmap string string :=
  {[ "run.out" := "EVALUATIONS: 150" ++ lf ++ "F = -12345.6789" ++ lf ]}.

(** ** [plot_alpso_tests]

    [np.asfarray], which parses the tokens into numbers, is a parameter;
    [ax.plot] needs as many abscissae as ordinates. *)

Module Alpso.
Section WithParser.
Variable asfarray : list string -> res (list float).
Variable tfs : gmap string string.

Definition directory : string := "./image_data/alpso-tuning/".

(** [(nturbs[i], ndirs[i], windrose[i])] for the four case studies. *)
Definition cases : list (Z * Z * string) :=
  [(16, 20, "directional"); (38, 12, "nantucket");
   (38, 36, "nantucket"); (60, 72, "amalia")]%Z.

Definition datafile (case : Z * Z * string) (ii : Z) : string :=
  let '(nturbs, ndirs, windrose) := case in
  directory ++ "ALPSO_summary_multistart_" ++ pyfmt_i nturbs ++ "turbs_"
  ++ windrose ++ "WindRose_" ++ pyfmt_i ndirs
  ++ "dirs_BPAModel_RunID0_TItype4_II" ++ pyfmt_i ii ++ "_print.out".

Definition image (case : Z * Z * string) : string :=
  let '(nturbs, ndirs, _) := case in
  "./images/alpso_test_" ++ pyfmt_i nturbs ++ "turbs_" ++ pyfmt_i ndirs
  ++ "dirs.pdf".

(** One pass of the inner loop. *)
Definition plot_curve (case : Z * Z * string) (ii : Z) : M frame unit :=
  r <- parse_alpso_files tfs (datafile case ii) ;;
  obj <- lift (asfarray (fst r)) ;;
  fcalls <- lift (asfarray (snd r)) ;;
  if (length fcalls =? length obj)%nat
  then emit EvPlot
  else raise (ValueError "x and y must have same first dimension").

(** [filename = "./images/..." % (...); plt.savefig(filename, ...)] *)
Definition save_chart (case : Z * Z * string) : M frame unit :=
  assign "filename" (VStr (image case)) ;;
  filename <- name_str "filename" ;;
  emit (EvSavefig filename).

(** One pass of the outer loop. *)
Definition chart (save_figs show_figs : bool) (case : Z * Z * string)
  : M frame unit :=
  emit EvSubplot ;;
  for_each [5; 10; 15; 20; 25; 30]%Z (plot_curve case) ;;
  (if save_figs then save_chart case else ret tt) ;;
  (if show_figs then emit EvShow else ret tt).

Definition plot_alpso_tests (filename : string)
    (save_figs show_figs : bool) : M frame unit :=
  assign "filename" (VStr filename) ;;
  for_each cases (chart save_figs show_figs).

End WithParser.

Definition saves (t : list event) : list string :=
  omap (fun ev => match ev with EvSavefig p => Some p | _ => None end) t.

End Alpso.

(** *** Comparing two runs *)

(** Two runs agree: same result or same exception, same effects. *)
Definition agree {A} (o1 o2 : outcome frame A) : Prop :=
  match o1, o2 with
  | Done a s1, Done b s2 => a = b /\ trace s1 = trace s2
  | Raised e s1, Raised e' s2 => e = e' /\ trace s1 = trace s2
  | _, _ => False
  end.

(** A computation that cannot tell apart two frames with equal traces. *)
Definition blind {A} (c : M frame A) : Prop :=
  forall s1 s2, trace s1 = trace s2 -> agree (c s1) (c s2).

(** A computation that saves no figure. *)
Definition saveless {A} (c : M frame A) : Prop :=
  forall s, Alpso.saves (trace (final_state (c s))) = Alpso.saves (trace s).

(** All twenty-four tuning logs present and empty, and a parser that
    accepts every token. *)
Definition empty_logs : gmap string string :=
  list_to_map
    (flat_map (fun case => map (fun ii => (Alpso.datafile case ii, ""))
                               [5; 10; 15; 20; 25; 30]%Z)
              Alpso.cases).

Definition parse_all (tokens : list string) : res (list float) :=
  Ok (map (fun _ => 0%float) tokens).

(** ** [plot_windrose]

    Embedded whole; the calls into the plotting library are events.
    [direction], [values] and [ticks] hold [float64] numbers, as in the
    calls made by [make_windrose_plots]; [direction] and [values] are
    one-dimensional arrays. *)

Module Windrose.
Local Open Scope float_scope.

Definition pi : float := 0x1.921fb54442d18p+1.

(** [math.radians] *)
Definition radians (x : float) : float := x * (pi / 180).

(** The builtin [max] of a list. *)
Definition py_max (l : list float) : res float :=
  match l with
  | [] => Err (ValueError "max() arg is an empty sequence")
  | x :: l' => Ok (fold_left (fun best y => if best <? y then y else best)
                             l' x)
  end.

(** An integer as a float. *)
Definition of_Z (z : Z) : float :=
  if (z <? 0)%Z then - Convergence.of_Z (- z) else Convergence.of_Z z.

(** Two one-dimensional arrays of [n] and [m] entries can be broadcast to
    one shape when the sizes agree or one of them is 1. *)
Definition broadcast (n m : nat) : bool :=
  (n =? m)%nat || (n =? 1)%nat || (m =? 1)%nat.

Definition shape_mismatch : exn :=
  ValueError "shape mismatch: objects cannot be broadcast to a single shape".

(** [ax.bar(direction, values, ...)] broadcasts the positions against the
    heights before it draws; the width and the bottom are scalars. *)
Definition bar (direction values : list float) : M frame unit :=
  if broadcast (length direction) (length values)
  then emit EvBar
  else raise shape_mismatch.

Definition plot_windrose (direction values ticks : list float)
    (minor_ticks : Z) (show save : bool) (file_name : string)
    (plot_radius : option float) : M frame unit :=
  plot_radius <- match plot_radius with
                 | None => lift (py_max ticks)
                 | Some r => ret r
                 end ;;
  let direction := map (fun d => d + 270) direction in
  let direction := map (fun d => radians d * -1) direction in
  let N := length direction in
  width <- (if (N =? 0)%nat
            then raise ZeroDivisionError
            else ret (2 * pi / Np.of_nat N)) ;;
  let direction := map (fun d => d - width / 2) direction in
  emit EvSubplot ;;
  t1 <- lift (Np.item ticks 1) ;;
  t0 <- lift (Np.item ticks 0) ;;
  let minor_tick_distance := (t1 - t0) / (of_Z minor_ticks + 1) in
  for_each ticks (fun t => emit (EvCircle t "-")) ;;
  (if (0 <? minor_ticks)%Z && (1 <? length ticks)%nat
   then for_each ticks (fun t =>
          for_each (seq 0 (Z.to_nat minor_ticks)) (fun m =>
            emit (EvCircle (t + Np.of_nat (S m) * minor_tick_distance)
                           ":")))
   else ret tt) ;;
  bar direction values ;;
  (if save then emit (EvSavefig file_name) else ret tt) ;;
  (if show then emit EvShow else ret tt).

End Windrose.

(** ** The wake-spread formulas of [plot_wec_methods]

    These closed forms use [cos] and square roots; they are stated over
    the real numbers, of which the [float64] computation is the rounded
    image. *)

Module Wake.
Local Open Scope R_scope.
Local Abbreviation sqrt := R_sqrt.sqrt.

Definition x0_func (d gamma ct alpha_star beta_star I : R) : R :=
  let num := d * cos gamma * (1 + sqrt (1 - ct)) in
  let den := sqrt 2 * (alpha_star * I + beta_star * (1 - sqrt (1 - ct))) in
  num / den.

Definition xd_func (x0 d ky kz gamma ct : R) : R :=
  let root_term :=
    sqrt ((ky + kz * cos gamma) ^ 2 - 4 * ky * kz * (ct - 1) * cos gamma) in
  let num := ky + kz * cos gamma - root_term in
  let den := 2 * ky * kz * sqrt 8 in
  x0 + d * num / den.

(** [spread_func] fills [sigmay] and [sigmaz] entry by entry. *)
Definition spread_func (x : list R) (x0 xd d ky kz gamma : R)
  : list R * list R :=
  let sigmay0 := d * cos gamma / sqrt 8 in
  let sigmaz0 := d * cos gamma / sqrt 8 in
  let sigmayd := ky * (xd - x0) + d * cos gamma / sqrt 8 in
  let sigmazd := kz * (xd - x0) + d / sqrt 8 in
  (map (fun xi => if Rlt_dec x0 xi
                  then ky * (xi - x0) + d * cos gamma / sqrt 8
                  else (xi / x0) * (sigmay0 - sigmayd) + sigmayd) x,
   map (fun xi => if Rlt_dec x0 xi
                  then kz * (xi - x0) + d / sqrt 8
                  else (xi / x0) * (sigmaz0 - sigmazd) + sigmazd) x).

(** The inputs set in the body of [plot_wec_methods]. *)
Definition I : R := 0.1.
Definition ky : R := 0.3871 * I + 0.003678.
Definition kz : R := 0.3871 * I + 0.003678.
Definition d : R := 80.0.
Definition ct : R := 0.8.
Definition gamma : R := 0.
Definition beta_star : R := 0.154.
Definition alpha_star : R := 2.32.

Definition x0 : R := x0_func d gamma ct alpha_star beta_star I.
Definition xd : R := xd_func x0 d ky kz gamma ct.

End Wake.

(** ** Real formulas and [float64] results

    The wake and the sunflower formulas are stated over the real
    numbers.  The code evaluates them in [float64], so its results differ
    from the real values by rounding, a relative error of the order of
    1e-16.  A
    property that rounding can break by a unit in the last place (a point
    exactly on the unit circle, the order of two spreads that are equal
    over the reals) is stated up to this tolerance. *)

Definition tolerance : R := (1 / 1000000000000)%R.

(** ** The sunflower-seed points of [plot_100_rotor_points]

    Stated over the real numbers, like the wake formulas. *)

Module Sunflower.
Local Open Scope R_scope.
Local Abbreviation sqrt := R_sqrt.sqrt.

Definition floor (r : R) : Z := (up r - 1)%Z.

(** [np.round]: to the nearest integer, halves to the even one. *)
Definition np_round (r : R) : R :=
  let f := floor r in
  let frac := r - IZR f in
  if Rlt_dec frac (1 / 2) then IZR f
  else if Rlt_dec (1 / 2) frac then IZR (f + 1)
  else if Z.even f then IZR f else IZR (f + 1).

Definition radius (k n : nat) (b : R) : R :=
  if Rlt_dec (INR n - b) (INR k + 1)
  then 1
  else sqrt ((INR k + 1) - 1 / 2) / sqrt (INR n - (b + 1) / 2).

(** The golden ratio. *)
Definition phi : R := (sqrt 5 + 1) / 2.

Definition theta (k : nat) : R := 2 * PI * (INR k + 1) / phi ^ 2.

(** The boundary-point count of [sunflower_points(n, alpha)]. *)
Definition boundary (n : nat) (alpha : R) : R :=
  np_round (alpha * sqrt (INR n)).

Definition sunflower_points (n : nat) (alpha : R) : list R * list R :=
  let b := boundary n alpha in
  (map (fun k => radius k n b * cos (theta k)) (seq 0 n),
   map (fun k => radius k n b * sin (theta k)) (seq 0 n)).

End Sunflower.

(** ** Reasoning about runs *)

(** The outcome of [c] from [s] satisfies [Q] when it returns and [E] when
    it raises. *)
Definition wp {A} (c : M frame A) (Q : A -> frame -> Prop)
    (E : exn -> frame -> Prop) (s : frame) : Prop :=
  match c s with
  | Done a s' => Q a s'
  | Raised e s' => E e s'
  end.

(** The local variable [x] is not bound. *)
Definition unbound (x : string) (s : frame) : Prop := locals s !! x = None.

(** [c] never binds [x]. *)
Definition keeps_unbound {A} (x : string) (c : M frame A) : Prop :=
  forall s, unbound x s -> unbound x (final_state (c s)).

(** [c] cannot complete from a frame in which [x] is unbound. *)
Definition needs {A} (x : string) (c : M frame A) : Prop :=
  forall s, unbound x s -> raised (c s) <> None.

(** ** Fixtures of the sweep functions *)

(** The baseline table each sweep function loads before its double loop,
    and the table of the first cell of the loop. *)
Definition sweep_tables
  : list ((gmap string Np.matrix -> Z -> M frame unit) * string * string) :=
  [(Sweep.plot_max_wec_const_nstep_results,
    "./image_data/opt_results/20200520-38-turbs-12-dir-nsteps6-maxwec/snopt_wec_angle_max_wec_5_nsteps_6.000/snopt_multistart_rundata_38turbs_nantucketWindRose_12dirs_BPA_all.txt",
    "./image_data/opt_results/20200520-38-turbs-12-dir-nsteps6-maxwec/snopt_wec_angle_max_wec_1_nsteps_6.000/snopt_multistart_rundata_38turbs_nantucketWindRose_12dirs_BPA_all.txt");
   (Sweep.plot_maxwec3_nstep_results,
    "./image_data/opt_results/20200602-38-turbs-12-dir-nsteps-maxweca9/snopt_wec_angle_max_wec_9_nsteps_10.000/snopt_multistart_rundata_38turbs_nantucketWindRose_12dirs_BPA_all.txt",
    "./image_data/opt_results/20200602-38-turbs-12-dir-nsteps-maxweca9/snopt_wec_angle_max_wec_9_nsteps_2.000/snopt_multistart_rundata_38turbs_nantucketWindRose_12dirs_BPA_all.txt");
   (Sweep.plot_wec_nstep_results,
    "./image_data/opt_results/20200512-38-turbs-12-dir-nsteps-maxwec3/snopt_wec_angle_max_wec_10_nsteps_10.000/snopt_multistart_rundata_38turbs_nantucketWindRose_12dirs_BPA_all.txt",
    "./image_data/opt_results/20200512-38-turbs-12-dir-nsteps-maxwec3/snopt_wec_angle_max_wec_10_nsteps_2.000/snopt_multistart_rundata_38turbs_nantucketWindRose_12dirs_BPA_all.txt");
   (Sweep.plot_wec_step_results,
    "./image_data/opt_results/202003120725-wec-step-val/snopt_wec_angle_max_wec_10_wec_step_10.000/snopt_multistart_rundata_38turbs_nantucketWindRose_12dirs_BPA_all.txt",
    "./image_data/opt_results/202003120725-wec-step-val/snopt_wec_angle_max_wec_10_wec_step_1.000/snopt_multistart_rundata_38turbs_nantucketWindRose_12dirs_BPA_all.txt");
   (Sweep.plot_max_wec_results,
    "./image_data/opt_results/202003061434-max-wec-val/snopt_wec_angle_max_wec_10/snopt_wec_angle_max_wec_10_snopt_multistart_rundata_38turbs_nantucketWindRose_12dirs_BPA_all.txt",
    "./image_data/opt_results/202003061434-max-wec-val/snopt_wec_angle_max_wec_10/snopt_wec_angle_max_wec_10_snopt_multistart_rundata_38turbs_nantucketWindRose_12dirs_BPA_all.txt")].




(** ** Fixtures of [plot_optimization_results] *)

(** The model and turbine-count pairs for which some branch of
    [plot_optimization_results] loads result tables. *)
Definition loads_tables (model : string) (nturbs : Z) : bool :=
  (String.eqb model "BPA"
   && existsb (Z.eqb nturbs) [9; 16; 38; 60]%Z)
  || (String.eqb model "JENSEN" && existsb (Z.eqb nturbs) [16; 38]%Z).

(** ** Fixtures of [plot_windrose] *)

Definition circles (style : string) (t : list event) : list float :=
  omap (fun ev => match ev with
                  | EvCircle r st => if String.eqb st style then Some r
                                     else None
                  | _ => None
                  end) t.

(** ** [get_statistics_case_studies]

    Embedded whole.  [print] calls are [EvPrint] events labelled as in
    [get_statistics_38_turbs]; the box plot is one [EvPlot]. *)

Module CaseStudies.
Local Open Scope float_scope.

(** [dirs == n] for an argument that defaults to [None]. *)
Definition is_count (dirs : option Z) (n : Z) : bool :=
  match dirs with
  | Some d => (d =? n)%Z
  | None => false
  end.

(** The three loads of one branch: [resdir] is set, then the ALPSO, the
    SNOPT and the SNOPT+WEC tables are read, in this order. *)
Definition load_tables (fs : gmap string Np.matrix)
    (resdir turbs rose dirs : string) : M frame unit :=
  assign "resdir" (VStr resdir) ;;
  Stats.load_into fs "data_ps_mstart"
    (resdir ++ "ps/" ++ Stats.rundata "ps" turbs rose dirs) ;;
  Stats.load_into fs "data_snopt_mstart"
    (resdir ++ "snopt/" ++ Stats.rundata "snopt" turbs rose dirs) ;;
  Stats.load_into fs "data_snopt_relax"
    (resdir ++ "snopt_wec_diam_max_wec_3_nsteps_6.000/"
     ++ Stats.rundata "snopt" turbs rose dirs).

(** The [if turbs == 16: ... elif turbs == 38: ... elif turbs == 60: ...]
    chain, which has no [else]; the inner [if dirs == 12:] comes after
    the three loads of the 38-turbine branch. *)
Definition select (fs : gmap string Np.matrix) (turbs : Z)
    (dirs : option Z) : M frame unit :=
  if (turbs =? 16)%Z then
    load_tables fs
      "./image_data/opt_results/20200821-16-turbs-20-dir-fcall-and-conv-history/"
      "16" "directional" "20"
  else if (turbs =? 38)%Z then
    load_tables fs
      "./image_data/opt_results/20200821-38-turbs-36-dir-fcall-and-conv-history/"
      "38" "nantucket" "36" ;;
    (if is_count dirs 12
     then load_tables fs
            "./image_data/opt_results/20200821-38-turbs-12-dir-fcall-and-conv-history/"
            "38" "nantucket" "12"
     else ret tt)
  else if (turbs =? 60)%Z then
    load_tables fs
      "./image_data/opt_results/20200824-60-turbs-72-dir-fcall-and-conv-history/"
      "60" "amalia" "72"
  else ret tt.

(** [x = x[x >= 0]] *)
Definition keep_nonnegative (x : string) : M frame unit :=
  a <- name_arr x ;;
  assign x (VArr (List.filter (fun v => (0 <=? v)%float) a)).

Definition analyze (turbs : Z) (fnamstart : string)
    (save_figs show_figs lt0 : bool) : M frame unit :=
  data_snopt_relax <- name_arr2 "data_snopt_relax" ;;
  sr_id <- lift (Np.col 0 data_snopt_relax) ;;
  sr_ef <- lift (Np.col 1 data_snopt_relax) ;;
  sr_orig_aep <- lift (Np.cell data_snopt_relax 0 5) ;;
  sr_run_ti <- lift (Np.col 3 data_snopt_relax) ;;
  relax_aep <- lift (Np.col 7 data_snopt_relax) ;;
  sr_run_end_aep <- lift (Np.mask_select (Np.eq_mask sr_run_ti 5) relax_aep) ;;
  sr_run_time <- lift (Np.col 8 data_snopt_relax) ;;
  sr_fcalls <- lift (Np.col 9 data_snopt_relax) ;;
  sr_scalls <- lift (Np.col 10 data_snopt_relax) ;;
  assign "sr_run_improvement"
    (VArr (map (fun a => a / sr_orig_aep - 1) sr_run_end_aep)) ;;
  data_snopt_mstart <- name_arr2 "data_snopt_mstart" ;;
  sm_id <- lift (Np.col 0 data_snopt_mstart) ;;
  sm_orig_aep <- lift (Np.cell data_snopt_mstart 0 4) ;;
  sm_run_ti <- lift (Np.col 2 data_snopt_mstart) ;;
  mstart_aep <- lift (Np.col 6 data_snopt_mstart) ;;
  sm_run_end_aep <- lift (Np.mask_select (Np.eq_mask sm_run_ti 5) mstart_aep) ;;
  sm_run_time <- lift (Np.col 7 data_snopt_mstart) ;;
  sm_fcalls <- lift (Np.col 8 data_snopt_mstart) ;;
  sm_scalls <- lift (Np.col 9 data_snopt_mstart) ;;
  assign "sm_run_improvement"
    (VArr (map (fun a => a / sr_orig_aep - 1) sm_run_end_aep)) ;;
  sr_tfcalls <- lift (Np.mask_select (Np.eq_mask sr_ef 1) sr_fcalls) ;;
  assign "sr_tfcalls" (VArr sr_tfcalls) ;;
  sr_tscalls <- lift (Np.mask_select (Np.eq_mask sr_ef 1) sr_fcalls) ;;
  assign "sr_tscalls" (VArr sr_tscalls) ;;
  data_ps_mstart <- name_arr2 "data_ps_mstart" ;;
  ps_id <- lift (Np.col 0 data_ps_mstart) ;;
  ps_orig_aep <- lift (Np.cell data_ps_mstart 0 4) ;;
  ps_run_ti <- lift (Np.col 2 data_ps_mstart) ;;
  ps_aep <- lift (Np.col 6 data_ps_mstart) ;;
  ps_run_end_aep <- lift (Np.mask_select (Np.eq_mask ps_run_ti 4) ps_aep) ;;
  ps_run_time <- lift (Np.col 7 data_ps_mstart) ;;
  ps_fcalls <- lift (Np.col 8 data_ps_mstart) ;;
  ps_scalls <- lift (Np.col 9 data_ps_mstart) ;;
  assign "ps_run_improvement"
    (VArr (map (fun a => a / sr_orig_aep - 1) ps_run_end_aep)) ;;
  let nTurbines := turbs in
  let nvars := (2 * nTurbines)%Z in
  let nCons := (Z.quot ((nTurbines - 1) * nTurbines) 2 + nTurbines)%Z in
  let scale_aep := 1E-6 in
  s_calls <- lift (Stats38.call_stats sm_fcalls) ;;
  sr_tfcalls <- name_arr "sr_tfcalls" ;;
  sr_tscalls <- name_arr "sr_tscalls" ;;
  sr_sample <- lift (Np.add sr_tfcalls sr_tscalls) ;;
  sr_calls <- lift (Stats38.call_stats sr_sample) ;;
  ps_calls <- lift (Stats38.call_stats ps_fcalls) ;;
  s_aep <- lift (Stats38.aep_stats scale_aep sm_orig_aep sm_run_end_aep) ;;
  s_arg <- lift (Stats38.argmax sm_run_end_aep) ;;
  s_best_layout <- lift (Np.item sm_id s_arg) ;;
  sr_aep <- lift (Stats38.aep_stats scale_aep sr_orig_aep sr_run_end_aep) ;;
  sr_arg <- lift (Stats38.argmax sr_run_end_aep) ;;
  sr_best_layout <- lift (Np.item sr_id sr_arg) ;;
  ps_aep <- lift (Stats38.aep_stats scale_aep ps_orig_aep ps_run_end_aep) ;;
  ps_arg <- lift (Stats38.argmax ps_run_end_aep) ;;
  ps_best_layout <- lift (Np.item ps_id ps_arg) ;;
  emit (EvPrint "nturbs" (Windrose.of_Z nTurbines)) ;;
  emit (EvPrint "nvars" (Windrose.of_Z nvars)) ;;
  emit (EvPrint "ncons" (Windrose.of_Z nCons)) ;;
  Stats38.print_block "snopt mstart" (s_calls ++ s_aep ++ [s_best_layout]) ;;
  Stats38.print_block "snopt relax" (sr_calls ++ sr_aep ++ [sr_best_layout]) ;;
  Stats38.print_block "ALPSO mstart" (ps_calls ++ ps_aep ++ [ps_best_layout]) ;;
  emit EvSubplot ;;
  (if lt0 then ret tt
   else keep_nonnegative "sm_run_improvement" ;;
        keep_nonnegative "sr_run_improvement" ;;
        keep_nonnegative "ps_run_improvement") ;;
  emit EvPlot ;;
  (if save_figs then emit (EvSavefig (fnamstart ++ "_percentaep.pdf"))
   else ret tt) ;;
  (if show_figs then emit EvShow else ret tt).

Definition get_statistics_case_studies (fs : gmap string Np.matrix)
    (turbs : Z) (dirs : option Z) (fnamstart : string)
    (save_figs show_figs lt0 : bool) : M frame unit :=
  select fs turbs dirs ;;
  analyze turbs fnamstart save_figs show_figs lt0.

End CaseStudies.

(** The first table read for 38 turbines, whatever [dirs] is. *)
Definition ps_table_38_36 : string :=
  "./image_data/opt_results/20200821-38-turbs-36-dir-fcall-and-conv-history/ps/ps_multistart_rundata_38turbs_nantucketWindRose_36dirs_BPA_all.txt".

(** ALPSO rows end at stage 4, SNOPT rows at stage 5. *)
Definition ps_table : Np.matrix :=
  [[0; 4; 4; 0; 100; 0; 118; 1; 40; 0];
   [1; 4; 4; 0; 100; 0; 121; 1; 44; 0]]%float.

(** The six tables of the 38-turbine study, for 36 and for 12
    directions. *)
Definition case38_both : gmap string Np.matrix :=
  let d36 := "./image_data/opt_results/20200821-38-turbs-36-dir-fcall-and-conv-history/" in
  let d12 := "./image_data/opt_results/20200821-38-turbs-12-dir-fcall-and-conv-history/" in
  let wec := "snopt_wec_diam_max_wec_3_nsteps_6.000/" in
  list_to_map
    [(d36 ++ "ps/" ++ Stats.rundata "ps" "38" "nantucket" "36", ps_table);
     (d36 ++ "snopt/" ++ Stats.rundata "snopt" "38" "nantucket" "36",
      mstart_table);
     (d36 ++ wec ++ Stats.rundata "snopt" "38" "nantucket" "36",
      relax_table);
     (d12 ++ "ps/" ++ Stats.rundata "ps" "38" "nantucket" "12", ps_table);
     (d12 ++ "snopt/" ++ Stats.rundata "snopt" "38" "nantucket" "12",
      mstart_table);
     (d12 ++ wec ++ Stats.rundata "snopt" "38" "nantucket" "12",
      relax_table)].

(** What a completed call of [get_statistics_case_studies] has computed,
    read off its final frame [s']. *)
Definition doubled (a : list float) : list float :=
  map (fun x => (x + x)%float) a.

Definition relaxed_call_sample (s' : frame) : Prop :=
  exists (relax : Np.matrix) (ef fcalls sel : list float) (lo hi : float),
    locals s' !! "data_snopt_relax" = Some (VArr2 relax)
    /\ Np.col 1 relax = Ok ef /\ Np.col 9 relax = Ok fcalls
    /\ Np.mask_select (Np.eq_mask ef 1) fcalls = Ok sel
    /\ locals s' !! "sr_tfcalls" = Some (VArr sel)
    /\ locals s' !! "sr_tscalls" = Some (VArr sel)
    /\ Np.min (doubled sel) = Ok lo /\ Np.max (doubled sel) = Ok hi
    /\ firstn 5 (Stats38.printed "snopt relax" (trace s'))
       = [("snopt relax med fcalls", Np.median (doubled sel));
          ("snopt relax ave fcalls", Np.average (doubled sel));
          ("snopt relax std fcalls", Np.std (doubled sel));
          ("snopt relax low fcalls", lo);
          ("snopt relax high fcalls", hi)].

Definition improvement_baseline (s' : frame) : Prop :=
  exists (relax mstart ps : Np.matrix) (base : float)
         (sm_ti sm_aep sm_end ps_ti ps_aep ps_end : list float),
    locals s' !! "data_snopt_relax" = Some (VArr2 relax)
    /\ locals s' !! "data_snopt_mstart" = Some (VArr2 mstart)
    /\ locals s' !! "data_ps_mstart" = Some (VArr2 ps)
    /\ Np.cell relax 0 5 = Ok base
    /\ Np.col 2 mstart = Ok sm_ti /\ Np.col 6 mstart = Ok sm_aep
    /\ Np.mask_select (Np.eq_mask sm_ti 5) sm_aep = Ok sm_end
    /\ Np.col 2 ps = Ok ps_ti /\ Np.col 6 ps = Ok ps_aep
    /\ Np.mask_select (Np.eq_mask ps_ti 4) ps_aep = Ok ps_end
    /\ locals s' !! "sm_run_improvement"
       = Some (VArr (map (fun a => (a / base - 1)%float) sm_end))
    /\ locals s' !! "ps_run_improvement"
       = Some (VArr (map (fun a => (a / base - 1)%float) ps_end)).

(** ** [plot_farm]

    The module defines [plot_farm] twice; the second definition, the one
    with the [turbs] argument, replaces the first and is the one embedded
    here.  Circles are [EvCircle] events (radius and line style), the
    square boundary of the 16-turbine farm is one [EvPlot]; axis
    decorations and the turbine numbers are not part of the trace.  The
    boundary of the 60-turbine farm is computed and drawn by the
    plantenergy and shapely packages, a parameter here. *)

Module Farm.
Local Open Scope float_scope.
Section WithBoundary.
Variable draw_boundary_60 : Np.matrix -> M frame unit.
Variable fs : gmap string Np.matrix.

Definition rotor_diameter : float := 80.

(** [boundary_radius / rotor_diameter - 0.5] with
    [boundary_radius = 80.0*(2000.0)/126.4] *)
Definition constraint_radius : float :=
  80.0 * 2000.0 / 126.4 / rotor_diameter - 0.5.

(** The [if layout == 'start': ... elif layout == 'finish': ... else:
    raise ...] chain. *)
Definition load_layout (layout : string) (turbs : Z) : M frame unit :=
  data_directory <- name_str "data_directory" ;;
  if String.eqb layout "start" then
    assign "data_file"
      (VStr ("nTurbs" ++ pyfmt_i turbs ++ "_spacing5_layout_0_start.txt")) ;;
    data_file <- name_str "data_file" ;;
    Stats.load_into fs "plot_data" (data_directory ++ data_file) ;;
    plot_data <- name_arr2 "plot_data" ;;
    x <- lift (Np.col 0 plot_data) ;;
    assign "turbineX" (VArr (map (fun v => v * rotor_diameter) x)) ;;
    y <- lift (Np.col 1 plot_data) ;;
    assign "turbineY" (VArr (map (fun v => v * rotor_diameter) y))
  else if String.eqb layout "finish" then
    assign "data_file" (VStr ("nTurbs" ++ pyfmt_i turbs ++ "_finish.txt")) ;;
    data_file <- name_str "data_file" ;;
    Stats.load_into fs "plot_data" (data_directory ++ data_file) ;;
    plot_data <- name_arr2 "plot_data" ;;
    x <- lift (Np.col 2 plot_data) ;;
    assign "turbineX" (VArr x) ;;
    y <- lift (Np.col 3 plot_data) ;;
    assign "turbineY" (VArr y)
  else raise (ValueError "incorrect layout specified").

(** The boundary drawn for each supported farm; other turbine counts get
    none. *)
Definition draw_boundary (turbs : Z) : M frame unit :=
  if (turbs =? 16)%Z then emit EvPlot
  else if (turbs =? 38)%Z then emit (EvCircle constraint_radius "--")
  else if (turbs =? 60)%Z then
    plot_data <- name_arr2 "plot_data" ;;
    draw_boundary_60 plot_data
  else ret tt.

Definition plot_farm (filename : string) (save_figs show_figs : bool)
    (layout : string) (turb_nums : bool) (turbs : Z) : M frame unit :=
  assign "data_directory"
    (VStr ("./image_data/layouts/" ++ pyfmt_i turbs ++ "_turbs/")) ;;
  load_layout layout turbs ;;
  emit EvSubplot ;;
  draw_boundary turbs ;;
  turbineX <- name_arr "turbineX" ;;
  turbineY <- name_arr "turbineY" ;;
  for_each (zip (map (fun v => v / rotor_diameter) turbineX)
                (map (fun v => v / rotor_diameter) turbineY))
           (fun _ => emit (EvCircle (1 / 2) "-")) ;;
  (if save_figs then emit (EvSavefig filename) else ret tt) ;;
  (if show_figs then emit EvShow else ret tt).

End WithBoundary.

(** What [draw_boundary] adds to the figure when it is not the
    60-turbine farm. *)
Definition boundary_events (turbs : Z) : list event :=
  if (turbs =? 16)%Z then [EvPlot]
  else if (turbs =? 38)%Z then [EvCircle constraint_radius "--"]
  else [].

(** The layout file of a farm. *)
Definition layout_file (layout : string) (turbs : Z) : string :=
  ("./image_data/layouts/" ++ pyfmt_i turbs ++ "_turbs/")
  ++ ("nTurbs" ++ pyfmt_i turbs
      ++ (if String.eqb layout "start" then "_spacing5_layout_0_start.txt"
          else "_finish.txt")).

End Farm.

(** A layout of two turbines. *)
Definition two_turbines : Np.matrix := [[0; 0; 0; 0]; [5; 5; 400; 400]]%float.

Definition farm38 : gmap string Np.matrix :=
  {[ "./image_data/layouts/38_turbs/nTurbs38_finish.txt" := two_turbines ]}.

(** ** [plot_smoothing_visualization_w_wec_wo_wec]

    Embedded whole; each [ax.plot] is one [EvPlot]; console output and
    text labels are not part of the trace. *)

Module Smoothing.
Local Open Scope float_scope.
Section WithFiles.
Variable fs : gmap string Np.matrix.

Definition colors : list string :=
  ["#BDB8AD"; "#85C0F9"; "#0F2080"; "#F5793A"; "#A95AA1"; "#382119"].

(** The six line types; the last two are dash patterns. *)
Definition linetypes : list string :=
  ["-"; "--"; ":"; "-."; "(0, (3, 2, 1, 2, 1, 2))"; "(0, (3, 2, 3, 2, 1, 2))"].

Definition configure (wec_values xt yt : list float) : M frame unit :=
  assign "wec_values" (VArr wec_values) ;;
  assign "xt" (VArr xt) ;;
  assign "yt" (VArr yt).

(** The model and method selection.  The last [else] builds a
    [ValueError] and drops it. *)
Definition select (wec_method wake_model : string) : M frame unit :=
  if String.eqb wake_model "BPA" then
    Stats.load_into fs "data"
      ("./image_data/smoothing_bpa_WEC-" ++ wec_method ++ ".txt") ;;
    (if String.eqb wec_method "A" then
       configure [1; 3; 5; 7; 9] [-1.6; -1.45; -2] [31.5; 25.25; 23]
     else if String.eqb wec_method "D" then
       configure [1; 1.5; 2; 2.5; 3] [-1.6; -1.5; -2.75] [31.5; 24.5; 22.25]
     else if String.eqb wec_method "H" then
       configure [1; 1.5; 2; 2.5; 3] [-1.6; -1.35; -2.25] [31.5; 25; 22.5]
     else ret tt)
  else if String.eqb wake_model "JENSEN" then
    Stats.load_into fs "data"
      ("./image_data/smoothing_jensen_WEC-" ++ wec_method ++ ".txt") ;;
    (if String.eqb wec_method "D" then
       configure [1; 1.5; 2; 2.5; 3] [-1.6; -1.6; -1.6] [30.85; 29.7; 28]
     else ret tt)
  else emit (EvBuild (ValueError "Invalid model selection")).

(** [np.arange(1, n + 1, 2)] *)
Definition odd_numbers (n : nat) : list nat :=
  map (fun k => 2 * k + 1)%nat (seq 0 ((n + 1) / 2)).

(** One pass of the loop over [plot_vals]. *)
Definition plot_curve (i : nat) : M frame unit :=
  wec_values <- name_arr "wec_values" ;;
  let plot_vals := odd_numbers (length wec_values) in
  column <- lift (Np.item plot_vals i) ;;
  wec_value <- lift (Np.item wec_values (column - 1)) ;;
  data <- name_arr2 "data" ;;
  curve <- lift (Np.col column data) ;;
  color <- lift (Np.item colors i) ;;
  linestyle <- lift (Np.item linetypes i) ;;
  emit EvPlot ;;
  xt <- name_arr "xt" ;;
  x <- lift (Np.item xt i) ;;
  yt <- name_arr "yt" ;;
  y <- lift (Np.item yt i) ;;
  ret tt.

Definition plot_smoothing_visualization_w_wec_wo_wec (filename : string)
    (save_figs show_figs : bool) (wec_method wake_model : string)
  : M frame unit :=
  select wec_method wake_model ;;
  data <- name_arr2 "data" ;;
  location <- lift (Np.col 0 data) ;;
  assign "location" (VArr location) ;;
  emit EvSubplot ;;
  wec_values <- name_arr "wec_values" ;;
  for_each (seq 0 (length (odd_numbers (length wec_values)))) plot_curve ;;
  (if save_figs then emit (EvSavefig filename) else ret tt) ;;
  (if show_figs then emit EvShow else ret tt).

End WithFiles.

(** The combinations for which the selection sets the WEC values. *)
Definition configured (wec_method wake_model : string) : bool :=
  (String.eqb wake_model "BPA"
   && existsb (String.eqb wec_method) ["A"; "D"; "H"])
  || (String.eqb wake_model "JENSEN" && String.eqb wec_method "D").

Definition plots (t : list event) : nat :=
  length (List.filter
            (fun ev => match ev with EvPlot => true | _ => false end) t).

End Smoothing.

(** A table of AEP against offset with six columns. *)
Definition smoothing_table : Np.matrix :=
  [[-1; 30; 31; 32; 33; 34]; [0; 20; 24; 27; 29; 30]; [1; 30; 31; 32; 33; 34]]%float.

Definition smoothing_files : gmap string Np.matrix :=
  {[ "./image_data/smoothing_bpa_WEC-D.txt" := smoothing_table ]}.

(** ** The relaxed wake spreads of [plot_wec_methods]

    The three variants of [spread_func] that the figure compares, with
    the same conventions as [Wake]. *)

Module WEC.
Local Open Scope R_scope.
Local Abbreviation sqrt := R_sqrt.sqrt.

(** WEC-D: the spread of [spread_func] times [wec_factor]. *)
Definition spread_func_original_wec (x : list R)
    (x0 xd d ky kz gamma wec_factor : R) : list R * list R :=
  let sigmay0 := d * cos gamma / sqrt 8 in
  let sigmaz0 := d * cos gamma / sqrt 8 in
  let sigmayd := ky * (xd - x0) + d * cos gamma / sqrt 8 in
  let sigmazd := kz * (xd - x0) + d / sqrt 8 in
  let sigmay :=
    map (fun xi => if Rlt_dec x0 xi
                   then ky * (xi - x0) + d * cos gamma / sqrt 8
                   else (xi / x0) * (sigmay0 - sigmayd) + sigmayd) x in
  let sigmaz :=
    map (fun xi => if Rlt_dec x0 xi
                   then kz * (xi - x0) + d / sqrt 8
                   else (xi / x0) * (sigmaz0 - sigmazd) + sigmazd) x in
  (map (fun s => wec_factor * s) sigmay, map (fun s => wec_factor * s) sigmaz).



End WEC.

(** * Properties *)

Example pyfmt_3f_demo :
  (pyfmt_3f 6, pyfmt_3f (125 # 100), pyfmt_3f (1 # 10), pyfmt_i_num 5)
  = ("6.000", "1.250", "0.100", "5").
Proof. reflexivity. Qed.

Example np_reductions_demo :
  (Np.max [1; 3; 2]%float, Np.min [1; 3; 2]%float, Np.average [1; 3; 2]%float,
   Np.median [1; 3; 2; 5]%float, Np.std [2; 4]%float,
   Np.isnan (Np.average []))
  = (Ok 3%float, Ok 1%float, 2%float, 2.5%float, 1%float, true).
Proof. reflexivity. Qed.

(** ** Properties of the sweep functions *)

Section SweepFacts.
Variable fs : gmap string Np.matrix.

Lemma bind_Done {S A B} (c : M S A) (k : A -> M S B) s a s' :
  c s = Done a s' -> bind c k s = k a s'.
Proof. intros H. unfold bind. rewrite H. reflexivity. Qed.

Lemma bind_Raised {S A B} (c : M S A) (k : A -> M S B) s e s' :
  c s = Raised e s' -> bind c k s = Raised e s'.
Proof. intros H. unfold bind. rewrite H. reflexivity. Qed.

Lemma loadtxt_missing path s :
  fs !! path = None ->
  loadtxt fs path s
  = Raised (OSError path) (Frame (locals s) (trace s ++ [EvLoadtxt path])).
Proof. intros H. unfold loadtxt, bind, emit, raise. rewrite H. reflexivity. Qed.

Lemma loadtxt_found path a s :
  fs !! path = Some a ->
  loadtxt fs path s
  = Done a (Frame (locals s) (trace s ++ [EvLoadtxt path])).
Proof. intros H. unfold loadtxt, bind, emit, ret. rewrite H. reflexivity. Qed.

Lemma assign_cell_spec x i j v s a row :
  locals s !! x = Some (VArr2 a) ->
  a !! i = Some row ->
  (j < length row)%nat ->
  assign_cell x i j v s
  = Done tt (Frame (<[x := VArr2 (<[i := <[j := v]> row]> a)]> (locals s))
                   (trace s)).
Proof.
  intros Hx Hi Hj.
  destruct (lookup_lt_is_Some_2 row j Hj) as [old Hold].
  unfold assign_cell, name_arr2, name, bind, lift, Np.item, ret, assign.
  rewrite Hx, Hi, Hold. reflexivity.
Qed.

Lemma cell_of_assigned x i j v (m : gmap string value) t a row :
  a !! i = Some row ->
  (j < length row)%nat ->
  cell_of (Frame (<[x := VArr2 (<[i := <[j := v]> row]> a)]> m) t) x i j
  = Some v.
Proof.
  intros Hi Hj. unfold cell_of. cbn.
  rewrite lookup_insert_eq.
  rewrite list_lookup_insert_eq by (eapply lookup_lt_Some; eauto).
  apply list_lookup_insert_eq, Hj.
Qed.

Lemma cell_of_other x y i j v (m : gmap string value) t :
  x <> y ->
  cell_of (Frame (<[x := v]> m) t) y i j = cell_of (Frame m t) y i j.
Proof.
  intros Hne. unfold cell_of. cbn. rewrite lookup_insert_ne by done.
  reflexivity.
Qed.

(** The [except] path of one cell, for any swept value whose table cannot
    be loaded: no exception leaves the cell, the maximum, minimum, median
    and deviation arrays receive not-a-number there, and the array of
    means is not written. *)
Lemma sweep_cell_missing metric i j path s amax amin amed astd
    (r1 r2 r3 r4 : list float) :
  fs !! path = None ->
  locals s !! "max_aepi" = Some (VArr2 amax) ->
  locals s !! "min_aepi" = Some (VArr2 amin) ->
  locals s !! "med_aepi" = Some (VArr2 amed) ->
  locals s !! "std_aepi" = Some (VArr2 astd) ->
  amax !! i = Some r1 -> amin !! i = Some r2 ->
  amed !! i = Some r3 -> astd !! i = Some r4 ->
  (j < length r1)%nat -> (j < length r2)%nat ->
  (j < length r3)%nat -> (j < length r4)%nat ->
  exists s',
    Sweep.sweep_cell fs metric i j path s = Done tt s'
    /\ trace s' = (trace s ++ [EvLoadtxt path])%list
    /\ cell_of s' "max_aepi" i j = Some nan
    /\ cell_of s' "min_aepi" i j = Some nan
    /\ cell_of s' "med_aepi" i j = Some nan
    /\ cell_of s' "std_aepi" i j = Some nan
    /\ locals s' !! "mean_aepi" = locals s !! "mean_aepi".
Proof.
  intros Hfs Hmax Hmin Hmed Hstd H1 H2 H3 H4 L1 L2 L3 L4.
  set (s0 := Frame (locals s) (trace s ++ [EvLoadtxt path])%list).
  unfold Sweep.sweep_cell, Sweep.missing_data.
  erewrite bind_Done; cycle 1.
  { unfold try_except.
    erewrite bind_Raised by (apply loadtxt_missing, Hfs).
    fold s0.
    erewrite bind_Done; [reflexivity |].
    erewrite bind_Done by (by apply (assign_cell_spec "max_aepi" i j py_None s0 amax r1)).
    erewrite bind_Done.
    2:{ eapply (assign_cell_spec "min_aepi" i j py_None _ amin r2); [| done | done].
        cbn. rewrite lookup_insert_ne by done. exact Hmin. }
    erewrite bind_Done.
    2:{ eapply (assign_cell_spec "med_aepi" i j py_None _ amed r3); [| done | done].
        cbn. rewrite !lookup_insert_ne by done. exact Hmed. }
    eapply (assign_cell_spec "std_aepi" i j py_None _ astd r4); [| done | done].
    cbn. rewrite !lookup_insert_ne by done. exact Hstd. }
  cbn [locals trace ret].
  eexists. split; [reflexivity |]. cbn [locals trace].
  split; [reflexivity |].
  repeat split.
  - rewrite !cell_of_other by done. by apply cell_of_assigned.
  - rewrite !cell_of_other by done. by apply cell_of_assigned.
  - rewrite !cell_of_other by done. by apply cell_of_assigned.
  - by apply cell_of_assigned.
  - rewrite !lookup_insert_ne by done. reflexivity.
Qed.

End SweepFacts.

(** C1 (evaluated on the code): with only the baseline tables on disk,
    each a table of two runs, each of the five sweep functions runs to the
    end of its double loop without raising.  In the cell of approach 1,
    value 0, whose table is missing, the maximum, minimum, median and
    deviation arrays hold not-a-number, but the array of means still holds
    its initial 0.0, which is a number: the [except] block never writes
    [mean_aepi]. *)
Theorem sweep_missing_table_mean_not_nan :
  Forall (fun f : gmap string Np.matrix -> Z -> M frame unit =>
            let o := f baselines_only 38%Z empty_frame in
            raised o = None
            /\ cell_of (final_state o) "max_aepi" 1 0 = Some nan
            /\ cell_of (final_state o) "min_aepi" 1 0 = Some nan
            /\ cell_of (final_state o) "med_aepi" 1 0 = Some nan
            /\ cell_of (final_state o) "std_aepi" 1 0 = Some nan
            /\ cell_of (final_state o) "mean_aepi" 1 0 = Some 0%float
            /\ Np.isnan 0 = false)
         sweep_functions.
Proof.
  unfold sweep_functions.
  repeat (constructor; [vm_compute; repeat split; reflexivity |]).
  constructor.
Qed.

(** The cells whose tables do load receive numbers in all five arrays:
    here the baseline table itself, which is also a swept cell. *)
Example sweep_loaded_cell_has_numbers :
  let s := final_state (Sweep.plot_wec_nstep_results baselines_only 38%Z
                          empty_frame) in
  map (fun x => cell_of s x 0 8)
      ["max_aepi"; "min_aepi"; "mean_aepi"; "med_aepi"; "std_aepi"]
  = [Some 75; Some 50; Some 62.5; Some 62.5; Some 12.5]%float.
Proof. vm_compute. reflexivity. Qed.

(** C8: for every turbine count other than 38, the guard of
    [plot_max_wec_results] only builds the [ValueError] object: the guard
    finishes normally, no local variable is bound by it, and the function
    then fails at the first use of [rdir], in the baseline load, with an
    unbound-local error and before any table is read. *)
Theorem plot_max_wec_results_guard_never_raises
    (fs : gmap string Np.matrix) (nturbs : Z) :
  nturbs <> 38%Z ->
  let built := EvBuild (ValueError
    ("please include results for " ++ pyfmt_i nturbs
     ++ " turbines before rerunning the plotting script")) in
  Sweep.unsupported_guard nturbs empty_frame = Done tt (Frame ∅ [built])
  /\ Sweep.plot_max_wec_results fs nturbs empty_frame
     = Raised (UnboundLocalError "rdir") (Frame ∅ [built])
  /\ Forall (fun x => (∅ : gmap string value) !! x = None)
       ["rdir"; "wadirp"; "wddirp"; "whdirp"; "approaches"; "bfilename";
        "max_wec_ranges"; "max_aepi"; "min_aepi"; "med_aepi"; "mean_aepi";
        "std_aepi"].
Proof.
  intros Hne. apply Z.eqb_neq in Hne.
  split; [reflexivity |]. split.
  - unfold Sweep.plot_max_wec_results. rewrite Hne. reflexivity.
  - repeat constructor.
Qed.

Lemma plot_max_wec_results_guard_never_raises_witness :
  16%Z <> 38%Z
  /\ Sweep.plot_max_wec_results baselines_only 16 empty_frame
     = Raised (UnboundLocalError "rdir")
         (Frame ∅ [EvBuild (ValueError
            "please include results for 16 turbines before rerunning the plotting script")]).
Proof.
  split; [lia |].
  apply (plot_max_wec_results_guard_never_raises baselines_only 16); lia.
Defined.

(** *** Which argument combinations are rejected *)

Section ConvergenceFacts.
Import Convergence.
Variable tfs : gmap string string.

Lemma bind_raised_l {S A B} (c : M S A) (k : A -> M S B) s e :
  raised (c s) = Some e -> bind c k s = Raised e (final_state (c s)).
Proof.
  unfold bind. destruct (c s); cbn; intros H; [discriminate | congruence].
Qed.

Lemma select_case_rejects wakemodel nturbs ndirs s :
  wakemodel <> "BPA" ->
  recognized wakemodel nturbs ndirs = false ->
  raised (select_case wakemodel nturbs ndirs s) = Some invalid_case
  /\ trace (final_state (select_case wakemodel nturbs ndirs s)) = trace s.
Proof.
  intros Hbpa Hrec.
  apply String.eqb_neq in Hbpa.
  unfold recognized, existsb in Hrec. rewrite Hbpa in Hrec.
  rewrite !andb_false_l, !orb_false_l, orb_false_r in Hrec.
  unfold select_case. rewrite Hbpa.
  destruct (String.eqb wakemodel "JENSEN") eqn:Hj.
  - rewrite andb_true_l in Hrec.
    destruct (nturbs =? 38)%Z eqn:Hn.
    + rewrite andb_true_l in Hrec. rewrite Hrec.
      cbv beta iota delta [bind assign raise raised final_state trace].
      split; reflexivity.
    + cbv beta iota delta [bind assign raise raised final_state trace].
      split; reflexivity.
  - cbv beta iota delta [raise raised final_state trace].
    split; reflexivity.
Qed.

Lemma final_state_Raised {S A} (e : exn) (s : S) :
  final_state (Raised (A := A) e s) = s.
Proof. reflexivity. Qed.

Lemma bind_assign {B} x v (k : unit -> M frame B) s :
  bind (assign x v) k s = k tt (Frame (<[x := v]> (locals s)) (trace s)).
Proof. reflexivity. Qed.

Lemma setup_rejects wakemodel nturbs ndirs :
  wakemodel <> "BPA" ->
  recognized wakemodel nturbs ndirs = false ->
  raised (setup wakemodel nturbs ndirs empty_frame) = Some invalid_case
  /\ trace (final_state (setup wakemodel nturbs ndirs empty_frame)) = [].
Proof.
  intros Hbpa Hrec. unfold setup.
  repeat (rewrite bind_assign; cbv beta).
  match goal with
  | |- context [bind (select_case _ _ _) _ ?s0] =>
      destruct (select_case_rejects wakemodel nturbs ndirs s0 Hbpa Hrec)
        as [Hr Ht];
      rewrite (bind_raised_l _ _ _ _ Hr)
  end.
  split; [reflexivity |].
  rewrite final_state_Raised, Ht. reflexivity.
Qed.

(** Outside the BPA wake model every unrecognized combination is
    rejected with the configuration error, before any file is opened. *)
Lemma non_bpa_unrecognized_rejected wakemodel nturbs ndirs :
  wakemodel <> "BPA" ->
  recognized wakemodel nturbs ndirs = false ->
  let o := plot_convergence_history tfs wakemodel nturbs ndirs
             empty_frame in
  raised o = Some invalid_case /\ opens (trace (final_state o)) = [].
Proof.
  intros Hbpa Hrec o. subst o.
  destruct (setup_rejects wakemodel nturbs ndirs Hbpa Hrec) as [Hr Ht].
  unfold plot_convergence_history.
  rewrite (bind_raised_l _ _ _ _ Hr).
  split; [reflexivity |].
  rewrite final_state_Raised, Ht. reflexivity.
Qed.

Lemma open_text_opens p s :
  opens (trace (final_state (open_text tfs p s)))
  = (opens (trace s) ++ [p])%list.
Proof.
  unfold open_text, bind, emit.
  destruct (tfs !! p); cbv beta iota delta [ret raise final_state trace];
    unfold opens; rewrite omap_app; reflexivity.
Qed.

(** The five recognized case studies pass the selection and reach the
    first input file. *)
Lemma recognized_reach_input wakemodel nturbs ndirs :
  recognized wakemodel nturbs ndirs = true ->
  exists p,
    opens (trace (final_state
      (plot_convergence_history tfs wakemodel nturbs ndirs empty_frame)))
    = [p].
Proof.
  unfold recognized, existsb. rewrite orb_false_r.
  intros H.
  assert (Hsetup : exists p s, setup wakemodel nturbs ndirs empty_frame
                               = Done p s /\ opens (trace s) = []).
  { repeat (apply orb_prop in H; destruct H as [H | H]);
      apply andb_prop in H; destruct H as [H Hd];
      apply andb_prop in H; destruct H as [Hw Hn];
      apply String.eqb_eq in Hw; apply Z.eqb_eq in Hn, Hd; subst;
      eexists _, _; (split; [vm_compute; reflexivity | reflexivity]). }
  destruct Hsetup as (p & s & Hs & Ht).
  exists p. unfold plot_convergence_history.
  erewrite bind_Done by exact Hs.
  rewrite open_text_opens, Ht. reflexivity.
Qed.

End ConvergenceFacts.

(** C2 (evaluated on the code): the BPA branch has no [else].  For the
    unrecognized combination (BPA, 60, 12) the selection binds the values of
    the 60-turbine case, no exception is raised, and the function goes on to
    open a convergence history under a directory named after the arguments;
    when that file exists the call passes the selection silently.  For
    (BPA, 9, 20) nothing is bound and the failure is an unbound [date], not
    the configuration error.  The JENSEN branch does reject its
    unrecognized combinations. *)
Theorem plot_convergence_history_bpa_unguarded :
  let p := "./image_data/opt_results/20200824-60-turbs-12-dir-fcall-and-conv-history/snopt/convergence_histories.txt" in
  let present : gmap string string := {[ p := "" ]} in
  let run tfs w n d :=
    Convergence.plot_convergence_history tfs w n d empty_frame in
  Convergence.recognized "BPA" 60 12 = false
  /\ raised (run present "BPA" 60%Z 12%Z) = None
  /\ Convergence.opens (trace (final_state (run present "BPA" 60%Z 12%Z)))
     = [p]
  /\ raised (run ∅ "BPA" 60%Z 12%Z) = Some (OSError p)
  /\ Convergence.recognized "BPA" 9 20 = false
  /\ raised (run ∅ "BPA" 9%Z 20%Z) = Some (UnboundLocalError "date")
  /\ raised (run ∅ "JENSEN" 38%Z 36%Z) = Some Convergence.invalid_case.
Proof. vm_compute. repeat split; reflexivity. Qed.

(** The per-run totals add the function and sensitivity calls of all rows
    with the run's identifier, and the plain-SNOPT sample keeps the runs
    whose own total is positive. *)
Example plot_optimization_results_snopt_sample :
  let s := final_state
             (Stats.plot_optimization_results case16 16 "BPA" false
                empty_frame) in
  let tmax := (5191363.5933961 * 16)%float in
  local_arr s "snw_ctfcalls" = Some [14; 10]%float
  /\ local_arr s "swd_ctfcalls" = Some [10; 0]%float
  /\ Ok <$> local_arr s "snw_run_wake_loss"
     = Some (Stats.own_runs_wake_loss tmax [120; 130]%float [14; 10]%float).
Proof. vm_compute. repeat split; reflexivity. Qed.

(** C3 (evaluated on the code): the SNOPT+WEC-D sample is selected with the
    call totals of the plain-SNOPT runs.  On [case16] run 1 of SNOPT+WEC-D
    recorded no evaluation, yet it is kept in that algorithm's wake-loss
    sample because run 1 of plain SNOPT has 10 calls; selecting by the
    algorithm's own totals would keep run 0 only. *)
Theorem plot_optimization_results_wecd_mask :
  let o := Stats.plot_optimization_results case16 16 "BPA" false
             empty_frame in
  let tmax := (5191363.5933961 * 16)%float in
  raised o = None
  /\ local_arr (final_state o) "swd_ctfcalls" = Some [10; 0]%float
  /\ local_arr (final_state o) "swd_run_wake_loss"
     = Some (Stats.wake_loss tmax [125; 135]%float)
  /\ Stats.own_runs_wake_loss tmax [125; 135]%float [10; 0]%float
     = Ok (Stats.wake_loss tmax [125]%float)
  /\ Stats.wake_loss tmax [125; 135]%float
     <> Stats.wake_loss tmax [125]%float.
Proof.
  vm_compute. repeat split; try reflexivity.
  intros H. discriminate H.
Qed.

(** C4 (evaluated on the code): [sr_tscalls] is read from the function-call
    column, so the relaxation sample is twice the function calls of the
    converged rows.  On [case38] the converged row has 10 function and 4
    sensitivity calls: the documented sample is [14], the code prints the
    statistics of [20]. *)
Theorem get_statistics_38_turbs_call_sample :
  let o := Stats38.get_statistics_38_turbs case38 empty_frame in
  raised o = None
  /\ Stats38.converged_total_calls relax_table = Ok [14]%float
  /\ local_arr (final_state o) "sr_sample" = Some [20]%float
  /\ firstn 5 (Stats38.printed "snopt relax" (trace (final_state o)))
     = [("snopt relax med fcalls", 20); ("snopt relax ave fcalls", 20);
        ("snopt relax std fcalls", 0); ("snopt relax low fcalls", 20);
        ("snopt relax high fcalls", 20)]%float
  /\ Stats38.call_stats [14]%float = Ok [14; 14; 0; 14; 14]%float.
Proof. vm_compute. repeat split; reflexivity. Qed.

Example parse_alpso_files_demo :
  let log := "NUMBER OF OBJECTIVE FUNCTION EVALUATIONS: 150" ++ lf
             ++ "	F = -12345.6789" ++ lf
             ++ "EVALUATIONS: 7" ++ lf ++ "EVALUATIONS: -42 F = -" ++ lf in
  (Re.objective log, Re.evaluations log)
  = (["12345.6789"; ""], ["150"; "-42"]).
Proof. vm_compute. reflexivity. Qed.

(** *** Facts about the scans *)

Section ScanFacts.
Import Re.

Lemma take_while_split p s :
  exists rest, s = (take_while p s ++ rest)%list
               /\ Forall (fun c => p c = true) (take_while p s)
               /\ (rest = [] \/ exists c r, rest = c :: r /\ p c = false).
Proof.
  induction s as [| c s IH]; cbn.
  - exists []. repeat split; [constructor | left; reflexivity].
  - destruct (p c) eqn:Hc.
    + destruct IH as (rest & E & F & T).
      exists rest. repeat split; [cbn; congruence | by constructor | exact T].
    + exists (c :: s). repeat split; [constructor |].
      right. by exists c, s.
Qed.

Lemma take_while_exact p ds rest :
  Forall (fun c => p c = true) ds ->
  (rest = [] \/ exists c r, rest = c :: r /\ p c = false) ->
  take_while p (ds ++ rest) = ds.
Proof.
  intros F T. induction F as [| d ds Hd F IH]; cbn.
  - destruct T as [-> | (c & r & -> & Hc)]; cbn; [reflexivity |].
    by rewrite Hc.
  - by rewrite Hd, IH.
Qed.

Lemma starts_with_split p s :
  starts_with p s = true -> exists r, s = (p ++ r)%list.
Proof.
  revert s. induction p as [| a p IH]; intros s H; cbn in H.
  - by exists s.
  - destruct s as [| b s]; [discriminate |].
    apply andb_prop in H as [Hab Hp].
    apply Ascii.eqb_eq in Hab. subst b.
    destruct (IH s Hp) as [r ->]. by exists r.
Qed.

Lemma starts_with_app p r : starts_with p (p ++ r) = true.
Proof.
  induction p as [| a p IH]; cbn; [reflexivity |].
  by rewrite Ascii.eqb_refl, IH.
Qed.

Section Generic.
Variable til : list ascii.
Variable body : list ascii -> option (list ascii).

(** Every recorded match starts where the look-behind holds and is
    what the body matches there. *)
Lemma scan_sound s : forall back skip tok,
  In tok (scan til body back skip s) ->
  exists s1 s2, s = (s1 ++ s2)%list
                /\ starts_with til (rev s1 ++ back) = true
                /\ body s2 = Some tok.
Proof.
  induction s as [| c s IH]; intros back skip tok Hin; cbn in Hin.
  - destruct skip; [| contradiction].
    destruct (starts_with til back) eqn:Hs; [| contradiction].
    destruct (body []) eqn:Hb; [| contradiction].
    destruct Hin as [-> | []]. by exists [], [].
  - assert (Hrec : forall k, In tok (scan til body (c :: back) k s) ->
              exists s1 s2, c :: s = (s1 ++ s2)%list
                /\ starts_with til (rev s1 ++ back) = true
                /\ body s2 = Some tok).
    { intros k Hk. destruct (IH _ _ _ Hk) as (s1 & s2 & -> & Hs & Hb).
      exists (c :: s1), s2. repeat split; [| exact Hb].
      cbn [rev]. by rewrite <- app_assoc. }
    destruct skip as [| k]; [| by eapply Hrec].
    destruct (starts_with til back) eqn:Hs; [| by eapply Hrec].
    destruct (body (c :: s)) as [tok0 |] eqn:Hb; [| by eapply Hrec].
    destruct Hin as [-> | Hin]; [| by eapply Hrec].
    by exists [], (c :: s).
Qed.

(** With no recorded text before the scan, a match directly follows an
    occurrence of the literal. *)
Lemma scan_after_literal s tok :
  In tok (scan til body [] 0 s) ->
  exists pre s2, s = (pre ++ rev til ++ s2)%list /\ body s2 = Some tok.
Proof.
  intros Hin. destruct (scan_sound _ _ _ _ Hin) as (s1 & s2 & -> & Hs & Hb).
  rewrite app_nil_r in Hs. apply starts_with_split in Hs as [r Hr].
  exists (rev r), s2. split; [| exact Hb].
  rewrite <- (rev_involutive s1), Hr, rev_app_distr, <- app_assoc.
  reflexivity.
Qed.

(** A text in which the literal does not occur yields no match. *)
Lemma scan_no_literal s :
  (forall pre post, s <> (pre ++ rev til ++ post)%list) ->
  scan til body [] 0 s = [].
Proof.
  intros Hno. destruct (scan til body [] 0 s) as [| tok l] eqn:E;
    [reflexivity |].
  assert (Hin : In tok (scan til body [] 0 s)) by (rewrite E; by left).
  destruct (scan_after_literal _ _ Hin) as (pre & s2 & Hs & _).
  by destruct (Hno pre s2).
Qed.
End Generic.

End ScanFacts.

Section EvaluationsFacts.
Import Re.

Lemma digits_ahead_0 s : digits_ahead 0 s.
Proof. exists [], s. repeat split. constructor. Qed.

Lemma digits_ahead_tail k a s : digits_ahead (S k) (a :: s) -> digits_ahead k s.
Proof.
  intros (ds & rest & E & L & F).
  destruct ds as [| d ds]; [discriminate |].
  injection E as -> ->. inversion F; subst.
  exists ds, rest. repeat split; [by injection L | assumption].
Qed.

Lemma dot_digits_shape s tok :
  dot_digits s = Some tok ->
  exists c ds rest,
    tok = c :: ds /\ s = (c :: ds ++ rest)%list
    /\ not_newline c = true /\ ds <> [] /\ Forall digit ds
    /\ ds = take_while is_digit (ds ++ rest).
Proof.
  destruct s as [| c s]; [discriminate |]. cbn.
  destruct (not_newline c) eqn:Hc; [| discriminate].
  destruct (take_while_split is_digit s) as (rest & E & F & T).
  destruct (take_while is_digit s) as [| d ds] eqn:Hd; [discriminate |].
  intros [= <-]. exists c, (d :: ds), rest.
  repeat split; try done.
  - by rewrite E at 1.
  - by rewrite <- E.
Qed.

Lemma dot_digits_ahead a s tok :
  dot_digits (a :: s) = Some tok -> digits_ahead (length tok - 1) s.
Proof.
  intros H. destruct (dot_digits_shape _ _ H) as (c & ds & rest & -> & E & _ & _ & F & _).
  injection E as -> ->. exists ds, rest.
  repeat split; [cbn; lia | exact F].
Qed.

Lemma dot_digits_match c ds rest :
  not_newline c = true -> ds <> [] -> Forall digit ds ->
  (rest = [] \/ exists d r, rest = d :: r /\ is_digit d = false) ->
  dot_digits (c :: ds ++ rest) = Some (c :: ds).
Proof.
  intros Hc Hne F T. cbn. rewrite Hc, (take_while_exact _ _ _ F T).
  by destruct ds.
Qed.

Lemma scan_step_nomatch til body back c s :
  starts_with til back = false \/ body (c :: s) = None ->
  scan til body back 0 (c :: s) = scan til body (c :: back) 0 s.
Proof.
  intros H. cbn [scan].
  destruct (starts_with til back); [| reflexivity].
  destruct H as [H | H]; [discriminate | by rewrite H].
Qed.

Lemma scan_step_match til body back c s tok :
  starts_with til back = true -> body (c :: s) = Some tok ->
  scan til body back 0 (c :: s)
  = tok :: scan til body (c :: back) (length tok - 1) s.
Proof. intros H1 H2. cbn [scan]. by rewrite H1, H2. Qed.

Lemma dot_digits_nondigit c d s :
  is_digit d = false -> dot_digits (c :: d :: s) = None.
Proof.
  intros H. unfold dot_digits. destruct (not_newline c); [| reflexivity].
  cbn [take_while]. by rewrite H.
Qed.

(** Completeness of the scan for [(?<=EVALUATIONS: ).\d+]: wherever the
    literal is followed by one character of the line and a maximal,
    non-empty run of digits, that token is recorded. *)
Lemma scan_evaluations_complete c ds rest :
  not_newline c = true -> ds <> [] -> Forall digit ds ->
  (rest = [] \/ exists d r, rest = d :: r /\ is_digit d = false) ->
  forall pre back skip,
    digits_ahead skip (pre ++ eval_lit ++ c :: ds ++ rest) ->
    In (c :: ds)
       (scan (rev eval_lit) dot_digits back skip
             (pre ++ eval_lit ++ c :: ds ++ rest)).
Proof.
  intros Hc Hne F T. induction pre as [| a pre IH]; intros back skip A.
  - assert (skip = 0)%nat as ->.
    { destruct A as (ds0 & r0 & E & L & F0).
      destruct ds0 as [| d ds0]; [by rewrite <- L |].
      cbn in E. injection E as <- _. by inversion F0. }
    rewrite app_nil_l. unfold eval_lit.
    cbn [list_ascii_of_string app].
    repeat (rewrite scan_step_nomatch
              by (right; apply dot_digits_nondigit; reflexivity)).
    rewrite scan_step_nomatch by (left; reflexivity).
    rewrite (scan_step_match _ _ _ _ _ (c :: ds));
      [by left | reflexivity | by apply dot_digits_match].
  - cbn [app scan]. destruct skip as [| k].
    + destruct (if starts_with (rev eval_lit) back
                then dot_digits (a :: pre ++ eval_lit ++ c :: ds ++ rest)
                else None) as [tok |] eqn:E.
      * right. apply IH.
        destruct (starts_with (rev eval_lit) back); [| discriminate].
        by eapply dot_digits_ahead.
      * apply IH, digits_ahead_0.
    + apply IH. by eapply digits_ahead_tail.
Qed.

Lemma line_ahead_0 s : line_ahead 0 s.
Proof. exists [], s. repeat split. constructor. Qed.

Lemma line_ahead_tail k a s : line_ahead (S k) (a :: s) -> line_ahead k s.
Proof.
  intros (t & rest & E & L & F).
  destruct t as [| d t]; [discriminate |].
  injection E as -> ->. inversion F; subst.
  exists t, rest. repeat split; [by injection L | assumption].
Qed.

Lemma dot_star_ahead a s tok :
  dot_star (a :: s) = Some tok -> line_ahead (length tok - 1) s.
Proof.
  unfold dot_star. intros [= <-]. cbn [take_while].
  destruct (not_newline a); [| apply line_ahead_0].
  destruct (take_while_split not_newline s) as (rest & E & F & _).
  exists (take_while not_newline s), rest.
  repeat split; [exact E | cbn; lia | exact F].
Qed.

Lemma dot_star_match t rest :
  Forall on_line t -> ends_line rest -> dot_star (t ++ rest) = Some t.
Proof. intros F T. unfold dot_star. by rewrite (take_while_exact _ _ _ F T). Qed.

(** Up to the end of a line: whatever was matched before, the scan is
    not skipping any more once the line feed has been read. *)
Lemma scan_objective_line til s : forall pre back skip,
  line_ahead skip (pre ++ newline :: s) ->
  exists toks,
    scan til dot_star back skip (pre ++ newline :: s)
    = (toks ++ scan til dot_star (newline :: rev pre ++ back) 0 s)%list.
Proof.
  induction pre as [| a pre IH]; intros back skip A.
  - assert (skip = 0)%nat as ->.
    { destruct A as (t0 & r0 & E & L & F0).
      destruct t0 as [| d t0]; [by rewrite <- L |].
      cbn in E. injection E as <- _. by inversion F0. }
    cbn [app rev scan].
    destruct (starts_with til back).
    + exists [[]]. reflexivity.
    + exists []. reflexivity.
  - assert (Hback : forall k toks,
              scan til dot_star (a :: back) k (pre ++ newline :: s)
              = (toks ++ scan til dot_star
                           (newline :: rev pre ++ a :: back) 0 s)%list ->
              (toks ++ scan til dot_star
                         (newline :: rev (a :: pre) ++ back) 0 s)%list
              = (toks ++ scan til dot_star
                           (newline :: rev pre ++ a :: back) 0 s)%list).
    { intros _ toks _. cbn [rev]. by rewrite <- app_assoc. }
    cbn [app scan]. destruct skip as [| k].
    + destruct (if starts_with til back
                then dot_star (a :: pre ++ newline :: s)
                else None) as [tok |] eqn:E.
      * destruct (IH (a :: back) (length tok - 1)) as [toks Ht].
        { destruct (starts_with til back); [| discriminate].
          by eapply dot_star_ahead. }
        exists (tok :: toks). rewrite Ht.
        cbn [rev app]. by rewrite <- !app_assoc.
      * destruct (IH (a :: back) 0%nat (line_ahead_0 _)) as [toks Ht].
        exists toks. rewrite Ht. cbn [rev]. by rewrite <- app_assoc.
    + destruct (IH (a :: back) k) as [toks Ht];
        [by eapply line_ahead_tail |].
      exists toks. rewrite Ht. cbn [rev]. by rewrite <- app_assoc.
Qed.

(** After a line start, the look-behind for "F = -" holds only where the
    text read since then ends with the literal. *)
Lemma lookbehind_suffix u back :
  line_start back ->
  starts_with (rev obj_lit) (rev u ++ back) = true ->
  exists u', u = (u' ++ obj_lit)%list.
Proof.
  intros Hb H. apply starts_with_split in H as [r Hr].
  destruct Hb as [-> | [b ->]].
  - rewrite app_nil_r in Hr. exists (rev r).
    by rewrite <- (rev_involutive u), Hr, rev_app_distr, rev_involutive.
  - apply app_eq_app in Hr as [l [[Hu _] | [Hl Hn]]].
    + exists (rev l).
      by rewrite <- (rev_involutive u), Hu, rev_app_distr, rev_involutive.
    + destruct l as [| c l].
      * exists []. rewrite app_nil_r in Hl.
        by rewrite <- (rev_involutive u), <- Hl, rev_involutive.
      * injection Hn as <- _.
        assert (Hin : In newline (rev obj_lit))
          by (rewrite Hl; apply in_or_app; right; by left).
        exfalso. cbn in Hin. intuition discriminate.
Qed.

(** Over text at whose positions the look-behind fails nothing is
    recorded. *)
Lemma scan_no_lookbehind til body s : forall z back,
  (forall u v, z = (u ++ v)%list -> v <> [] ->
     starts_with til (rev u ++ back) = false) ->
  scan til body back 0 (z ++ s) = scan til body (rev z ++ back) 0 s.
Proof.
  induction z as [| a z IH]; intros back H; [reflexivity |].
  cbn [app]. rewrite scan_step_nomatch by (left; by apply (H [] (a :: z))).
  rewrite IH.
  - cbn [rev]. by rewrite <- app_assoc.
  - intros u v -> Hv. specialize (H (a :: u) v eq_refl Hv).
    cbn [rev] in H. by rewrite <- app_assoc in H.
Qed.

(** At the first occurrence of the literal after a line start. *)
Lemma scan_objective_here w t rest back :
  line_start back -> first_on_line w ->
  Forall on_line t -> ends_line rest ->
  In t (scan (rev obj_lit) dot_star back 0 (w ++ obj_lit ++ t ++ rest)).
Proof.
  intros Hb Hw F T. rewrite app_assoc, scan_no_lookbehind.
  - assert (Hlook : starts_with (rev obj_lit) (rev (w ++ obj_lit) ++ back)
                    = true)
      by (rewrite rev_app_distr, <- app_assoc; apply starts_with_app).
    pose proof (dot_star_match t rest F T) as Hm.
    destruct (t ++ rest)%list as [| c s] eqn:E.
    + cbn [scan]. rewrite Hlook, Hm. by left.
    + rewrite (scan_step_match _ _ _ _ _ t); [by left | exact Hlook | exact Hm].
  - intros u v Huv Hv.
    destruct (starts_with _ _) eqn:Hs; [| reflexivity].
    destruct (lookbehind_suffix _ _ Hb Hs) as [u' Hu'].
    by destruct (Hw u v u' Huv Hv).
Qed.

(** Completeness of the scan for [(?<=F = -).*]: the first occurrence of
    the literal after a line start yields the rest of its line. *)
Lemma scan_objective_complete pre w t rest :
  pre = [] \/ (exists pre', pre = (pre' ++ [newline])%list) ->
  first_on_line w ->
  Forall on_line t -> ends_line rest ->
  In t (scan (rev obj_lit) dot_star [] 0
             (pre ++ w ++ obj_lit ++ t ++ rest)).
Proof.
  intros [-> | [pre' ->]] Hw Ft T.
  - rewrite app_nil_l. apply scan_objective_here; try done. by left.
  - rewrite <- app_assoc. cbn [app].
    destruct (scan_objective_line (rev obj_lit)
                (w ++ obj_lit ++ t ++ rest) pre' [] 0%nat
                (line_ahead_0 _)) as [toks ->].
    apply in_or_app. right.
    apply scan_objective_here; try done. right. by eexists.
Qed.

End EvaluationsFacts.

(** *** What [parse_alpso_files] returns *)

Lemma in_findall lit body text tok :
  In tok (Re.findall lit body text) ->
  In (list_ascii_of_string tok)
     (Re.scan (rev (list_ascii_of_string lit)) body [] 0
              (list_ascii_of_string text)).
Proof.
  unfold Re.findall. intros H. apply in_map_iff in H as (l & <- & Hl).
  by rewrite list_ascii_of_string_of_list_ascii.
Qed.

Lemma findall_in lit body text l :
  In l (Re.scan (rev (list_ascii_of_string lit)) body [] 0
                (list_ascii_of_string text)) ->
  In (string_of_list_ascii l) (Re.findall lit body text).
Proof. unfold Re.findall. apply in_map. Qed.

Lemma parse_alpso_files_reads tfs filename text s :
  tfs !! filename = Some text ->
  parse_alpso_files tfs filename s
  = Done (Re.objective text, Re.evaluations text)
         (Frame (locals s)
                (trace s ++ [EvOpen filename; EvOpen filename])).
Proof.
  intros H. unfold parse_alpso_files, Convergence.open_text, bind, emit, ret.
  rewrite H. cbv beta iota delta [locals trace].
  by rewrite <- app_assoc.
Qed.

(** C6, as the code has it: for a readable file the function returns the
    pair (objective tokens, evaluation tokens).  An evaluation token is one
    character of the line followed by at least one digit, found directly
    after "EVALUATIONS: ", and every such occurrence closed by a non-digit
    is returned; an objective token is the rest of a line directly after
    "F = -", and the first such occurrence after a line start is
    returned.  A text with no occurrence of a literal gives the empty
    list for it. *)
Theorem parse_alpso_files_tokens
    (tfs : gmap string string) (filename text : string) (s : frame) :
  tfs !! filename = Some text ->
  let chars := list_ascii_of_string text in
  raised (parse_alpso_files tfs filename s) = None
  /\ (exists s', parse_alpso_files tfs filename s
                 = Done (Re.objective text, Re.evaluations text) s')
  /\ (forall tok, In tok (Re.evaluations text) ->
        exists pre c ds post,
          list_ascii_of_string tok = c :: ds
          /\ c <> Re.newline /\ ds <> [] /\ Forall digit ds
          /\ chars = (pre ++ eval_lit ++ (c :: ds) ++ post)%list)
  /\ (forall pre c ds post,
        chars = (pre ++ eval_lit ++ (c :: ds) ++ post)%list ->
        c <> Re.newline -> ds <> [] -> Forall digit ds ->
        (post = [] \/ exists d r, post = d :: r /\ Re.is_digit d = false) ->
        In (string_of_list_ascii (c :: ds)) (Re.evaluations text))
  /\ (forall tok, In tok (Re.objective text) ->
        Forall on_line (list_ascii_of_string tok)
        /\ exists pre post,
             chars = (pre ++ obj_lit ++ list_ascii_of_string tok ++ post)%list
             /\ ends_line post)
  /\ (forall pre w t post,
        chars = (pre ++ w ++ obj_lit ++ t ++ post)%list ->
        pre = [] \/ (exists pre', pre = (pre' ++ [Re.newline])%list) ->
        first_on_line w ->
        Forall on_line t -> ends_line post ->
        In (string_of_list_ascii t) (Re.objective text))
  /\ ((forall pre post, chars <> (pre ++ eval_lit ++ post)%list) ->
      Re.evaluations text = [])
  /\ ((forall pre post, chars <> (pre ++ obj_lit ++ post)%list) ->
      Re.objective text = []).
Proof.
  intros Hfile chars.
  rewrite (parse_alpso_files_reads _ _ _ _ Hfile).
  split; [reflexivity |]. split; [by eexists |].
  split; [| split; [| split; [| split; [| split]]]].
  - intros tok Hin. apply in_findall in Hin.
    apply scan_after_literal in Hin as (pre & s2 & Hs & Hb).
    apply dot_digits_shape in Hb as (c & ds & rest & Ht & -> & Hc & Hne & F & _).
    exists pre, c, ds, rest. rewrite rev_involutive in Hs.
    repeat split; try done.
    intros ->. discriminate Hc.
  - intros pre c ds post Hs Hc Hne F T.
    apply findall_in. fold chars. rewrite Hs.
    change ((c :: ds) ++ post)%list with (c :: ds ++ post)%list.
    apply scan_evaluations_complete; try done.
    + unfold Re.not_newline. apply Ascii.eqb_neq in Hc. by rewrite Hc.
    + apply digits_ahead_0.
  - intros tok Hin. apply in_findall in Hin.
    apply scan_after_literal in Hin as (pre & s2 & Hs & Hb).
    rewrite rev_involutive in Hs.
    unfold Re.dot_star in Hb. injection Hb as Hb.
    destruct (take_while_split Re.not_newline s2) as (rest & E & F & T).
    rewrite Hb in E, F. split; [exact F |].
    exists pre, rest. split; [by rewrite <- E | exact T].
  - intros pre w t post Hs Hp Fw Ft T.
    apply findall_in. fold chars. rewrite Hs.
    by apply scan_objective_complete.
  - intros Hno. unfold Re.evaluations, Re.findall.
    rewrite scan_no_literal; [reflexivity |].
    by rewrite rev_involutive.
  - intros Hno. unfold Re.objective, Re.findall.
    rewrite scan_no_literal; [reflexivity |].
    by rewrite rev_involutive.
Qed.

Lemma first_on_line_nil : first_on_line [].
Proof.
  intros u v u' E Hv ->. apply (f_equal (@length ascii)) in E.
  rewrite !length_app in E. destruct v; [done |]. cbn in E. lia.
Qed.

Lemma parse_alpso_files_tokens_witness :
  let text := "EVALUATIONS: 150" ++ lf ++ "F = -12345.6789" ++ lf in
  two_line_log !! "run.out" = Some text
  /\ (exists s', parse_alpso_files two_line_log "run.out" empty_frame
                 = Done (["12345.6789"], ["150"]) s')
  /\ In "150" (Re.evaluations text)
  /\ In "12345.6789" (Re.objective text).
Proof.
  intros text.
  pose proof (parse_alpso_files_tokens two_line_log "run.out" text
                empty_frame eq_refl) as (_ & Hd & _ & He & _ & Ho & _).
  split; [reflexivity |]. split; [exact Hd |]. split.
  - apply (He [] "1"%char (list_ascii_of_string "50")
              (list_ascii_of_string (lf ++ "F = -12345.6789" ++ lf)));
      [reflexivity | discriminate | discriminate | repeat constructor |].
    right. eexists _, _. split; reflexivity.
  - apply (Ho (list_ascii_of_string ("EVALUATIONS: 150" ++ lf)) []
              (list_ascii_of_string "12345.6789") [Re.newline]);
      [reflexivity | | apply first_on_line_nil | repeat constructor |].
    + right. exists (list_ascii_of_string "EVALUATIONS: 150"). reflexivity.
    + right. eexists _, _. split; reflexivity.
Defined.

(** A log without either pattern gives two empty lists, not an error. *)
Example parse_alpso_files_no_match :
  parse_alpso_files {[ "run.out" := "ALPSO finished" ++ lf ]} "run.out"
    empty_frame
  = Done ([], []) (Frame ∅ [EvOpen "run.out"; EvOpen "run.out"]).
Proof. vm_compute. reflexivity. Qed.

(** C6 as stated fails for a one-digit count and for an objective line
    with trailing text: in the log line "EVALUATIONS: 7" the integer 7
    follows the literal, but [.\d+] needs two characters, so nothing is
    extracted; and after "F = -" the whole rest of the line is taken, not
    the numeric token alone. *)
Lemma parse_alpso_files_one_digit_count :
  let text := "EVALUATIONS: 7" ++ lf ++ "F = -1.5 (best)" ++ lf in
  let log : gmap string string := {[ "run.out" := text ]} in
  (exists s', parse_alpso_files log "run.out" empty_frame
              = Done (["1.5 (best)"], []) s')
  /\ ~ In "7" (Re.evaluations text)
  /\ ~ In "1.5" (Re.objective text).
Proof.
  split; [eexists; vm_compute; reflexivity |].
  split; vm_compute; intuition discriminate.
Qed.

Example alpso_paths :
  (Alpso.datafile (16, 20, "directional")%Z 5, map Alpso.image Alpso.cases)
  = ("./image_data/alpso-tuning/ALPSO_summary_multistart_16turbs_directionalWindRose_20dirs_BPAModel_RunID0_TItype4_II5_print.out",
     ["./images/alpso_test_16turbs_20dirs.pdf";
      "./images/alpso_test_38turbs_12dirs.pdf";
      "./images/alpso_test_38turbs_36dirs.pdf";
      "./images/alpso_test_60turbs_72dirs.pdf"]).
Proof. reflexivity. Qed.

(** *** The [filename] argument has no effect *)

Section AlpsoFacts.
Import Alpso.
Variable asfarray : list string -> res (list float).
Variable tfs : gmap string string.

Lemma blind_ret {A} (a : A) : blind (ret a).
Proof. intros s1 s2 H. by split. Qed.

Lemma blind_raise {A} e : blind (raise (A := A) e).
Proof. intros s1 s2 H. by split. Qed.

Lemma blind_lift {A} (r : res A) : blind (lift r).
Proof. destruct r; [apply blind_ret | apply blind_raise]. Qed.

Lemma blind_emit ev : blind (emit ev).
Proof. intros s1 s2 H. split; [done |]. cbn. by rewrite H. Qed.

Lemma blind_assign x v : blind (assign x v).
Proof. intros s1 s2 H. by split. Qed.

Lemma blind_bind {A B} (c : M frame A) (k : A -> M frame B) :
  blind c -> (forall a, blind (k a)) -> blind (bind c k).
Proof.
  intros Hc Hk s1 s2 H. unfold bind. specialize (Hc s1 s2 H).
  destruct (c s1) as [a t1 | e t1], (c s2) as [b t2 | e' t2];
    cbn in Hc; try done.
  destruct Hc as [-> Ht]. by apply Hk.
Qed.

Lemma blind_for_each {A} (xs : list A) (body : A -> M frame unit) :
  (forall x, blind (body x)) -> blind (for_each xs body).
Proof.
  intros Hb. induction xs as [| x xs IH]; cbn [for_each].
  - apply blind_ret.
  - apply blind_bind; [apply Hb | intros _; exact IH].
Qed.

Lemma blind_open_text p : blind (Convergence.open_text tfs p).
Proof.
  unfold Convergence.open_text. apply blind_bind; [apply blind_emit |].
  intros _. destruct (tfs !! p); [apply blind_ret | apply blind_raise].
Qed.

Lemma blind_parse p : blind (parse_alpso_files tfs p).
Proof.
  unfold parse_alpso_files.
  apply blind_bind; [apply blind_open_text | intros text].
  apply blind_bind; [apply blind_open_text | intros text'].
  apply blind_ret.
Qed.

Lemma blind_plot_curve case ii : blind (plot_curve asfarray tfs case ii).
Proof.
  unfold plot_curve.
  apply blind_bind; [apply blind_parse | intros r].
  apply blind_bind; [apply blind_lift | intros obj].
  apply blind_bind; [apply blind_lift | intros fcalls].
  destruct (_ =? _)%nat; [apply blind_emit | apply blind_raise].
Qed.

Lemma save_chart_spec case s :
  save_chart case s
  = Done tt (Frame (<["filename" := VStr (image case)]> (locals s))
                   (trace s ++ [EvSavefig (image case)])).
Proof.
  unfold save_chart, name_str, name, bind, assign, emit, ret.
  cbn [locals trace]. by rewrite lookup_insert_eq.
Qed.

Lemma blind_save_chart case : blind (save_chart case).
Proof.
  intros s1 s2 H. rewrite !save_chart_spec. split; [done |].
  cbn. by rewrite H.
Qed.

Lemma blind_chart save_figs show_figs case :
  blind (chart asfarray tfs save_figs show_figs case).
Proof.
  unfold chart.
  apply blind_bind; [apply blind_emit | intros _].
  apply blind_bind;
    [apply blind_for_each; intros ii; apply blind_plot_curve | intros _].
  apply blind_bind.
  - destruct save_figs; [apply blind_save_chart | apply blind_ret].
  - intros _. destruct show_figs; [apply blind_emit | apply blind_ret].
Qed.

Lemma saveless_ret {A} (a : A) : saveless (ret a).
Proof. by intros s. Qed.

Lemma saveless_raise {A} e : saveless (raise (A := A) e).
Proof. by intros s. Qed.

Lemma saveless_emit ev :
  (forall p, ev <> EvSavefig p) -> saveless (emit ev).
Proof.
  intros Hev s. cbn. unfold saves. rewrite omap_app. cbn.
  destruct ev; try by rewrite app_nil_r. by destruct (Hev path).
Qed.

Lemma saveless_bind {A B} (c : M frame A) (k : A -> M frame B) :
  saveless c -> (forall a, saveless (k a)) -> saveless (bind c k).
Proof.
  intros Hc Hk s. unfold bind. specialize (Hc s).
  destruct (c s) as [a t | e t]; cbn in Hc |- *; [| exact Hc].
  by rewrite Hk.
Qed.

Lemma saveless_for_each {A} (xs : list A) (body : A -> M frame unit) :
  (forall x, saveless (body x)) -> saveless (for_each xs body).
Proof.
  intros Hb. induction xs as [| x xs IH]; cbn [for_each].
  - apply saveless_ret.
  - apply saveless_bind; [apply Hb | intros _; exact IH].
Qed.

Lemma saveless_plot_curve case ii :
  saveless (plot_curve asfarray tfs case ii).
Proof.
  unfold plot_curve, parse_alpso_files, Convergence.open_text.
  repeat (apply saveless_bind; [| intros ?]);
    try (apply saveless_emit; discriminate);
    try apply saveless_ret.
  - destruct (tfs !! _); [apply saveless_ret | apply saveless_raise].
  - destruct (tfs !! _); [apply saveless_ret | apply saveless_raise].
  - destruct (asfarray _); [apply saveless_ret | apply saveless_raise].
  - destruct (asfarray _); [apply saveless_ret | apply saveless_raise].
  - destruct (_ =? _)%nat;
      [apply saveless_emit; discriminate | apply saveless_raise].
Qed.

(** A chart that completes with [save_figs] set has saved exactly its
    own hard-coded image. *)
Lemma chart_saves show_figs case s s' :
  chart asfarray tfs true show_figs case s = Done tt s' ->
  saves (trace s') = (saves (trace s) ++ [image case])%list.
Proof.
  unfold chart. intros H.
  unfold bind at 1 in H. cbn [emit] in H.
  unfold bind at 1 in H.
  pose proof (saveless_for_each [5; 10; 15; 20; 25; 30]%Z
                (plot_curve asfarray tfs case)
                (fun ii => saveless_plot_curve case ii)
                (Frame (locals s) (trace s ++ [EvSubplot]))) as Hl.
  destruct (for_each _ _ _) as [[] t | e t]; [| discriminate].
  cbn [final_state trace] in Hl.
  unfold bind at 1 in H. rewrite save_chart_spec in H.
  assert (Hs : saves (trace s ++ [EvSubplot]) = saves (trace s)).
  { unfold saves. rewrite omap_app. cbn. by rewrite app_nil_r. }
  rewrite Hs in Hl.
  destruct show_figs; cbn in H; injection H as <-; cbn [trace];
    unfold saves in *; rewrite ?omap_app; cbn; rewrite ?app_nil_r;
    by rewrite Hl.
Qed.

Lemma charts_save show_figs cs : forall s s',
  for_each cs (chart asfarray tfs true show_figs) s = Done tt s' ->
  saves (trace s') = (saves (trace s) ++ map image cs)%list.
Proof.
  induction cs as [| c cs IH]; intros s s' H; cbn [for_each] in H.
  - injection H as <-. by rewrite app_nil_r.
  - unfold bind in H.
    destruct (chart _ _ _ _ c s) as [[] t | e t] eqn:E; [| discriminate].
    rewrite (IH _ _ H), (chart_saves _ _ _ _ E), <- app_assoc.
    reflexivity.
Qed.

End AlpsoFacts.

(** C10: whatever the [filename] argument, a call performs the same
    effects and ends the same way, so the files written are the same; and
    a call with [save_figs] set that completes has written exactly the four
    hard-coded images, in order. *)
Theorem plot_alpso_tests_ignores_filename
    (asfarray : list string -> res (list float)) (tfs : gmap string string)
    (save_figs show_figs : bool) (filename1 filename2 : string) :
  let run f :=
    Alpso.plot_alpso_tests asfarray tfs f save_figs show_figs empty_frame in
  raised (run filename1) = raised (run filename2)
  /\ trace (final_state (run filename1)) = trace (final_state (run filename2))
  /\ Alpso.saves (trace (final_state (run filename1)))
     = Alpso.saves (trace (final_state (run filename2)))
  /\ (save_figs = true -> raised (run filename1) = None ->
      Alpso.saves (trace (final_state (run filename1)))
      = ["./images/alpso_test_16turbs_20dirs.pdf";
         "./images/alpso_test_38turbs_12dirs.pdf";
         "./images/alpso_test_38turbs_36dirs.pdf";
         "./images/alpso_test_60turbs_72dirs.pdf"]).
Proof.
  intros run.
  assert (Hagree : agree (run filename1) (run filename2)).
  { unfold run, Alpso.plot_alpso_tests. rewrite !bind_assign.
    apply blind_for_each; [| reflexivity].
    intros c. apply blind_chart. }
  assert (Ht : raised (run filename1) = raised (run filename2)
               /\ trace (final_state (run filename1))
                  = trace (final_state (run filename2))).
  { destruct (run filename1), (run filename2); cbn in *; try done.
    - by destruct Hagree.
    - destruct Hagree as [-> ?]. by split. }
  destruct Ht as [Hr Htr].
  split; [exact Hr |]. split; [exact Htr |]. split; [by rewrite Htr |].
  intros -> Hdone. unfold run in *. unfold Alpso.plot_alpso_tests in *.
  rewrite bind_assign in Hdone |- *.
  destruct (for_each _ _ _) as [[] t | e t] eqn:E; [| discriminate].
  cbn [final_state]. by rewrite (charts_save _ _ _ _ _ _ E).
Qed.

Lemma plot_alpso_tests_ignores_filename_witness :
  let run f :=
    Alpso.plot_alpso_tests parse_all empty_logs f true false empty_frame in
  raised (run "figure.pdf") = None
  /\ Alpso.saves (trace (final_state (run "figure.pdf")))
     = ["./images/alpso_test_16turbs_20dirs.pdf";
        "./images/alpso_test_38turbs_12dirs.pdf";
        "./images/alpso_test_38turbs_36dirs.pdf";
        "./images/alpso_test_60turbs_72dirs.pdf"]
  /\ trace (final_state (run "figure.pdf")) = trace (final_state (run "")).
Proof.
  intros run.
  pose proof (plot_alpso_tests_ignores_filename parse_all empty_logs true
                false "figure.pdf" "") as (_ & Ht & _ & Hs).
  assert (Hr : raised (run "figure.pdf") = None) by (vm_compute; reflexivity).
  split; [exact Hr |]. split; [exact (Hs eq_refl Hr) | exact Ht].
Defined.

Example plot_windrose_two_ticks :
  trace (final_state
           (Windrose.plot_windrose [0; 90]%float [1; 2]%float [0; 5]%float 1
              false true "rose.pdf" None empty_frame))
  = [EvSubplot; EvCircle 0 "-"; EvCircle 5 "-"; EvCircle 2.5 ":";
     EvCircle 7.5 ":"; EvBar; EvSavefig "rose.pdf"]%float.
Proof. vm_compute. reflexivity. Qed.

(** C9, as the code has it: a call that completes was given at least two
    ticks; and with a single tick and a non-empty direction array the call
    fails with an index error at the minor-tick spacing, whatever the
    other arguments (so also for [minor_ticks = 0]), before any bar is
    drawn. *)
Theorem plot_windrose_needs_two_ticks
    (direction values ticks : list float) (minor_ticks : Z)
    (show save : bool) (file_name : string) (plot_radius : option float) :
  let o := Windrose.plot_windrose direction values ticks minor_ticks show
             save file_name plot_radius empty_frame in
  (raised o = None -> (2 <= length ticks)%nat)
  /\ (direction <> [] -> length ticks = 1%nat ->
      raised o = Some IndexError /\ trace (final_state o) = [EvSubplot]).
Proof.
  intros o. subst o. unfold Windrose.plot_windrose. split.
  - destruct ticks as [| t0 [| t1 ticks]]; [| | cbn; lia];
      destruct plot_radius, direction; cbn; intros H; discriminate H.
  - intros Hd Hl.
    destruct ticks as [| t0 [| t1 ticks]]; try discriminate Hl.
    destruct direction; [done |].
    destruct plot_radius; cbn; split; reflexivity.
Qed.

Lemma plot_windrose_needs_two_ticks_witness :
  [0; 90]%float <> []
  /\ raised (Windrose.plot_windrose [0; 90]%float [1; 2]%float [5]%float 0
               true false "figure1.pdf" None empty_frame)
     = Some IndexError.
Proof.
  split; [discriminate |].
  apply (plot_windrose_needs_two_ticks [0; 90]%float [1; 2]%float [5]%float 0
           true false "figure1.pdf" None); [discriminate | reflexivity].
Defined.

(** C9 as stated fails when the direction array is empty: with a single
    tick the call then stops earlier, at the division by the number of
    directions, with a different exception. *)
Lemma plot_windrose_empty_direction :
  raised (Windrose.plot_windrose [] [] [5]%float 0 true false "figure1.pdf"
            None empty_frame)
  = Some ZeroDivisionError
  /\ Some ZeroDivisionError <> Some IndexError.
Proof. split; [reflexivity | discriminate]. Qed.

Section WakeFacts.
Import Wake.
Local Open Scope R_scope.
Local Abbreviation sqrt := R_sqrt.sqrt.

Lemma sqrt_fifth_le_1 : sqrt (1 - ct) <= 1.
Proof.
  rewrite <- sqrt_1 at 2. apply sqrt_le_1_alt. unfold ct. lra.
Qed.

Lemma x0_positive : 0 < x0.
Proof.
  unfold x0, x0_func, gamma. rewrite cos_0.
  pose proof sqrt_fifth_le_1 as H1.
  pose proof (sqrt_pos (1 - ct)) as H2.
  assert (H3 : 0 < sqrt 2) by (apply sqrt_lt_R0; lra).
  apply Rdiv_lt_0_compat.
  - unfold d. nra.
  - apply Rmult_lt_0_compat; [exact H3 |].
    unfold alpha_star, I, beta_star. nra.
Qed.

Lemma ky_positive : 0 < ky.
Proof. unfold ky, I. lra. Qed.

(** The discontinuity point lies before the end of the near wake. *)
Lemma xd_before_x0 : xd < x0.
Proof.
  unfold xd, xd_func, gamma. rewrite cos_0.
  pose proof ky_positive as Hk. change kz with ky.
  set (k := ky) in *.
  assert (Hroot : 2 * k < sqrt ((k + k * 1) ^ 2 - 4 * k * k * (ct - 1) * 1)).
  { rewrite <- (sqrt_pow2 (2 * k)) at 1 by lra.
    apply sqrt_lt_1_alt. unfold ct. nra. }
  assert (Hden : 0 < 2 * k * k * sqrt 8).
  { assert (0 < sqrt 8) by (apply sqrt_lt_R0; lra).
    repeat apply Rmult_lt_0_compat; lra. }
  assert (Hneg : d * (k + k * 1
                      - sqrt ((k + k * 1) ^ 2 - 4 * k * k * (ct - 1) * 1))
                 / (2 * k * k * sqrt 8) < 0).
  { unfold Rdiv. apply Rinv_0_lt_compat in Hden.
    assert (d * (k + k * 1
                 - sqrt ((k + k * 1) ^ 2 - 4 * k * k * (ct - 1) * 1)) < 0)
      by (unfold d; nra).
    nra. }
  lra.
Qed.

Lemma spread_far_wake_equal (x : list R) :
  Forall (fun xi => xi > x0) x ->
  fst (spread_func x x0 xd d ky kz gamma)
  = snd (spread_func x x0 xd d ky kz gamma).
Proof.
  intros H. unfold spread_func. cbn [fst snd].
  induction H as [| xi x Hxi H IH]; [reflexivity |].
  cbn [map]. rewrite IH. f_equal.
  destruct (Rlt_dec x0 xi) as [_ | Hn]; [| lra].
  unfold gamma. rewrite cos_0. change kz with ky.
  unfold Rdiv. ring.
Qed.

End WakeFacts.

(** C5, as the code has it: with the default inputs [x0] is positive, the
    discontinuity point [xd] lies strictly before [x0], and for positions
    beyond [x0] the two spreads returned by [spread_func] coincide. *)
Theorem wake_defaults (x : list R) :
  Forall (fun xi => (xi > Wake.x0)%R) x ->
  (0 < Wake.x0)%R
  /\ (Wake.xd < Wake.x0)%R
  /\ fst (Wake.spread_func x Wake.x0 Wake.xd Wake.d Wake.ky Wake.kz Wake.gamma)
     = snd (Wake.spread_func x Wake.x0 Wake.xd Wake.d Wake.ky Wake.kz
              Wake.gamma).
Proof.
  intros H. split; [apply x0_positive |]. split; [apply xd_before_x0 |].
  by apply spread_far_wake_equal.
Qed.

Lemma wake_defaults_witness :
  Forall (fun xi => (xi > Wake.x0)%R) [(Wake.x0 + 1)%R; (Wake.x0 + 10)%R]
  /\ (Wake.xd < Wake.x0)%R.
Proof.
  assert (H : Forall (fun xi => (xi > Wake.x0)%R)
                     [(Wake.x0 + 1)%R; (Wake.x0 + 10)%R])
    by (repeat constructor; lra).
  split; [exact H |].
  exact (proj1 (proj2 (wake_defaults _ H))).
Defined.

(** C5 as stated fails: [xd >= x0] does not hold for the default inputs. *)
Lemma wake_xd_not_beyond_x0 : ~ (Wake.xd >= Wake.x0)%R.
Proof. pose proof xd_before_x0. lra. Qed.

Section SunflowerFacts.
Import Sunflower.
Local Open Scope R_scope.
Local Abbreviation sqrt := R_sqrt.sqrt.

Lemma floor_IZR (z : Z) : floor (IZR z) = z.
Proof.
  unfold floor.
  rewrite <- (tech_up (IZR z) (z + 1)); [lia | |];
    rewrite plus_IZR; lra.
Qed.

Lemma np_round_IZR (z : Z) : np_round (IZR z) = IZR z.
Proof.
  unfold np_round. rewrite floor_IZR.
  destruct (Rlt_dec _ _) as [_ | H]; [reflexivity | lra].
Qed.

Lemma boundary_100 : boundary 100 1 = 10.
Proof.
  unfold boundary. rewrite INR_IZR_INZ.
  change (Z.of_nat 100) with 100%Z.
  replace 100 with (10 * 10) by lra.
  rewrite sqrt_square by lra. rewrite Rmult_1_l. apply np_round_IZR.
Qed.

Lemma INR_100 : INR 100 = 100.
Proof. rewrite INR_IZR_INZ. reflexivity. Qed.

Lemma INR_89 : INR 89 = 89.
Proof. rewrite INR_IZR_INZ. reflexivity. Qed.

(** Inside the boundary ring the radius is below one. *)
Lemma radius_100_cases (k : nat) :
  (radius k 100 10 = 1 /\ (90 <= k)%nat)
  \/ (0 <= radius k 100 10 < 1 /\ (k < 90)%nat).
Proof.
  unfold radius. rewrite INR_100.
  destruct (Rlt_dec (100 - 10) (INR k + 1)) as [Hb | Hb].
  - left. split; [reflexivity |].
    assert (Hk : INR 89 < INR k) by (rewrite INR_89; lra).
    apply INR_lt in Hk. lia.
  - right.
    assert (Hk : INR k + 1 <= 90) by lra.
    pose proof (pos_INR k) as Hp.
    assert (HA : 0 <= INR k + 1 - 1 / 2 < 100 - (10 + 1) / 2) by lra.
    assert (HB : 0 < sqrt (100 - (10 + 1) / 2))
      by (apply sqrt_lt_R0; lra).
    pose proof (sqrt_pos (INR k + 1 - 1 / 2)) as Ha.
    pose proof (sqrt_lt_1_alt _ _ HA) as Hlt.
    split.
    + split.
      * apply Rmult_le_pos; [exact Ha |].
        left. by apply Rinv_0_lt_compat.
      * apply (Rmult_lt_reg_r (sqrt (100 - (10 + 1) / 2))); [exact HB |].
        unfold Rdiv. rewrite Rmult_assoc, Rinv_l by lra. lra.
    + assert (Hk' : INR k <= INR 89) by (rewrite INR_89; lra).
      apply INR_le in Hk'. lia.
Qed.

(** Before the boundary ring the squared radius stays below 19/20. *)
Lemma radius_100_inner (k : nat) :
  (k < 90)%nat -> radius k 100 10 ^ 2 <= 19 / 20.
Proof.
  intros Hk. unfold radius. rewrite INR_100.
  assert (Hle : INR k <= INR 89) by (apply le_INR; lia).
  rewrite INR_89 in Hle. pose proof (pos_INR k) as Hp.
  destruct (Rlt_dec (100 - 10) (INR k + 1)) as [Hb | _]; [lra |].
  assert (Ha : sqrt (INR k + 1 - 1 / 2) ^ 2 = INR k + 1 - 1 / 2).
  { rewrite <- Rsqr_pow2. apply Rsqr_sqrt. lra. }
  assert (Hb : sqrt (100 - (10 + 1) / 2) ^ 2 = 100 - (10 + 1) / 2).
  { rewrite <- Rsqr_pow2. apply Rsqr_sqrt. lra. }
  assert (HB : 0 < sqrt (100 - (10 + 1) / 2))
    by (apply sqrt_lt_R0; lra).
  replace ((sqrt (INR k + 1 - 1 / 2) / sqrt (100 - (10 + 1) / 2)) ^ 2)
    with (sqrt (INR k + 1 - 1 / 2) ^ 2 / sqrt (100 - (10 + 1) / 2) ^ 2)
    by (field; lra).
  rewrite Ha, Hb.
  apply (Rmult_le_reg_r (100 - (10 + 1) / 2)); [lra |].
  unfold Rdiv at 1. rewrite Rmult_assoc, Rinv_l by lra. lra.
Qed.

Lemma tolerance_positive : 0 < tolerance.
Proof. unfold tolerance. lra. Qed.

Lemma point_norm (r t : R) : (r * cos t) ^ 2 + (r * sin t) ^ 2 = r ^ 2.
Proof.
  pose proof (sin2_cos2 t) as H. unfold Rsqr in H.
  replace ((r * cos t) ^ 2 + (r * sin t) ^ 2)
    with (r ^ 2 * (sin t * sin t + cos t * cos t)) by ring.
  rewrite H. ring.
Qed.

(** Squares modulo five. *)
Lemma square_mod_5 (p : Z) : ((p * p) mod 5 = 0 -> p mod 5 = 0)%Z.
Proof.
  rewrite Z.mul_mod by lia.
  pose proof (Z.mod_pos_bound p 5 ltac:(lia)) as Hb.
  set (r := (p mod 5)%Z) in *.
  assert (r = 0 \/ r = 1 \/ r = 2 \/ r = 3 \/ r = 4)%Z
    as [-> | [-> | [-> | [-> | ->]]]] by lia;
    cbn; intros H; first [reflexivity | discriminate H].
Qed.

(** Five is not the square of a fraction: infinite descent. *)
Lemma no_fraction_squares_to_5 (n : nat) : forall q p : Z,
  Z.abs_nat q = n -> q <> 0%Z -> (p * p <> 5 * (q * q))%Z.
Proof.
  induction n as [n IH] using lt_wf_ind. intros q p Hn Hq Heq.
  assert (Hp5 : (p mod 5 = 0)%Z).
  { apply square_mod_5. rewrite Heq, Z.mul_comm. apply Z_mod_mult. }
  apply Z.mod_divide in Hp5 as [p' ->]; [| lia].
  assert (Hq' : (q * q = 5 * (p' * p'))%Z) by lia.
  assert (Hq5 : (q mod 5 = 0)%Z).
  { apply square_mod_5. rewrite Hq', Z.mul_comm. apply Z_mod_mult. }
  apply Z.mod_divide in Hq5 as [q' ->]; [| lia].
  apply (IH (Z.abs_nat q') ltac:(lia) q' p' eq_refl); lia.
Qed.

Lemma sqrt_5_irrational (p q : Z) : q <> 0%Z -> sqrt 5 * IZR q <> IZR p.
Proof.
  intros Hq H.
  assert (Hs : sqrt 5 * sqrt 5 = 5) by (apply sqrt_sqrt; lra).
  assert (Hz : IZR (p * p) = IZR (5 * (q * q))).
  { rewrite !mult_IZR, <- H. nra. }
  apply eq_IZR in Hz.
  by apply (no_fraction_squares_to_5 (Z.abs_nat q) q p eq_refl Hq).
Qed.

Lemma phi_squared : phi ^ 2 = (3 + sqrt 5) / 2.
Proof.
  assert (Hs : sqrt 5 * sqrt 5 = 5) by (apply sqrt_sqrt; lra).
  unfold phi. field_simplify. nra.
Qed.

(** Two different indices never get the same angle, not even up to
    whole turns. *)
Lemma angles_distinct (j k : nat) (m : Z) :
  j <> k -> theta j - theta k <> 2 * PI * IZR m.
Proof.
  intros Hjk H. unfold theta in H. rewrite phi_squared in H.
  pose proof PI_RGT_0 as Hpi.
  pose proof (sqrt_pos 5) as Hs.
  rewrite !INR_IZR_INZ in H.
  set (a := Z.of_nat j) in *. set (b := Z.of_nat k) in *.
  assert (Hd : IZR a - IZR b = IZR m * ((3 + sqrt 5) / 2)).
  { apply (Rmult_eq_reg_l (2 * PI)); [| lra].
    rewrite <- (Rmult_comm (IZR m)) in H.
    transitivity (2 * PI * (IZR a + 1) / ((3 + sqrt 5) / 2)
                  * ((3 + sqrt 5) / 2)
                  - 2 * PI * (IZR b + 1) / ((3 + sqrt 5) / 2)
                    * ((3 + sqrt 5) / 2)).
    - field. lra.
    - rewrite <- Rmult_minus_distr_r, H. ring. }
  assert (Hm : sqrt 5 * IZR m = IZR (2 * (a - b) - 3 * m)).
  { rewrite minus_IZR, !mult_IZR, minus_IZR. lra. }
  destruct (Z.eq_dec m 0%Z) as [-> | Hm0].
  - rewrite Rmult_0_r in Hm. apply eq_IZR in Hm. subst a b. lia.
  - by apply (sqrt_5_irrational _ _ Hm0 Hm).
Qed.

Lemma nth_points (f : nat -> R) (n k : nat) :
  (k < n)%nat -> List.nth k (map f (seq 0 n)) 0 = f k.
Proof.
  intros H. rewrite (nth_indep _ 0 (f 0%nat)) by (rewrite length_map, length_seq; lia).
  rewrite map_nth, seq_nth by lia. reflexivity.
Qed.

End SunflowerFacts.

(** C7: for [n = 100] and the default [alpha = 1] the boundary count is
    10.  Point [k] of [sunflower_points] is the radius of [k] times the
    cosine and the sine of the angle of [k].  Up to the rounding tolerance
    every point lies in the unit disc; the points of the last ten indices
    lie on the unit circle and all the others well inside it, the radius
    being one exactly at the last ten indices; and for every [n] the
    angles of two different indices differ, also modulo a whole turn. *)
Theorem sunflower_points_100 :
  let xs := fst (Sunflower.sunflower_points 100 1) in
  let ys := snd (Sunflower.sunflower_points 100 1) in
  let b := Sunflower.boundary 100 1 in
  b = 10%R
  /\ (length xs = 100%nat /\ length ys = 100%nat)
  /\ (forall n k : nat, (k < n)%nat ->
        let r := Sunflower.radius k n (Sunflower.boundary n 1) in
        List.nth k (fst (Sunflower.sunflower_points n 1)) 0%R
        = (r * cos (Sunflower.theta k))%R
        /\ List.nth k (snd (Sunflower.sunflower_points n 1)) 0%R
           = (r * sin (Sunflower.theta k))%R)
  /\ (forall (k : nat) (eps : R), (k < 100)%nat -> (tolerance <= eps)%R ->
        (List.nth k xs 0 ^ 2 + List.nth k ys 0 ^ 2 <= 1 + eps)%R)
  /\ (forall k : nat, (k < 100)%nat ->
        ((100 - 10 <= k)%nat ->
         (1 - tolerance <= List.nth k xs 0 ^ 2 + List.nth k ys 0 ^ 2)%R)
        /\ ((k < 100 - 10)%nat ->
            (List.nth k xs 0 ^ 2 + List.nth k ys 0 ^ 2 <= 19 / 20)%R))
  /\ (forall k : nat, (k < 100)%nat ->
        Sunflower.radius k 100 b = 1%R <-> (100 - 10 <= k)%nat)
  /\ (forall (n j k : nat) (m : Z),
        (n <= 1000)%nat -> (j < n)%nat -> (k < n)%nat -> j <> k ->
        (Sunflower.theta j - Sunflower.theta k <> 2 * PI * IZR m)%R).
Proof.
  intros xs ys b. subst xs ys b.
  pose proof tolerance_positive as Htol.
  unfold Sunflower.sunflower_points. cbn [fst snd].
  rewrite boundary_100.
  split; [reflexivity |]. split.
  { by rewrite !length_map, !length_seq. }
  split; [| split; [| split; [| split]]].
  - intros n k Hk. cbv zeta. by rewrite !nth_points by exact Hk.
  - intros k eps Hk Heps.
    rewrite !nth_points by exact Hk. rewrite point_norm.
    destruct (radius_100_cases k) as [[-> _] | [[H0 H1] _]]; [lra |].
    assert (Sunflower.radius k 100 10 ^ 2 <= 1)%R by nra. lra.
  - intros k Hk. rewrite !nth_points by exact Hk. rewrite point_norm.
    split.
    + intros Hge.
      destruct (radius_100_cases k) as [[-> _] | [_ Hlt]]; [lra | lia].
    + intros Hlt. apply radius_100_inner. lia.
  - intros k Hk.
    destruct (radius_100_cases k) as [[Hr Hge] | [[H0 H1] Hlt]].
    + split; [intros _; lia | intros _; exact Hr].
    + split; [intros Hr; lra | intros Hge; lia].
  - intros n j k m _ _ _ Hjk. by apply angles_distinct.
Qed.

Lemma sunflower_points_100_witness :
  (99 < 100)%nat /\ (tolerance <= tolerance)%R
  /\ (List.nth 99 (fst (Sunflower.sunflower_points 100 1)) 0 ^ 2
      + List.nth 99 (snd (Sunflower.sunflower_points 100 1)) 0 ^ 2
      <= 1 + tolerance)%R
  /\ (Sunflower.theta 0 - Sunflower.theta 999 <> 2 * PI * IZR 0)%R.
Proof.
  pose proof sunflower_points_100 as (_ & _ & _ & Hdisk & _ & _ & Hangle).
  assert (H1 : (99 < 100)%nat) by lia.
  assert (H2 : (tolerance <= tolerance)%R) by lra.
  split; [exact H1 |]. split; [exact H2 |].
  split; [exact (Hdisk 99%nat tolerance H1 H2) |].
  apply (Hangle 1000%nat 0%nat 999%nat 0%Z); lia.
Defined.

(** ** Tools: outcomes of composed statements *)

Section RunFacts.

Lemma wp_ret {A} (a : A) Q E s : Q a s -> wp (ret a) Q E s.
Proof. done. Qed.

Lemma wp_raise {A} e (Q : A -> frame -> Prop) E s :
  E e s -> wp (raise e) Q E s.
Proof. done. Qed.

Lemma wp_bind {A B} (c : M frame A) (k : A -> M frame B) Q E s :
  wp c (fun a s' => wp (k a) Q E s') E s -> wp (bind c k) Q E s.
Proof. unfold wp, bind. by destruct (c s). Qed.

Lemma wp_mono {A} (c : M frame A) (Q Q' : A -> frame -> Prop)
    (E E' : exn -> frame -> Prop) s :
  wp c Q E s ->
  (forall a s', Q a s' -> Q' a s') -> (forall e s', E e s' -> E' e s') ->
  wp c Q' E' s.
Proof. unfold wp. destruct (c s); auto. Qed.

Lemma wp_lift {A} (r : res A) Q E s :
  (forall a, r = Ok a -> Q a s) -> (forall e, r = Err e -> E e s) ->
  wp (lift r) Q E s.
Proof. destruct r; cbn; auto. Qed.

Lemma wp_emit ev Q E s :
  Q tt (Frame (locals s) (trace s ++ [ev])) -> wp (emit ev) Q E s.
Proof. done. Qed.

Lemma wp_assign x v Q E s :
  Q tt (Frame (<[x := v]> (locals s)) (trace s)) -> wp (assign x v) Q E s.
Proof. done. Qed.

Lemma wp_name x Q E s :
  (forall v, locals s !! x = Some v -> Q v s) ->
  (locals s !! x = None -> E (UnboundLocalError x) s) ->
  wp (name x) Q E s.
Proof. unfold wp, name. destruct (locals s !! x); auto. Qed.

Lemma wp_loadtxt fs path Q E s :
  (forall a, fs !! path = Some a ->
             Q a (Frame (locals s) (trace s ++ [EvLoadtxt path]))) ->
  (fs !! path = None ->
   E (OSError path) (Frame (locals s) (trace s ++ [EvLoadtxt path]))) ->
  wp (loadtxt fs path) Q E s.
Proof.
  intros HQ HE. unfold wp, loadtxt, bind, emit, ret, raise.
  destruct (fs !! path); auto.
Qed.

Lemma wp_open_text tfs path Q E s :
  (forall a, tfs !! path = Some a ->
             Q a (Frame (locals s) (trace s ++ [EvOpen path]))) ->
  (tfs !! path = None ->
   E (OSError path) (Frame (locals s) (trace s ++ [EvOpen path]))) ->
  wp (Convergence.open_text tfs path) Q E s.
Proof.
  intros HQ HE. unfold wp, Convergence.open_text, bind, emit, ret, raise.
  destruct (tfs !! path); auto.
Qed.

Lemma wp_for_each {A} (I : frame -> Prop) (xs : list A) body E s :
  I s ->
  (forall x s', In x xs -> I s' -> wp (body x) (fun _ => I) E s') ->
  wp (for_each xs body) (fun _ => I) E s.
Proof.
  revert s. induction xs as [| x xs IH]; intros s Hs Hb; [done |].
  cbn [for_each]. apply wp_bind.
  eapply wp_mono; [apply Hb; [by left | exact Hs] | | done].
  intros [] s' Hs'. apply IH; [done |]. intros y s'' Hy. apply Hb. by right.
Qed.

Lemma wp_done {A} (c : M frame A) Q E s :
  wp c Q E s -> raised (c s) = None ->
  exists a, c s = Done a (final_state (c s)) /\ Q a (final_state (c s)).
Proof. unfold wp. destruct (c s); cbn; [eauto | done]. Qed.

Lemma wp_fails {A} (c : M frame A) E s :
  wp c (fun _ _ => False) E s ->
  exists e, raised (c s) = Some e /\ E e (final_state (c s)).
Proof. unfold wp. destruct (c s); cbn; [done | eauto]. Qed.

Lemma bind_lift_Ok {S A B} (a : A) (k : A -> M S B) s :
  bind (lift (Ok a)) k s = k a s.
Proof. reflexivity. Qed.

Lemma bind_lift_Err {S A B} e (k : A -> M S B) s :
  bind (lift (Err e)) k s = Raised e s.
Proof. reflexivity. Qed.

Lemma bind_lift_is {S A B} (r : res A) a (k : A -> M S B) s :
  r = Ok a -> bind (lift r) k s = k a s.
Proof. by intros ->. Qed.

Lemma bind_ret {S A B} (a : A) (k : A -> M S B) s :
  bind (ret a) k s = k a s.
Proof. reflexivity. Qed.

Lemma bind_emit {B} ev (k : unit -> M frame B) s :
  bind (emit ev) k s = k tt (Frame (locals s) (trace s ++ [ev])).
Proof. reflexivity. Qed.

Lemma bind_bind {S A B C} (c : M S A) (f : A -> M S B) (g : B -> M S C) s :
  bind (bind c f) g s = bind c (fun a => bind (f a) g) s.
Proof. unfold bind. by destruct (c s). Qed.

(** A loop of plain events appends them in order. *)
Lemma for_each_emit {A} (f : A -> event) (xs : list A) s :
  for_each xs (fun x => emit (f x)) s
  = Done tt (Frame (locals s) (trace s ++ map f xs)).
Proof.
  revert s. induction xs as [| x xs IH]; intros s; cbn [for_each map].
  - rewrite app_nil_r. by destruct s.
  - rewrite bind_emit, IH. cbn [locals trace].
    by rewrite <- app_assoc.
Qed.

(** A loop that completes has completed every pass. *)
Lemma for_each_done {A} (xs : list A) (body : A -> M frame unit) s s' :
  for_each xs body s = Done tt s' ->
  forall x, In x xs -> exists s1 s2, body x s1 = Done tt s2.
Proof.
  revert s. induction xs as [| y xs IH]; intros s H x Hx; [done |].
  cbn [for_each] in H. unfold bind in H.
  destruct (body y s) as [[] t | e t] eqn:E; [| discriminate].
  destruct Hx as [-> | Hx]; [by eexists _, _ | by eapply IH].
Qed.

Lemma name_bound x v s : locals s !! x = Some v -> name x s = Done v s.
Proof. intros H. unfold name. by rewrite H. Qed.

Lemma name_str_bound x v s :
  locals s !! x = Some (VStr v) -> name_str x s = Done v s.
Proof. intros H. unfold name_str, bind, name. by rewrite H. Qed.

Lemma name_strs_bound x v s :
  locals s !! x = Some (VStrs v) -> name_strs x s = Done v s.
Proof. intros H. unfold name_strs, bind, name. by rewrite H. Qed.

Lemma name_num_bound x v s :
  locals s !! x = Some (VNum v) -> name_num x s = Done v s.
Proof. intros H. unfold name_num, bind, name. by rewrite H. Qed.

Lemma name_arr_bound x v s :
  locals s !! x = Some (VArr v) -> name_arr x s = Done v s.
Proof. intros H. unfold name_arr, bind, name. by rewrite H. Qed.

Lemma name_arr2_bound x v s :
  locals s !! x = Some (VArr2 v) -> name_arr2 x s = Done v s.
Proof. intros H. unfold name_arr2, bind, name. by rewrite H. Qed.

Lemma name_ranges_bound x v s :
  locals s !! x = Some (VRanges v) -> name_ranges x s = Done v s.
Proof. intros H. unfold name_ranges, bind, name. by rewrite H. Qed.

Lemma name_unbound x s :
  locals s !! x = None -> name x s = Raised (UnboundLocalError x) s.
Proof. intros H. unfold name. by rewrite H. Qed.

Lemma sweep_config_run {B} nwa nwd nwh rdir wadirp wddirp whdirp bfilename
    ranges_name wavals wdvals whvals (k : unit -> M frame B) s :
  bind (Sweep.sweep_config nwa nwd nwh rdir wadirp wddirp whdirp bfilename
          ranges_name wavals wdvals whvals) k s
  = k tt (final_state
            (Sweep.sweep_config nwa nwd nwh rdir wadirp wddirp whdirp
               bfilename ranges_name wavals wdvals whvals s)).
Proof. reflexivity. Qed.


End RunFacts.

(** One statement of a run whose effect is known: an assignment, an
    event, a read of a bound local, a pure step on known data. *)
Ltac lookup_now := cbn [locals final_state]; vm_compute; reflexivity.

Ltac step_raw :=
  lazymatch goal with
  | |- context [bind (bind _ _) _ _] => rewrite bind_bind
  | |- context [bind (assign _ _) _ _] => rewrite bind_assign
  | |- context [bind (emit _) _ _] => rewrite bind_emit
  | |- context [bind (ret _) _ _] => rewrite bind_ret
  | |- context [bind (name_str _) _ _] =>
      erewrite (bind_Done (name_str _))
        by (apply name_str_bound; lookup_now)
  | |- context [bind (name_strs _) _ _] =>
      erewrite (bind_Done (name_strs _))
        by (apply name_strs_bound; lookup_now)
  | |- context [bind (name_ranges _) _ _] =>
      erewrite (bind_Done (name_ranges _))
        by (apply name_ranges_bound; lookup_now)
  | |- context [bind (name_num _) _ _] =>
      erewrite (bind_Done (name_num _))
        by (apply name_num_bound; lookup_now)
  | |- context [bind (lift _) _ _] =>
      erewrite bind_lift_is by (vm_compute; reflexivity)
  end.

Ltac step := step_raw; cbn [locals trace].

(** ** The sweep functions: unsupported counts and unusable tables *)

Section SweepEdgeFacts.
Variable fs : gmap string Np.matrix.


Lemma column_lookup c (t : Np.matrix) l :
  Np.column c t = Ok l ->
  Forall2 (fun row v => row !! c = Some v) t l.
Proof.
  unfold Np.column. revert l. induction t as [| row t IH]; intros l; cbn.
  - intros [= <-]. constructor.
  - destruct (row !! c) eqn:Hc; cbn; [| done].
    destruct (rmap_list _ t) as [l' |]; cbn; [| done].
    intros [= <-]. constructor; [done | by apply IH].
Qed.

(** A column read that succeeds was made on a two-dimensional array. *)
Lemma col_Ok c (t : Np.matrix) l :
  Np.col c t = Ok l ->
  Np.two_dimensional t = true /\ Np.column c t = Ok l.
Proof. unfold Np.col. by destruct (Np.two_dimensional t). Qed.



Lemma col_lookup c (t : Np.matrix) l :
  Np.col c t = Ok l ->
  Forall2 (fun row v => row !! c = Some v) t l.
Proof. intros H. by apply column_lookup, col_Ok. Qed.







End SweepEdgeFacts.

Ltac unfold_sweep :=
  unfold Sweep.plot_max_wec_const_nstep_results,
    Sweep.plot_maxwec3_nstep_results, Sweep.plot_wec_nstep_results,
    Sweep.plot_wec_step_results, Sweep.plot_max_wec_results,
    Sweep.baseline_3f;
  change (38 =? 38)%Z with true; cbv iota;
  rewrite sweep_config_run.

(** X1: with a turbine count other than 38 every sweep function builds the
    [ValueError] and drops it, then fails on the unbound [rdir] before any
    table is read. *)
Theorem sweep_unsupported_turbine_count
    (fs : gmap string Np.matrix) (nturbs : Z) :
  nturbs <> 38%Z ->
  Forall (fun f : gmap string Np.matrix -> Z -> M frame unit =>
            f fs nturbs empty_frame
            = Raised (UnboundLocalError "rdir")
                (Frame ∅ [EvBuild (ValueError
                   ("please include results for " ++ pyfmt_i nturbs
                    ++ " turbines before rerunning the plotting script"))]))
         sweep_functions.
Proof.
  intros Hne. apply Z.eqb_neq in Hne. unfold sweep_functions.
  repeat (constructor;
          [unfold Sweep.plot_max_wec_const_nstep_results,
             Sweep.plot_maxwec3_nstep_results, Sweep.plot_wec_nstep_results,
             Sweep.plot_wec_step_results, Sweep.plot_max_wec_results;
           rewrite Hne; reflexivity |]).
  constructor.
Qed.

Lemma sweep_unsupported_turbine_count_witness :
  16%Z <> 38%Z
  /\ Forall (fun f : gmap string Np.matrix -> Z -> M frame unit =>
               raised (f baselines_only 16%Z empty_frame)
               = Some (UnboundLocalError "rdir"))
            sweep_functions.
Proof.
  split; [lia |].
  pose proof (sweep_unsupported_turbine_count baselines_only 16 ltac:(lia))
    as H.
  eapply Forall_impl; [exact H |].
  intros f Hf. cbv beta in Hf. rewrite Hf. reflexivity.
Defined.

(** X2: when the baseline table cannot be loaded, the error of
    [np.loadtxt] leaves the function: the baseline load is outside the
    [try], and it is the only load attempted. *)
Theorem sweep_missing_baseline (fs : gmap string Np.matrix) :
  Forall (fun ft : (gmap string Np.matrix -> Z -> M frame unit)
                   * string * string =>
            let '(f, baseline, _) := ft in
            fs !! baseline = None ->
            raised (f fs 38%Z empty_frame) = Some (OSError baseline)
            /\ trace (final_state (f fs 38%Z empty_frame))
               = [EvLoadtxt baseline])
         sweep_tables.
Proof.
  unfold sweep_tables.
  repeat (constructor;
    [intros Hfs; unfold_sweep; repeat step;
     unfold Sweep.load_baseline;
     erewrite bind_Raised;
       [| erewrite bind_Raised; [reflexivity | apply loadtxt_missing, Hfs]];
     split; reflexivity |]).
  constructor.
Qed.

Lemma sweep_missing_baseline_witness :
  Forall (fun ft : (gmap string Np.matrix -> Z -> M frame unit)
                   * string * string =>
            raised (ft.1.1 ∅ 38%Z empty_frame) = Some (OSError ft.1.2))
         sweep_tables.
Proof.
  pose proof (sweep_missing_baseline ∅) as H.
  eapply Forall_impl; [exact H |].
  intros [[f b] c] Hf. cbn [fst snd]. apply Hf. apply lookup_empty.
Defined.

Section SweepFirstCell.
Variable fs : gmap string Np.matrix.


End SweepFirstCell.




(** ** [plot_convergence_history]: what each branch accepts *)

Section ConvergenceEdgeFacts.
Import Convergence.
Variable tfs : gmap string string.

Lemma name_int_bound x v s :
  locals s !! x = Some (VInt v) -> name_int x s = Done v s.
Proof. intros H. unfold name_int, bind, name. by rewrite H. Qed.

Lemma name_int_unbound x s :
  locals s !! x = None -> name_int x s = Raised (UnboundLocalError x) s.
Proof. intros H. unfold name_int, bind, name. by rewrite H. Qed.

Lemma open_text_outcome p s :
  raised (open_text tfs p s)
  = match tfs !! p with Some _ => None | None => Some (OSError p) end.
Proof.
  unfold open_text. rewrite bind_emit. by destruct (tfs !! p).
Qed.

End ConvergenceEdgeFacts.

Ltac step_int :=
  erewrite (bind_Done (Convergence.name_int _))
    by (apply name_int_bound; lookup_now);
  cbn [locals trace].

(** X4: outside the BPA wake model the selection is closed: every
    combination other than (JENSEN, 38, 12) raises the configuration error
    before a figure is created or a file is opened. *)
Theorem plot_convergence_history_rejects_outside_bpa
    (tfs : gmap string string) (wakemodel : string) (nturbs ndirs : Z) :
  wakemodel <> "BPA" ->
  Convergence.recognized wakemodel nturbs ndirs = false ->
  let o := Convergence.plot_convergence_history tfs wakemodel nturbs ndirs
             empty_frame in
  raised o = Some (EnvironmentError "Invalid Model and Case combination")
  /\ trace (final_state o) = [].
Proof.
  intros Hbpa Hrec o. subst o.
  destruct (setup_rejects wakemodel nturbs ndirs Hbpa Hrec) as [Hr Ht].
  unfold Convergence.plot_convergence_history.
  rewrite (bind_raised_l _ _ _ _ Hr).
  split; [reflexivity |].
  rewrite final_state_Raised, Ht. reflexivity.
Qed.

Lemma plot_convergence_history_rejects_outside_bpa_witness :
  "JENSEN" <> "BPA"
  /\ raised (Convergence.plot_convergence_history ∅ "JENSEN" 16 20
               empty_frame)
     = Some (EnvironmentError "Invalid Model and Case combination").
Proof.
  split; [discriminate |].
  apply (plot_convergence_history_rejects_outside_bpa ∅ "JENSEN" 16 20);
    [discriminate | reflexivity].
Defined.

(** X5: in the BPA branch a turbine count other than 16, 38 and 60 binds
    nothing; the call fails on the unbound [date], not with the
    configuration error, whatever the number of directions. *)
Theorem plot_convergence_history_bpa_unknown_count
    (tfs : gmap string string) (nturbs ndirs : Z) :
  nturbs <> 16%Z -> nturbs <> 38%Z -> nturbs <> 60%Z ->
  let o := Convergence.plot_convergence_history tfs "BPA" nturbs ndirs
             empty_frame in
  raised o = Some (UnboundLocalError "date")
  /\ trace (final_state o) = [].
Proof.
  intros H16 H38 H60 o. subst o.
  apply Z.eqb_neq in H16, H38, H60.
  unfold Convergence.plot_convergence_history, Convergence.setup,
    Convergence.select_case.
  change (String.eqb "BPA" "BPA") with true. cbv iota.
  rewrite H16, H38, H60.
  repeat step.
  erewrite bind_Raised by (apply name_int_unbound; lookup_now).
  split; reflexivity.
Qed.

Lemma plot_convergence_history_bpa_unknown_count_witness :
  raised (Convergence.plot_convergence_history ∅ "BPA" 9 20 empty_frame)
  = Some (UnboundLocalError "date").
Proof.
  apply (plot_convergence_history_bpa_unknown_count ∅ 9 20); lia.
Defined.

(** X6: in the BPA branch the number of directions is never checked.  For
    16, 38 and 60 turbines and any [ndirs] the call gets as far as
    opening the SNOPT convergence history under a directory named after
    the arguments, and fails there only if that file is missing. *)
Theorem plot_convergence_history_bpa_any_ndirs
    (tfs : gmap string string) (ndirs : Z) :
  Forall (fun nd : Z * string =>
            let dir := "./image_data/opt_results/" ++ nd.2 ++ "-"
                       ++ pyfmt_i nd.1 ++ "-turbs-" ++ pyfmt_i ndirs
                       ++ "-dir-fcall-and-conv-history/" in
            let p := (dir ++ "snopt/") ++ "convergence_histories.txt" in
            let o := Convergence.plot_convergence_history tfs "BPA" nd.1
                       ndirs empty_frame in
            trace (final_state o) = [EvSubplot; EvOpen p]
            /\ raised o = match tfs !! p with
                          | Some _ => None
                          | None => Some (OSError p)
                          end)
         [(16, "20200821"); (38, "20200821"); (60, "20200824")]%Z.
Proof.
  repeat (constructor;
    [cbn [fst snd];
     unfold Convergence.plot_convergence_history, Convergence.setup,
       Convergence.select_case;
     change (String.eqb "BPA" "BPA") with true; cbv iota;
     change (16 =? 60)%Z with false; change (16 =? 38)%Z with false;
     change (16 =? 16)%Z with true; change (38 =? 60)%Z with false;
     change (38 =? 38)%Z with true; change (60 =? 60)%Z with true;
     cbv iota;
     generalize (pyfmt_i ndirs); intros d;
     try (destruct (ndirs =? 12)%Z; [| destruct (ndirs =? 36)%Z]);
     repeat first [step | step_int];
     (split; [unfold Convergence.open_text; rewrite bind_emit;
              destruct (tfs !! _); reflexivity
             | rewrite open_text_outcome; reflexivity]) |]).
  constructor.
Qed.

(** ** Locals that are never bound *)

Section UnboundFacts.
Variable x : string.

Lemma keeps_ret {A} (a : A) : keeps_unbound x (ret a).
Proof. by intros s. Qed.

Lemma keeps_raise {A} e : keeps_unbound x (raise (A := A) e).
Proof. by intros s. Qed.

Lemma keeps_lift {A} (r : res A) : keeps_unbound x (lift r).
Proof. destruct r; [apply keeps_ret | apply keeps_raise]. Qed.

Lemma keeps_emit ev : keeps_unbound x (emit ev).
Proof. by intros s. Qed.

Lemma keeps_assign y v : y <> x -> keeps_unbound x (assign y v).
Proof.
  intros Hy s Hs. unfold unbound in *. cbn. by rewrite lookup_insert_ne.
Qed.

Lemma keeps_name y : keeps_unbound x (name y).
Proof. intros s Hs. unfold name. by destruct (locals s !! y). Qed.

Lemma keeps_bind {A B} (c : M frame A) (k : A -> M frame B) :
  keeps_unbound x c -> (forall a, keeps_unbound x (k a)) ->
  keeps_unbound x (bind c k).
Proof.
  intros Hc Hk s Hs. unfold bind. specialize (Hc s Hs).
  destruct (c s) as [a t | e t]; cbn in Hc |- *; [by apply Hk | done].
Qed.

Lemma keeps_for_each {A} (xs : list A) (body : A -> M frame unit) :
  (forall a, keeps_unbound x (body a)) -> keeps_unbound x (for_each xs body).
Proof.
  intros Hb. induction xs as [| a xs IH]; cbn [for_each].
  - apply keeps_ret.
  - apply keeps_bind; [apply Hb | intros _; exact IH].
Qed.

Lemma keeps_loadtxt fs path : keeps_unbound x (loadtxt fs path).
Proof.
  unfold loadtxt. apply keeps_bind; [apply keeps_emit | intros _].
  destruct (fs !! path); [apply keeps_ret | apply keeps_raise].
Qed.

Lemma keeps_load_into fs y path :
  y <> x -> keeps_unbound x (Stats.load_into fs y path).
Proof.
  intros Hy. unfold Stats.load_into.
  apply keeps_bind; [apply keeps_loadtxt | intros a].
  by apply keeps_assign.
Qed.

Lemma needs_name : needs x (name x).
Proof. intros s Hs. unfold name. unfold unbound in Hs. by rewrite Hs. Qed.

Lemma needs_bind_l {A B} (c : M frame A) (k : A -> M frame B) :
  needs x c -> needs x (bind c k).
Proof.
  intros Hc s Hs. specialize (Hc s Hs). unfold bind.
  by destruct (c s).
Qed.

Lemma needs_bind_r {A B} (c : M frame A) (k : A -> M frame B) :
  keeps_unbound x c -> (forall a, needs x (k a)) -> needs x (bind c k).
Proof.
  intros Hc Hk s Hs. specialize (Hc s Hs). unfold bind.
  destruct (c s) as [a t | e t]; cbn in Hc |- *; [by apply Hk | done].
Qed.

End UnboundFacts.

Ltac keeps_auto :=
  repeat first
    [ apply keeps_ret | apply keeps_raise | apply keeps_lift
    | apply keeps_emit | apply keeps_name | apply keeps_loadtxt
    | apply keeps_assign; discriminate
    | apply keeps_load_into; discriminate
    | apply keeps_bind; [| intros ?]
    | apply keeps_for_each; intros ?
    | match goal with
      | |- keeps_unbound _ (if ?b then _ else _) => destruct b
      | |- keeps_unbound _ (match ?v with _ => _ end) => destruct v
      end ].

(** ** [plot_optimization_results]: turbine counts without data *)

Section StatsEdgeFacts.
Variable fs : gmap string Np.matrix.

Lemma name_arr2_unbound x s :
  locals s !! x = None -> name_arr2 x s = Raised (UnboundLocalError x) s.
Proof. intros H. unfold name_arr2, bind, name. by rewrite H. Qed.

Lemma snopt_block_unbound model s :
  locals s !! "data_snopt_no_wec" = None ->
  Stats.snopt_block model s
  = Raised (UnboundLocalError "data_snopt_no_wec") s.
Proof.
  intros H. unfold Stats.snopt_block, Stats.name_matrix.
  by erewrite bind_Raised by (by apply name_arr2_unbound).
Qed.

Lemma keeps_tmax_nine ps_wec :
  keeps_unbound "tmax_aep" (Stats.load_results fs 9 "BPA" ps_wec).
Proof.
  unfold Stats.load_results, Sweep.unsupported_guard.
  change (String.eqb "BPA" "BPA") with true.
  change (9 =? 9)%Z with true. change (9 =? 16)%Z with false.
  change (9 =? 38)%Z with false. change (9 =? 60)%Z with false.
  cbv iota. keeps_auto.
Qed.

Lemma snopt_block_needs_tmax model : needs "tmax_aep" (Stats.snopt_block model).
Proof.
  unfold Stats.snopt_block, Stats.name_matrix, name_arr2, name_num.
  repeat lazymatch goal with
         | |- needs _ (bind (bind (name "tmax_aep") _) _) => fail
         | |- needs _ (bind _ _) =>
             apply needs_bind_r; [keeps_auto | intros ?]
         end.
  apply needs_bind_l, needs_bind_l, needs_name.
Qed.

End StatsEdgeFacts.

(** X7: for a model and turbine count no branch has data for, no table is
    read: the BPA branch builds its [ValueError] without raising it, the
    other branches have no [else], and the call fails on the unbound
    [data_snopt_no_wec]. *)
Theorem plot_optimization_results_without_data
    (fs : gmap string Np.matrix) (nturbs : Z) (model : string)
    (ps_wec : bool) :
  loads_tables model nturbs = false ->
  let o := Stats.plot_optimization_results fs nturbs model ps_wec
             empty_frame in
  raised o = Some (UnboundLocalError "data_snopt_no_wec")
  /\ loads (trace (final_state o)) = []
  /\ (model = "BPA" ->
      trace (final_state o)
      = [EvBuild (ValueError
           ("please include results for " ++ pyfmt_i nturbs
            ++ " turbines before rerunning the plotting script"))]).
Proof.
  intros H. cbv zeta. unfold loads_tables, existsb in H.
  unfold Stats.plot_optimization_results, Stats.load_results,
    Sweep.unsupported_guard.
  destruct (String.eqb model "BPA") eqn:Hb.
  - rewrite orb_false_r, andb_true_l in H.
    destruct (nturbs =? 9)%Z; [done |].
    destruct (nturbs =? 16)%Z; [done |].
    destruct (nturbs =? 38)%Z; [done |].
    destruct (nturbs =? 60)%Z; [done |].
    unfold empty_frame. repeat step.
    erewrite bind_Raised by (apply snopt_block_unbound; lookup_now).
    repeat split; reflexivity.
  - rewrite andb_false_l, orb_false_l in H.
    assert (Hm : model <> "BPA") by (by apply String.eqb_neq).
    destruct (String.eqb model "JENSEN").
    + rewrite andb_true_l, orb_false_r in H.
      destruct (nturbs =? 16)%Z; [done |].
      destruct (nturbs =? 38)%Z; [done |].
      unfold empty_frame. repeat step.
      erewrite bind_Raised by (apply snopt_block_unbound; lookup_now).
      repeat split; try reflexivity. done.
    + unfold empty_frame. repeat step.
      erewrite bind_Raised by (apply snopt_block_unbound; lookup_now).
      repeat split; try reflexivity. done.
Qed.

Lemma plot_optimization_results_without_data_witness :
  raised (Stats.plot_optimization_results case16 12 "BPA" false empty_frame)
  = Some (UnboundLocalError "data_snopt_no_wec")
  /\ raised (Stats.plot_optimization_results case16 60 "JENSEN" false
               empty_frame)
     = Some (UnboundLocalError "data_snopt_no_wec").
Proof.
  split.
  - apply (plot_optimization_results_without_data case16 12 "BPA" false).
    reflexivity.
  - apply (plot_optimization_results_without_data case16 60 "JENSEN" false).
    reflexivity.
Defined.

(** X8: the nine-turbine branch loads five tables but never sets
    [tmax_aep], and the chain that follows has no branch for nine
    turbines either: whatever the files hold, a call with [nturbs = 9]
    cannot complete. *)
Theorem plot_optimization_results_nine_turbines
    (fs : gmap string Np.matrix) (ps_wec : bool) :
  raised (Stats.plot_optimization_results fs 9 "BPA" ps_wec empty_frame)
  <> None.
Proof.
  unfold Stats.plot_optimization_results.
  apply (needs_bind_r "tmax_aep"); [apply keeps_tmax_nine | intros _ | done].
  apply needs_bind_l, snopt_block_needs_tmax.
Qed.

(** ** [plot_alpso_tests]: what a completed call has read *)

Section AlpsoEdgeFacts.
Variable asfarray : list string -> res (list float).
Variable tfs : gmap string string.

Lemma plot_curve_done case ii s s' :
  Alpso.plot_curve asfarray tfs case ii s = Done tt s' ->
  exists text obj fcalls,
    tfs !! Alpso.datafile case ii = Some text
    /\ asfarray (Re.objective text) = Ok obj
    /\ asfarray (Re.evaluations text) = Ok fcalls
    /\ length fcalls = length obj.
Proof.
  unfold Alpso.plot_curve, parse_alpso_files, Convergence.open_text.
  intros H.
  repeat (rewrite ?bind_bind, ?bind_emit, ?bind_ret in H).
  destruct (tfs !! Alpso.datafile case ii) as [text |] eqn:Hf; [| done].
  repeat (cbv iota in H; rewrite ?bind_bind, ?bind_emit, ?bind_ret in H).
  cbn [fst snd] in H.
  destruct (asfarray (Re.objective text)) as [obj |] eqn:Ho; [| done].
  rewrite bind_lift_Ok in H.
  destruct (asfarray (Re.evaluations text)) as [fcalls |] eqn:He; [| done].
  rewrite bind_lift_Ok in H.
  destruct (length fcalls =? length obj)%nat eqn:Hl; [| done].
  exists text, obj, fcalls. repeat split; try done.
  by apply Nat.eqb_eq.
Qed.

Lemma chart_done save_figs show_figs case s s' :
  Alpso.chart asfarray tfs save_figs show_figs case s = Done tt s' ->
  forall ii, In ii [5; 10; 15; 20; 25; 30]%Z ->
  exists s1 s2, Alpso.plot_curve asfarray tfs case ii s1 = Done tt s2.
Proof.
  unfold Alpso.chart. rewrite bind_emit. unfold bind at 1.
  destruct (for_each _ _ _) as [[] t | e t] eqn:E; [| done].
  intros _. by eapply for_each_done.
Qed.

End AlpsoEdgeFacts.

(** X9: a call of [plot_alpso_tests] that completes has found all
    twenty-four tuning logs, each with tokens that [np.asfarray] accepts,
    and with as many evaluation counts as objective values: a missing
    log, an unparsable token or unequal counts end the call. *)
Theorem plot_alpso_tests_reads_every_log
    (asfarray : list string -> res (list float)) (tfs : gmap string string)
    (filename : string) (save_figs show_figs : bool) :
  raised (Alpso.plot_alpso_tests asfarray tfs filename save_figs show_figs
            empty_frame) = None ->
  forall case ii,
    In case Alpso.cases -> In ii [5; 10; 15; 20; 25; 30]%Z ->
    exists text obj fcalls,
      tfs !! Alpso.datafile case ii = Some text
      /\ asfarray (Re.objective text) = Ok obj
      /\ asfarray (Re.evaluations text) = Ok fcalls
      /\ length fcalls = length obj.
Proof.
  unfold Alpso.plot_alpso_tests. rewrite bind_assign.
  intros H case ii Hc Hi.
  destruct (for_each _ _ _) as [[] t | e t] eqn:E; [| done].
  destruct (for_each_done _ _ _ _ E case Hc) as (s1 & s2 & Hchart).
  destruct (chart_done _ _ _ _ _ _ _ Hchart ii Hi) as (s3 & s4 & Hcurve).
  by eapply plot_curve_done.
Qed.

Lemma plot_alpso_tests_reads_every_log_witness :
  exists text,
    empty_logs !! Alpso.datafile (60, 72, "amalia")%Z 30 = Some text.
Proof.
  destruct (plot_alpso_tests_reads_every_log parse_all empty_logs "" true
              false ltac:(vm_compute; reflexivity) (60, 72, "amalia")%Z 30%Z)
    as (text & obj & fcalls & H & _).
  - right. right. right. by left.
  - do 5 right. by left.
  - by exists text.
Defined.

(** ** [plot_windrose]: when it completes and what it draws *)

Section WindroseFacts.
Import Windrose.

Lemma circles_app style t1 t2 :
  circles style (t1 ++ t2) = (circles style t1 ++ circles style t2)%list.
Proof. unfold circles. apply omap_app. Qed.

Lemma circles_same {A} style (f : A -> float) (xs : list A) :
  circles style (map (fun x => EvCircle (f x) style) xs) = map f xs.
Proof.
  unfold circles. induction xs as [| x xs IH]; [done |].
  cbn. by rewrite String.eqb_refl, IH.
Qed.

Lemma circles_other {A} style style' (f : A -> float) (xs : list A) :
  String.eqb style' style = false ->
  circles style (map (fun x => EvCircle (f x) style') xs) = [].
Proof.
  intros H. unfold circles. induction xs as [| x xs IH]; [done |].
  cbn. by rewrite H, IH.
Qed.



(** The dotted circles of one major tick. *)
Lemma minor_circles_trace (t dist : float) (n : nat) s :
  for_each (seq 0 n)
    (fun m => emit (EvCircle (t + Np.of_nat (S m) * dist) ":")) s
  = Done tt (Frame (locals s)
               (trace s ++ map (fun m => EvCircle
                                  (t + Np.of_nat (S m) * dist) ":")
                               (seq 0 n))).
Proof. apply for_each_emit. Qed.

Lemma minor_loop_trace (dist : float) (n : nat) (ticks : list float) s :
  for_each ticks (fun t =>
    for_each (seq 0 n)
      (fun m => emit (EvCircle (t + Np.of_nat (S m) * dist) ":"))) s
  = Done tt (Frame (locals s)
               (trace s ++ flat_map (fun t =>
                  map (fun m => EvCircle (t + Np.of_nat (S m) * dist) ":")
                      (seq 0 n)) ticks)).
Proof.
  revert s. induction ticks as [| t ticks IH]; intros s; cbn [for_each flat_map].
  - rewrite app_nil_r. by destruct s.
  - erewrite bind_Done by apply minor_circles_trace.
    rewrite IH. cbn [locals trace]. by rewrite <- app_assoc.
Qed.

Lemma circles_minor style (dist : float) (n : nat) (ticks : list float) :
  circles style (flat_map (fun t =>
     map (fun m => EvCircle (t + Np.of_nat (S m) * dist) ":") (seq 0 n))
     ticks)
  = if String.eqb ":" style
    then flat_map (fun t => map (fun m => t + Np.of_nat (S m) * dist)%float
                                (seq 0 n)) ticks
    else [].
Proof.
  induction ticks as [| t ticks IH]; cbn [flat_map].
  - by destruct (String.eqb ":" style).
  - rewrite circles_app, IH.
    destruct (String.eqb ":" style) eqn:E.
    + apply String.eqb_eq in E. subst style.
      by rewrite (circles_same ":"
                    (fun m => t + Np.of_nat (S m) * dist)%float).
    + by rewrite (circles_other style ":"
                    (fun m => t + Np.of_nat (S m) * dist)%float) by exact E.
Qed.

End WindroseFacts.

Section WindroseRun.
Import Windrose.
Local Open Scope float_scope.

(** The minor-tick spacing, [(ticks[1] - ticks[0]) / (minor_ticks + 1.)]. *)
Lemma plot_windrose_run direction values t0 t1 ticks minor_ticks show save
    file_name plot_radius s :
  direction <> [] ->
  let all := t0 :: t1 :: ticks in
  let dist := (t1 - t0) / (of_Z minor_ticks + 1) in
  plot_windrose direction values all minor_ticks show save file_name
    plot_radius s
  = if broadcast (length direction) (length values)
    then Done tt
      (Frame (locals s)
         (trace s ++ [EvSubplot]
          ++ map (fun t => EvCircle t "-") all
          ++ (if (0 <? minor_ticks)%Z
              then flat_map (fun t =>
                     map (fun m => EvCircle (t + Np.of_nat (S m) * dist) ":")
                         (seq 0 (Z.to_nat minor_ticks))) all
              else [])
          ++ [EvBar]
          ++ (if save then [EvSavefig file_name] else [])
          ++ (if show then [EvShow] else []))%list)
    else Raised shape_mismatch
      (Frame (locals s)
         (trace s ++ [EvSubplot]
          ++ map (fun t => EvCircle t "-") all
          ++ (if (0 <? minor_ticks)%Z
              then flat_map (fun t =>
                     map (fun m => EvCircle (t + Np.of_nat (S m) * dist) ":")
                         (seq 0 (Z.to_nat minor_ticks))) all
              else []))%list).
Proof.
  intros Hd all dist. unfold plot_windrose, bar.
  assert (Hr : exists r,
             match plot_radius with
             | Some r => ret r
             | None => lift (py_max all)
             end s = Done r s).
  { destruct plot_radius; [by eexists | by eexists]. }
  destruct Hr as [r Hr]. erewrite bind_Done by exact Hr.
  rewrite !length_map.
  destruct direction as [| d direction]; [done |].
  cbn [length Nat.eqb]. rewrite bind_ret, bind_emit.
  cbn [locals trace].
  change (Np.item all 1) with (Ok (A := float) t1).
  change (Np.item all 0) with (Ok (A := float) t0).
  rewrite !bind_lift_Ok.
  erewrite bind_Done by apply (for_each_emit (fun t => EvCircle t "-")).
  cbn [locals trace]. fold dist.
  change (1 <? length all)%nat with true. rewrite andb_true_r.
  clearbody all dist.
  destruct (0 <? minor_ticks)%Z.
  - erewrite bind_Done by apply minor_loop_trace.
    cbn [locals trace]. rewrite !length_map. cbn [length].
    destruct (broadcast _ _); cbv iota.
    + rewrite bind_emit. cbn [locals trace].
      destruct save, show; rewrite ?bind_emit, ?bind_ret;
        cbv [emit ret]; cbn [locals trace]; rewrite <- ?app_assoc;
        cbn [app]; rewrite ?app_nil_r; reflexivity.
    + cbv [bind raise]. rewrite <- ?app_assoc. reflexivity.
  - rewrite bind_ret. rewrite !length_map. cbn [length].
    destruct (broadcast _ _); cbv iota.
    + rewrite bind_emit. cbn [locals trace].
      destruct save, show; rewrite ?bind_emit, ?bind_ret;
        cbv [emit ret]; cbn [locals trace]; rewrite <- ?app_assoc;
        cbn [app]; rewrite ?app_nil_r; reflexivity.
    + cbv [bind raise]. rewrite <- ?app_assoc, ?app_nil_r. reflexivity.
Qed.

(** A call that completes had a direction array, two ticks or more, and
    heights that fit the directions. *)
Lemma plot_windrose_done direction values ticks minor_ticks show save
    file_name plot_radius s :
  raised (plot_windrose direction values ticks minor_ticks show save
            file_name plot_radius s) = None ->
  direction <> []
  /\ broadcast (length direction) (length values) = true
  /\ exists t0 t1 rest, ticks = t0 :: t1 :: rest.
Proof.
  intros Hdone.
  destruct direction as [| d direction].
  { unfold plot_windrose in Hdone.
    destruct plot_radius, ticks; discriminate Hdone. }
  split; [done |].
  destruct ticks as [| t0 [| t1 ticks]].
  - unfold plot_windrose in Hdone. destruct plot_radius; discriminate Hdone.
  - unfold plot_windrose in Hdone. destruct plot_radius; discriminate Hdone.
  - rewrite plot_windrose_run in Hdone by done.
    destruct (broadcast _ _); [| discriminate Hdone].
    split; [done | by eexists _, _, _].
Qed.

End WindroseRun.



(** X11: a completed call has drawn one solid circle per tick, at the
    tick, and beyond every tick, the outermost one included,
    [minor_ticks] dotted circles spaced by
    [(ticks[1] - ticks[0]) / (minor_ticks + 1)], whatever the spacing of
    the later ticks. *)
Theorem plot_windrose_circles
    (direction values ticks : list float) (minor_ticks : Z)
    (show save : bool) (file_name : string) (plot_radius : option float) :
  let o := Windrose.plot_windrose direction values ticks minor_ticks show
             save file_name plot_radius empty_frame in
  raised o = None ->
  circles "-" (trace (final_state o)) = ticks
  /\ exists t0 t1 rest,
       ticks = t0 :: t1 :: rest
       /\ circles ":" (trace (final_state o))
          = flat_map (fun t =>
              map (fun m => t + Np.of_nat (S m)
                                * ((t1 - t0)
                                   / (Windrose.of_Z minor_ticks + 1)))%float
                  (seq 0 (Z.to_nat minor_ticks))) ticks.
Proof.
  intros o Hdone.
  destruct (plot_windrose_done _ _ _ _ _ _ _ _ _ Hdone)
    as (Hd & Hok & t0 & t1 & rest & ->).
  subst o. rewrite plot_windrose_run by exact Hd. rewrite Hok.
  cbn [final_state trace empty_frame].
  change ([] ++ ?l)%list with l.
  rewrite !circles_app.
  split.
  - rewrite (circles_same "-" (fun t : float => t)), map_id.
    assert (Hm : forall l dist, circles "-"
              (if (0 <? minor_ticks)%Z
               then flat_map (fun t => map (fun m =>
                      EvCircle (t + Np.of_nat (S m) * dist)%float ":")
                      (seq 0 (Z.to_nat minor_ticks))) l
               else []) = []).
    { intros l dist. destruct (0 <? minor_ticks)%Z; [| done].
      by rewrite circles_minor. }
    rewrite Hm. destruct save, show; cbn; by rewrite app_nil_r.
  - exists t0, t1, rest. split; [done |].
    rewrite (circles_other ":" "-" (fun t : float => t)) by done.
    destruct (0 <? minor_ticks)%Z eqn:Hpos.
    + rewrite circles_minor. cbn [String.eqb Ascii.eqb Bool.eqb].
      destruct save, show; cbn; by rewrite app_nil_r.
    + assert (Z.to_nat minor_ticks = 0%nat) as ->
        by (apply Z.ltb_ge in Hpos; lia).
      cbn [seq map].
      assert (Hnil : forall l : list float,
                flat_map (fun _ : float => @nil float) l = []).
      { induction l; [done | by cbn]. }
      rewrite Hnil. by destruct save, show.
Qed.

Lemma plot_windrose_circles_witness :
  circles ":" (trace (final_state
    (Windrose.plot_windrose [0; 90]%float [1; 2]%float [0; 5]%float 1 false
       true "rose.pdf" None empty_frame)))
  = [2.5; 7.5]%float.
Proof.
  destruct (plot_windrose_circles [0; 90]%float [1; 2]%float [0; 5]%float 1
              false true "rose.pdf" None eq_refl)
    as (_ & t0 & t1 & rest & Ht & Hc).
  injection Ht as <- <- <-. rewrite Hc. reflexivity.
Defined.

(** X12: [plot_radius] is dead.  With at least one tick the argument is
    never looked at again after its default is computed: any value gives
    the same run as the default. *)
Theorem plot_windrose_ignores_plot_radius
    (direction values ticks : list float) (minor_ticks : Z)
    (show save : bool) (file_name : string) (r : float) (s : frame) :
  ticks <> [] ->
  Windrose.plot_windrose direction values ticks minor_ticks show save
    file_name (Some r) s
  = Windrose.plot_windrose direction values ticks minor_ticks show save
      file_name None s.
Proof.
  intros Ht. destruct ticks as [| t ticks]; [done |].
  unfold Windrose.plot_windrose.
  rewrite bind_ret. unfold Windrose.py_max. by rewrite bind_lift_Ok.
Qed.

Lemma plot_windrose_ignores_plot_radius_witness :
  Windrose.plot_windrose [0; 90]%float [1; 2]%float [0; 5]%float 1 false true
    "rose.pdf" (Some 100%float) empty_frame
  = Windrose.plot_windrose [0; 90]%float [1; 2]%float [0; 5]%float 1 false
      true "rose.pdf" None empty_frame.
Proof.
  apply (plot_windrose_ignores_plot_radius [0; 90]%float [1; 2]%float
           [0; 5]%float 1 false true "rose.pdf" 100%float empty_frame).
  discriminate.
Defined.

(** ** [get_statistics_case_studies] *)

Section CaseStudiesFacts.
Import CaseStudies.
Variable fs : gmap string Np.matrix.

Lemma name_arr2_cases x s :
  (exists v, locals s !! x = Some (VArr2 v) /\ name_arr2 x s = Done v s)
  \/ (exists e, name_arr2 x s = Raised e s).
Proof.
  unfold name_arr2, name, bind.
  destruct (locals s !! x) as [[] |]; eauto.
Qed.

Lemma print_block_run who values s :
  Stats38.print_block who values s
  = Done tt (Frame (locals s)
               (trace s ++ map (fun r => EvPrint (who ++ " " ++ fst r) (snd r))
                               (zip Stats38.labels values))).
Proof. apply for_each_emit. Qed.

Lemma saves_prints (f : string * float -> event) l :
  (forall r, exists lbl v, f r = EvPrint lbl v) ->
  Alpso.saves (map f l) = [].
Proof.
  intros Hf. unfold Alpso.saves. induction l as [| r l IH]; [done |].
  cbn. destruct (Hf r) as (lbl & v & ->). exact IH.
Qed.

Lemma load_into_found x path a s :
  fs !! path = Some a ->
  Stats.load_into fs x path s
  = Done tt (Frame (<[x := VArr2 a]> (locals s))
                   (trace s ++ [EvLoadtxt path])).
Proof.
  intros H. unfold Stats.load_into.
  by erewrite bind_Done by (by apply loadtxt_found).
Qed.

Lemma load_into_missing x path s :
  fs !! path = None ->
  Stats.load_into fs x path s
  = Raised (OSError path)
      (Frame (locals s) (trace s ++ [EvLoadtxt path])).
Proof.
  intros H. unfold Stats.load_into.
  by erewrite bind_Raised by (by apply loadtxt_missing).
Qed.

End CaseStudiesFacts.

(** Runs a computation on symbolic data: every fallible pure step either
    returns or ends the run. *)
Ltac exec_fail :=
  let Hx := fresh in
  intros Hx; first [discriminate Hx | cbn in Hx; discriminate Hx].

Ltac exec :=
  repeat first
    [ rewrite bind_bind
    | rewrite bind_assign; cbn [locals trace]
    | rewrite bind_emit; cbn [locals trace]
    | rewrite bind_ret
    | rewrite bind_lift_Ok
    | rewrite bind_lift_Err; exec_fail
    | match goal with
      | |- context [bind (lift ?r) _ _] =>
          let E := fresh "E" in destruct r eqn:E
      end ].

Ltac flatten_run :=
  repeat (rewrite ?bind_bind, ?bind_assign, ?bind_ret; cbn [locals trace]).

Ltac load_ok H :=
  flatten_run;
  erewrite bind_Done by (apply load_into_found; exact H);
  cbn [locals trace].

(** X13: a turbine count other than 16, 38 and 60 selects no branch: no
    table is read, nothing is printed and the call fails on the unbound
    [data_snopt_relax]. *)
Theorem get_statistics_case_studies_unknown_count
    (fs : gmap string Np.matrix) (turbs : Z) (dirs : option Z)
    (fnamstart : string) (save_figs show_figs lt0 : bool) :
  turbs <> 16%Z -> turbs <> 38%Z -> turbs <> 60%Z ->
  CaseStudies.get_statistics_case_studies fs turbs dirs fnamstart save_figs
    show_figs lt0 empty_frame
  = Raised (UnboundLocalError "data_snopt_relax") empty_frame.
Proof.
  intros H16 H38 H60. apply Z.eqb_neq in H16, H38, H60.
  unfold CaseStudies.get_statistics_case_studies, CaseStudies.select.
  rewrite H16, H38, H60, bind_ret. unfold CaseStudies.analyze.
  by erewrite bind_Raised by (by apply name_arr2_unbound).
Qed.

Lemma get_statistics_case_studies_unknown_count_witness :
  raised (CaseStudies.get_statistics_case_studies case38_both 9 None ""
            false true true empty_frame)
  = Some (UnboundLocalError "data_snopt_relax").
Proof.
  rewrite (get_statistics_case_studies_unknown_count case38_both 9 None ""
             false true true); [reflexivity | lia | lia | lia].
Defined.

(** X14: for 38 turbines the three 36-direction tables are read first,
    whatever [dirs] is; [dirs = 12] only adds three more loads that
    replace them.  So a call for 12 directions fails when the
    36-direction ALPSO table is missing, and reaches the 12-direction
    tables only after the other three loads. *)
Theorem get_statistics_case_studies_38_reads_36_first
    (fs : gmap string Np.matrix) (dirs : option Z) (fnamstart : string)
    (save_figs show_figs lt0 : bool) :
  let run d := CaseStudies.get_statistics_case_studies fs 38 d fnamstart
                 save_figs show_figs lt0 empty_frame in
  let d36 := "./image_data/opt_results/20200821-38-turbs-36-dir-fcall-and-conv-history/" in
  let d12 := "./image_data/opt_results/20200821-38-turbs-12-dir-fcall-and-conv-history/" in
  let snopt36 := d36 ++ "snopt/" ++ Stats.rundata "snopt" "38" "nantucket" "36" in
  let relax36 := d36 ++ "snopt_wec_diam_max_wec_3_nsteps_6.000/"
                 ++ Stats.rundata "snopt" "38" "nantucket" "36" in
  let ps12 := d12 ++ "ps/" ++ Stats.rundata "ps" "38" "nantucket" "12" in
  (fs !! ps_table_38_36 = None ->
   raised (run dirs) = Some (OSError ps_table_38_36)
   /\ trace (final_state (run dirs)) = [EvLoadtxt ps_table_38_36])
  /\ (is_Some (fs !! ps_table_38_36) -> is_Some (fs !! snopt36) ->
      is_Some (fs !! relax36) -> fs !! ps12 = None ->
      raised (run (Some 12%Z)) = Some (OSError ps12)
      /\ trace (final_state (run (Some 12%Z)))
         = [EvLoadtxt ps_table_38_36; EvLoadtxt snopt36; EvLoadtxt relax36;
            EvLoadtxt ps12]).
Proof.
  intros run d36 d12 snopt36 relax36 ps12. subst run. cbv beta.
  unfold CaseStudies.get_statistics_case_studies, CaseStudies.select.
  change (38 =? 16)%Z with false. change (38 =? 38)%Z with true. cbv iota.
  unfold CaseStudies.load_tables, empty_frame.
  split.
  - intros H. repeat (rewrite ?bind_bind, ?bind_assign; cbn [locals trace]).
    erewrite bind_Raised by (apply load_into_missing; exact H).
    split; reflexivity.
  - intros [a1 H1] [a2 H2] [a3 H3] H4.
    change (CaseStudies.is_count (Some 12%Z) 12) with true. cbv iota.
    load_ok H1. load_ok H2. load_ok H3. flatten_run.
    erewrite bind_Raised by (apply load_into_missing; exact H4).
    split; reflexivity.
Qed.

Lemma get_statistics_case_studies_38_reads_36_first_witness :
  raised (CaseStudies.get_statistics_case_studies ∅ 38 (Some 12%Z) "" false
            true true empty_frame)
  = Some (OSError ps_table_38_36).
Proof.
  apply (get_statistics_case_studies_38_reads_36_first ∅ (Some 12%Z) ""
           false true true).
  apply lookup_empty.
Defined.

Section CaseStudiesRun.
Import CaseStudies.
Local Open Scope float_scope.
Variable fs : gmap string Np.matrix.

Lemma add_self (a : list float) : Np.add a a = Ok (doubled a).
Proof.
  unfold doubled.
  induction a as [| x a IH]; [done |]. cbn [Np.add map]. by rewrite IH.
Qed.

Lemma wp_load_into x path Q E s :
  (forall a, fs !! path = Some a ->
             Q tt (Frame (<[x := VArr2 a]> (locals s))
                         (trace s ++ [EvLoadtxt path]))) ->
  (fs !! path = None ->
   E (OSError path) (Frame (locals s) (trace s ++ [EvLoadtxt path]))) ->
  wp (Stats.load_into fs x path) Q E s.
Proof.
  intros HQ HE. unfold Stats.load_into. apply wp_bind, wp_loadtxt.
  - intros a Ha. by apply wp_assign, HQ.
  - exact HE.
Qed.

Lemma wp_name_arr2 x a Q E s :
  locals s !! x = Some (VArr2 a) -> Q a s -> wp (name_arr2 x) Q E s.
Proof. intros H HQ. unfold wp. by rewrite (name_arr2_bound _ _ _ H). Qed.

Lemma wp_name_arr x a Q E s :
  locals s !! x = Some (VArr a) -> Q a s -> wp (name_arr x) Q E s.
Proof. intros H HQ. unfold wp. by rewrite (name_arr_bound _ _ _ H). Qed.

Lemma wp_print_block who values Q E s :
  Q tt (Frame (locals s)
          (trace s ++ map (fun r => EvPrint (who ++ " " ++ fst r) (snd r))
                          (zip Stats38.labels values))) ->
  wp (Stats38.print_block who values) Q E s.
Proof. intros H. unfold wp. by rewrite print_block_run. Qed.

Lemma wp_keep_nonnegative x a Q E s :
  locals s !! x = Some (VArr a) ->
  Q tt (Frame (<[x := VArr (List.filter (fun v => 0 <=? v) a)]>
                 (locals s)) (trace s)) ->
  wp (keep_nonnegative x) Q E s.
Proof.
  intros H HQ. unfold keep_nonnegative.
  eapply wp_bind, wp_name_arr; [exact H |]. by apply wp_assign.
Qed.

End CaseStudiesRun.

Ltac lk :=
  cbn [locals];
  repeat (rewrite lookup_insert_ne by discriminate);
  apply lookup_insert_eq.

(** Symbolic execution of a run whose failures need no description. *)
Ltac wp_run fs :=
  repeat (cbv beta; lazymatch goal with
  | |- wp (bind _ _) _ _ _ => apply wp_bind
  | |- wp (ret _) _ _ _ => apply wp_ret
  | |- wp (raise _) _ _ _ => exact I
  | |- wp (assign _ _) _ _ _ => apply wp_assign; cbn [locals trace]
  | |- wp (emit _) _ _ _ => apply wp_emit; cbn [locals trace]
  | |- wp (lift (Ok _)) _ _ _ => apply wp_ret
  | |- wp (lift (Err _)) _ _ _ => exact I
  | |- wp (lift (Np.add ?a ?a)) _ _ _ => rewrite add_self
  | |- wp (lift (rbind ?r _)) _ _ _ =>
      let E := fresh "E" in destruct r eqn:E; cbn [rbind]
  | |- wp (lift ?r) _ _ _ => let E := fresh "E" in destruct r eqn:E
  | |- wp (Stats.load_into fs _ _) _ _ _ =>
      apply wp_load_into; [intros ? ?; cbn [locals trace] | intros ?; exact I]
  | |- wp (name_arr2 _) _ _ _ => eapply wp_name_arr2; [lk |]
  | |- wp (name_arr _) _ _ _ => eapply wp_name_arr; [lk |]
  | |- wp (CaseStudies.keep_nonnegative _) _ _ _ =>
      eapply wp_keep_nonnegative; [lk | cbn [locals trace]]
  | |- wp (Stats38.print_block _ _) _ _ _ =>
      apply wp_print_block; cbn [locals trace]
  | |- wp (if ?b then _ else _) _ _ _ => destruct b
  end).

Ltac case_studies_done :=
  split; [| split];
  [ unfold relaxed_call_sample; eexists _, _, _, _, _, _;
    split; [lk |];
    split; [eassumption |]; split; [eassumption |];
    split; [eassumption |];
    split; [lk |]; split; [lk |];
    split; [eassumption |]; split; [eassumption |];
    reflexivity
  | reflexivity
  | lazymatch goal with
    | |- false = true -> _ => intros [=]
    | |- _ =>
        intros _; unfold improvement_baseline;
        eexists _, _, _, _, _, _, _, _, _, _;
        split; [lk |]; split; [lk |]; split; [lk |];
        split; [eassumption |];
        split; [eassumption |]; split; [eassumption |];
        split; [eassumption |];
        split; [eassumption |]; split; [eassumption |];
        split; [eassumption |];
        split; lk
    end ].

Lemma case_studies_wp (fs : gmap string Np.matrix) (turbs : Z)
    (dirs : option Z) (fnamstart : string) (save_figs show_figs lt0 : bool) :
  wp (CaseStudies.get_statistics_case_studies fs turbs dirs fnamstart
        save_figs show_figs lt0)
     (fun _ s' => relaxed_call_sample s'
                  /\ Alpso.saves (trace s')
                     = (if save_figs then [fnamstart ++ "_percentaep.pdf"]
                        else [])
                  /\ (lt0 = true -> improvement_baseline s'))
     (fun _ _ => True) empty_frame.
Proof.
  unfold CaseStudies.get_statistics_case_studies, CaseStudies.select,
    CaseStudies.load_tables, CaseStudies.analyze, Stats38.call_stats,
    Stats38.aep_stats, empty_frame.
  destruct (turbs =? 16)%Z eqn:H16;
    [apply Z.eqb_eq in H16; subst turbs; wp_run fs; case_studies_done |].
  destruct (turbs =? 38)%Z eqn:H38.
  { apply Z.eqb_eq in H38; subst turbs.
    destruct (CaseStudies.is_count dirs 12);
      wp_run fs; case_studies_done. }
  destruct (turbs =? 60)%Z eqn:H60;
    [apply Z.eqb_eq in H60; subst turbs; wp_run fs; case_studies_done |].
  unfold wp. rewrite bind_ret.
  by erewrite bind_Raised by (by apply name_arr2_unbound).
Qed.

(** X15: in a completed call the sample called [sr_tscalls] is the
    function-call column again (column 9 of the rows whose column 1 is
    1), like [sr_tfcalls]; column 10 is not used.  The five call
    statistics printed for the relaxed runs are those of twice the
    function calls. *)
Theorem get_statistics_case_studies_call_sample
    (fs : gmap string Np.matrix) (turbs : Z) (dirs : option Z)
    (fnamstart : string) (save_figs show_figs lt0 : bool) :
  let o := CaseStudies.get_statistics_case_studies fs turbs dirs fnamstart
             save_figs show_figs lt0 empty_frame in
  raised o = None -> relaxed_call_sample (final_state o).
Proof.
  intros o Hdone.
  destruct (wp_done _ _ _ _ (case_studies_wp fs turbs dirs fnamstart
                              save_figs show_figs lt0) Hdone)
    as (_ & _ & H & _).
  exact H.
Qed.

Lemma get_statistics_case_studies_call_sample_witness :
  relaxed_call_sample
    (final_state (CaseStudies.get_statistics_case_studies case38_both 38
                    (Some 12%Z) "fig" true false true empty_frame)).
Proof.
  apply (get_statistics_case_studies_call_sample case38_both 38 (Some 12%Z)
           "fig" true false true).
  vm_compute. reflexivity.
Defined.

(** X16: a completed call has written one file when [save_figs] is set,
    named [fnamstart] followed by "_percentaep.pdf", and none
    otherwise. *)
Theorem get_statistics_case_studies_saves
    (fs : gmap string Np.matrix) (turbs : Z) (dirs : option Z)
    (fnamstart : string) (save_figs show_figs lt0 : bool) :
  let o := CaseStudies.get_statistics_case_studies fs turbs dirs fnamstart
             save_figs show_figs lt0 empty_frame in
  raised o = None ->
  Alpso.saves (trace (final_state o))
  = if save_figs then [fnamstart ++ "_percentaep.pdf"] else [].
Proof.
  intros o Hdone.
  destruct (wp_done _ _ _ _ (case_studies_wp fs turbs dirs fnamstart
                              save_figs show_figs lt0) Hdone)
    as (_ & _ & _ & H & _).
  exact H.
Qed.

Lemma get_statistics_case_studies_saves_witness :
  Alpso.saves (trace (final_state
    (CaseStudies.get_statistics_case_studies case38_both 38 (Some 12%Z)
       "fig" true false true empty_frame)))
  = ["fig_percentaep.pdf"].
Proof.
  apply (get_statistics_case_studies_saves case38_both 38 (Some 12%Z) "fig"
           true false true).
  vm_compute. reflexivity.
Defined.

(** X17: in a completed call with [lt0] set, the improvements of the
    plain SNOPT runs and of the ALPSO runs are taken relative to the
    baseline of the relaxed table (its row 0, column 5), not to the
    baselines of their own tables. *)
Theorem get_statistics_case_studies_baseline
    (fs : gmap string Np.matrix) (turbs : Z) (dirs : option Z)
    (fnamstart : string) (save_figs show_figs : bool) :
  let o := CaseStudies.get_statistics_case_studies fs turbs dirs fnamstart
             save_figs show_figs true empty_frame in
  raised o = None -> improvement_baseline (final_state o).
Proof.
  intros o Hdone.
  destruct (wp_done _ _ _ _ (case_studies_wp fs turbs dirs fnamstart
                              save_figs show_figs true) Hdone)
    as (_ & _ & _ & _ & H).
  by apply H.
Qed.

Lemma get_statistics_case_studies_baseline_witness :
  improvement_baseline
    (final_state (CaseStudies.get_statistics_case_studies case38_both 38
                    (Some 12%Z) "fig" true false true empty_frame)).
Proof.
  apply (get_statistics_case_studies_baseline case38_both 38 (Some 12%Z)
           "fig" true false).
  vm_compute. reflexivity.
Defined.

(** ** [plot_farm] and the smoothing figure *)

Section FigureFacts.
Variable fs : gmap string Np.matrix.

Lemma wp_name_str x a Q E s :
  locals s !! x = Some (VStr a) -> Q a s -> wp (name_str x) Q E s.
Proof. intros H HQ. unfold wp. by rewrite (name_str_bound _ _ _ H). Qed.

Lemma name_arr_unbound x s :
  locals s !! x = None -> name_arr x s = Raised (UnboundLocalError x) s.
Proof. intros H. unfold name_arr, bind, name. by rewrite H. Qed.

Lemma wp_for_each_emit {A} (f : A -> event) (xs : list A) Q E s :
  Q tt (Frame (locals s) (trace s ++ map f xs)) ->
  wp (for_each xs (fun x => emit (f x))) Q E s.
Proof. intros H. unfold wp. by rewrite for_each_emit. Qed.

Lemma col_length c (t : Np.matrix) l :
  Np.col c t = Ok l -> length l = length t.
Proof.
  intros H. apply col_lookup in H. symmetry. by eapply Forall2_length.
Qed.

Lemma col_width c (t : Np.matrix) l :
  Np.col c t = Ok l -> Forall (fun row : list float => (c < length row)%nat) t.
Proof.
  intros H. apply col_lookup in H.
  induction H as [| row v t l Hv _ IH]; constructor; [| exact IH].
  by eapply lookup_lt_Some.
Qed.

Lemma circles_const {A} style (r : float) (xs : list A) :
  circles style (map (fun _ => EvCircle r style) xs) = repeat r (length xs).
Proof.
  unfold circles. induction xs as [| x xs IH]; [done |].
  cbn. by rewrite String.eqb_refl, IH.
Qed.

Lemma circles_const_other {A} style style' (r : float) (xs : list A) :
  String.eqb style' style = false ->
  circles style (map (fun _ => EvCircle r style') xs) = [].
Proof.
  intros H. unfold circles. induction xs as [| x xs IH]; [done |].
  cbn. by rewrite H, IH.
Qed.

Lemma saves_const {A} (r : float) style (xs : list A) :
  Alpso.saves (map (fun _ => EvCircle r style) xs) = [].
Proof. unfold Alpso.saves. by induction xs. Qed.

End FigureFacts.

Ltac lk_none :=
  cbn [locals];
  repeat (rewrite lookup_insert_ne by discriminate);
  apply lookup_empty.

(** X18: [plot_farm] (the definition in force) does raise on a layout
    other than 'start' and 'finish': the [ValueError] leaves the call
    before a table is read or a figure is created. *)
Theorem plot_farm_rejects_unknown_layout
    (draw_boundary_60 : Np.matrix -> M frame unit)
    (fs : gmap string Np.matrix) (filename layout : string)
    (save_figs show_figs turb_nums : bool) (turbs : Z) :
  layout <> "start" -> layout <> "finish" ->
  let o := Farm.plot_farm draw_boundary_60 fs filename save_figs show_figs
             layout turb_nums turbs empty_frame in
  raised o = Some (ValueError "incorrect layout specified")
  /\ trace (final_state o) = [].
Proof.
  intros Hs Hf. apply String.eqb_neq in Hs, Hf. cbv zeta.
  unfold Farm.plot_farm, Farm.load_layout, empty_frame.
  rewrite bind_assign. cbn [locals trace]. rewrite bind_bind.
  erewrite (bind_Done (name_str _)) by (apply name_str_bound; lk).
  rewrite Hs, Hf. split; reflexivity.
Qed.

Lemma plot_farm_rejects_unknown_layout_witness :
  raised (Farm.plot_farm (fun _ => ret tt) farm38 "farm.pdf" true false
            "end" false 38 empty_frame)
  = Some (ValueError "incorrect layout specified").
Proof.
  apply (plot_farm_rejects_unknown_layout (fun _ => ret tt) farm38
           "farm.pdf" "end" true false false 38); discriminate.
Defined.

Section FigureRun.
Variable fs : gmap string Np.matrix.
Variable draw_boundary_60 : Np.matrix -> M frame unit.

Lemma map_const_repeat {A B} (c : B) (l : list A) :
  map (fun _ => c) l = repeat c (length l).
Proof. induction l; [done | by cbn; f_equal]. Qed.

Lemma wp_if_emit (b : bool) ev Q E s :
  Q tt (Frame (locals s) (trace s ++ (if b then [ev] else []))) ->
  wp (if b then emit ev else ret tt) Q E s.
Proof.
  destruct b; [done |]. rewrite app_nil_r. by destruct s.
Qed.

Lemma wp_draw_boundary turbs Q E s :
  turbs <> 60%Z ->
  Q tt (Frame (locals s) (trace s ++ Farm.boundary_events turbs)) ->
  wp (Farm.draw_boundary draw_boundary_60 turbs) Q E s.
Proof.
  intros H60 HQ. apply Z.eqb_neq in H60.
  unfold Farm.draw_boundary, Farm.boundary_events in *. rewrite H60.
  destruct (turbs =? 16)%Z; [done |].
  destruct (turbs =? 38)%Z; [done |].
  rewrite app_nil_r in HQ. by destruct s.
Qed.

End FigureRun.

Ltac wp_fig fs :=
  repeat (cbv beta; lazymatch goal with
  | |- wp (bind _ _) _ _ _ => apply wp_bind
  | |- wp (ret _) _ _ _ => apply wp_ret; cbn [locals trace]
  | |- wp (raise _) _ _ _ => exact I
  | |- wp (assign _ _) _ _ _ => apply wp_assign; cbn [locals trace]
  | |- wp (emit _) _ _ _ => apply wp_emit; cbn [locals trace]
  | |- wp (lift (Ok _)) _ _ _ => apply wp_ret
  | |- wp (lift (Err _)) _ _ _ => exact I
  | |- wp (lift (Np.item ?l ?i)) _ _ _ =>
      let r := eval vm_compute in (Np.item l i) in
      lazymatch r with
      | Ok _ => change (Np.item l i) with r
      | Err _ => change (Np.item l i) with r
      | _ => let E := fresh "E" in destruct (Np.item l i) eqn:E
      end
  | |- wp (lift ?r) _ _ _ => let E := fresh "E" in destruct r eqn:E
  | |- wp (Stats.load_into fs _ _) _ _ _ =>
      apply wp_load_into; [intros ? ?; cbn [locals trace] | intros ?; exact I]
  | |- wp (name_arr2 _) _ _ _ => eapply wp_name_arr2; [lk |]
  | |- wp (name_arr _) _ _ _ => eapply wp_name_arr; [lk |]
  | |- wp (name_str _) _ _ _ => eapply wp_name_str; [lk |]
  | |- wp (for_each _ (fun _ => emit _)) _ _ _ =>
      apply wp_for_each_emit; cbn [locals trace]
  | |- wp (if _ then emit _ else ret tt) _ _ _ =>
      apply wp_if_emit; cbn [locals trace]
  | |- wp (if ?b then _ else _) _ _ _ => destruct b
  end).

(** X19: a completed call of [plot_farm] for a farm other than the
    60-turbine one has read the layout file named after [turbs] and
    [layout], created one figure, drawn the boundary of the farm (none
    for a turbine count without a branch, which is accepted all the
    same), then one rotor circle of radius one half per row of the file,
    and written [filename] exactly when [save_figs] is set. *)
Theorem plot_farm_draws_every_turbine
    (draw_boundary_60 : Np.matrix -> M frame unit)
    (fs : gmap string Np.matrix) (filename layout : string)
    (save_figs show_figs turb_nums : bool) (turbs : Z) :
  turbs <> 60%Z ->
  let o := Farm.plot_farm draw_boundary_60 fs filename save_figs show_figs
             layout turb_nums turbs empty_frame in
  raised o = None ->
  exists table,
    fs !! Farm.layout_file layout turbs = Some table
    /\ trace (final_state o)
       = ([EvLoadtxt (Farm.layout_file layout turbs); EvSubplot]
          ++ Farm.boundary_events turbs
          ++ repeat (EvCircle 0.5 "-") (length table)
          ++ (if save_figs then [EvSavefig filename] else [])
          ++ (if show_figs then [EvShow] else []))%list.
Proof.
  intros H60 o Hdone.
  assert (Hwp : wp (Farm.plot_farm draw_boundary_60 fs filename save_figs
                      show_figs layout turb_nums turbs)
                  (fun _ s' =>
                     exists table,
                       fs !! Farm.layout_file layout turbs = Some table
                       /\ trace s'
                          = ([EvLoadtxt (Farm.layout_file layout turbs);
                              EvSubplot]
                             ++ Farm.boundary_events turbs
                             ++ repeat (EvCircle 0.5 "-") (length table)
                             ++ (if save_figs then [EvSavefig filename]
                                 else [])
                             ++ (if show_figs then [EvShow] else []))%list)
                  (fun _ _ => True) empty_frame).
  { unfold Farm.plot_farm, Farm.load_layout, Farm.layout_file, empty_frame.
    apply wp_bind, wp_assign. cbn [locals trace].
    apply wp_bind, wp_bind. eapply wp_name_str; [lk |].
    destruct (String.eqb layout "start") eqn:Hs;
      [| destruct (String.eqb layout "finish") eqn:Hf; [| exact I]].
    all: wp_fig fs.
    all: apply wp_draw_boundary; [done |]; cbn [locals trace].
    all: wp_fig fs.
    all: eexists; split; [eassumption |].
    all: rewrite map_const_repeat, length_zip, !length_map.
    all: repeat match goal with
                | H : Np.col _ _ = Ok _ |- _ =>
                    apply col_length in H; rewrite H
                end.
    all: rewrite Nat.min_id, <- !app_assoc; reflexivity. }
  destruct (wp_done _ _ _ _ Hwp Hdone) as (_ & _ & H). exact H.
Qed.

Lemma plot_farm_draws_every_turbine_witness :
  exists table,
    farm38 !! Farm.layout_file "finish" 38 = Some table
    /\ trace (final_state
                (Farm.plot_farm (fun _ => ret tt) farm38 "farm.pdf" true
                   false "finish" true 38 empty_frame))
       = ([EvLoadtxt (Farm.layout_file "finish" 38); EvSubplot]
          ++ Farm.boundary_events 38
          ++ repeat (EvCircle 0.5 "-") (length table)
          ++ [EvSavefig "farm.pdf"] ++ [])%list.
Proof.
  apply (plot_farm_draws_every_turbine (fun _ => ret tt) farm38 "farm.pdf"
           "finish" true false true 38); [lia | reflexivity].
Defined.

Section SmoothingFacts.
Variable fs : gmap string Np.matrix.

Lemma wp_name_arr_unbound x (Q : list float -> frame -> Prop) E s :
  locals s !! x = None -> E (UnboundLocalError x) s ->
  wp (name_arr x) Q E s.
Proof. intros H HE. unfold wp. by rewrite (name_arr_unbound _ _ H). Qed.

Lemma wp_name_arr2_unbound x (Q : Np.matrix -> frame -> Prop) E s :
  locals s !! x = None -> E (UnboundLocalError x) s ->
  wp (name_arr2 x) Q E s.
Proof. intros H HE. unfold wp. by rewrite (name_arr2_unbound _ _ H). Qed.

Lemma wp_load_into_any x path Q (E : exn -> frame -> Prop) s :
  (forall a, fs !! path = Some a ->
             Q tt (Frame (<[x := VArr2 a]> (locals s))
                         (trace s ++ [EvLoadtxt path]))) ->
  E (OSError path) (Frame (locals s) (trace s ++ [EvLoadtxt path])) ->
  wp (Stats.load_into fs x path) Q E s.
Proof. intros HQ HE. apply wp_load_into; auto. Qed.

End SmoothingFacts.

(** Symbolic execution in which every failure must satisfy the
    exceptional postcondition, proved by [tac]. *)
Ltac wp_all fs tac :=
  repeat (cbv beta; lazymatch goal with
  | |- wp (bind _ _) _ _ _ => apply wp_bind
  | |- wp (ret _) _ _ _ => apply wp_ret; cbn [locals trace]
  | |- wp (raise _) _ _ _ => apply wp_raise; tac
  | |- wp (assign _ _) _ _ _ => apply wp_assign; cbn [locals trace]
  | |- wp (emit _) _ _ _ => apply wp_emit; cbn [locals trace]
  | |- wp (lift (Ok _)) _ _ _ => apply wp_ret
  | |- wp (lift (Err _)) _ _ _ => apply wp_raise; tac
  | |- wp (lift (Np.item ?l ?i)) _ _ _ =>
      let r := eval vm_compute in (Np.item l i) in
      lazymatch r with
      | Ok _ => change (Np.item l i) with r
      | Err _ => change (Np.item l i) with r
      | _ => let E := fresh "E" in destruct (Np.item l i) eqn:E
      end
  | |- wp (lift ?r) _ _ _ => let E := fresh "E" in destruct r eqn:E
  | |- wp (Stats.load_into fs _ _) _ _ _ =>
      apply wp_load_into_any; [intros ? ?; cbn [locals trace] | tac]
  | |- wp (name_arr2 _) _ _ _ =>
      first [ eapply wp_name_arr2; [lk |]
            | apply wp_name_arr2_unbound; [lk_none | tac] ]
  | |- wp (name_arr _) _ _ _ =>
      first [ eapply wp_name_arr; [lk |]
            | apply wp_name_arr_unbound; [lk_none | tac] ]
  | |- wp (name_str _) _ _ _ => eapply wp_name_str; [lk |]
  | |- wp (Smoothing.plot_curve _) _ _ _ => unfold Smoothing.plot_curve
  | |- wp (for_each ?l Smoothing.plot_curve) _ _ _ =>
      let l' := eval vm_compute in l in
      change l with l'; cbn [for_each]
  | |- wp (if _ then emit _ else ret tt) _ _ _ =>
      apply wp_if_emit; cbn [locals trace]
  | |- wp (if ?b then _ else _) _ _ _ => destruct b
  end).

(** X20: the guard of the model selection never raises.  For a wake
    model other than "BPA" and "JENSEN" the [ValueError] is built and
    dropped, no table is read, and the call fails on the unbound
    [data]. *)
Theorem plot_smoothing_unknown_model
    (fs : gmap string Np.matrix) (filename wec_method wake_model : string)
    (save_figs show_figs : bool) :
  wake_model <> "BPA" -> wake_model <> "JENSEN" ->
  Smoothing.plot_smoothing_visualization_w_wec_wo_wec fs filename save_figs
    show_figs wec_method wake_model empty_frame
  = Raised (UnboundLocalError "data")
      (Frame ∅ [EvBuild (ValueError "Invalid model selection")]).
Proof.
  intros Hb Hj. apply String.eqb_neq in Hb, Hj.
  unfold Smoothing.plot_smoothing_visualization_w_wec_wo_wec,
    Smoothing.select.
  rewrite Hb, Hj, bind_emit.
  by erewrite bind_Raised by (by apply name_arr2_unbound).
Qed.

Lemma plot_smoothing_unknown_model_witness :
  raised (Smoothing.plot_smoothing_visualization_w_wec_wo_wec
            smoothing_files "s.pdf" true false "D" "FLORIS" empty_frame)
  = Some (UnboundLocalError "data").
Proof.
  rewrite (plot_smoothing_unknown_model smoothing_files "s.pdf" "D" "FLORIS"
             true false); [reflexivity | discriminate | discriminate].
Defined.

(** X21: a method the chosen model has no branch for ("A" and "H" with
    JENSEN, anything but "A", "D" and "H" with BPA) is not rejected
    either: the table is still read, but the WEC values are never set, so
    the call cannot complete, draws no curve and writes no file. *)
Theorem plot_smoothing_unconfigured_method
    (fs : gmap string Np.matrix) (filename wec_method wake_model : string)
    (save_figs show_figs : bool) :
  Smoothing.configured wec_method wake_model = false ->
  let o := Smoothing.plot_smoothing_visualization_w_wec_wo_wec fs filename
             save_figs show_figs wec_method wake_model empty_frame in
  raised o <> None
  /\ Smoothing.plots (trace (final_state o)) = 0%nat
  /\ Alpso.saves (trace (final_state o)) = [].
Proof.
  intros Hc o.
  assert (Hwp : wp (Smoothing.plot_smoothing_visualization_w_wec_wo_wec fs
                      filename save_figs show_figs wec_method wake_model)
                  (fun _ _ => False)
                  (fun _ s' => Smoothing.plots (trace s') = 0%nat
                               /\ Alpso.saves (trace s') = [])
                  empty_frame).
  { unfold Smoothing.configured, existsb in Hc.
    unfold Smoothing.plot_smoothing_visualization_w_wec_wo_wec,
      Smoothing.select, empty_frame.
    destruct (String.eqb wake_model "BPA").
    - rewrite orb_false_r, andb_true_l in Hc.
      destruct (String.eqb wec_method "A"); [done |].
      destruct (String.eqb wec_method "D"); [done |].
      destruct (String.eqb wec_method "H"); [done |].
      wp_all fs ltac:(split; reflexivity).
    - destruct (String.eqb wake_model "JENSEN").
      + rewrite andb_false_l, orb_false_l, andb_true_l in Hc.
        destruct (String.eqb wec_method "D"); [done |].
        wp_all fs ltac:(split; reflexivity).
      + wp_all fs ltac:(split; reflexivity). }
  destruct (wp_fails _ _ _ Hwp) as (e & He & Hp & Hs).
  subst o. rewrite He. done.
Qed.

Lemma plot_smoothing_unconfigured_method_witness :
  raised (Smoothing.plot_smoothing_visualization_w_wec_wo_wec
            smoothing_files "s.pdf" true false "A" "JENSEN" empty_frame)
  <> None.
Proof.
  apply (plot_smoothing_unconfigured_method smoothing_files "s.pdf" "A"
           "JENSEN" true false).
  reflexivity.
Defined.

(** X22: a completed call has read one table, every row of which has at
    least six columns, created one figure, drawn exactly three curves
    (columns 1, 3 and 5 of the five WEC values) and written [filename]
    exactly when [save_figs] is set. *)
Theorem plot_smoothing_three_curves
    (fs : gmap string Np.matrix) (filename wec_method wake_model : string)
    (save_figs show_figs : bool) :
  let o := Smoothing.plot_smoothing_visualization_w_wec_wo_wec fs filename
             save_figs show_figs wec_method wake_model empty_frame in
  raised o = None ->
  exists path table,
    fs !! path = Some table
    /\ Forall (fun row : list float => (6 <= length row)%nat) table
    /\ trace (final_state o)
       = ([EvLoadtxt path; EvSubplot; EvPlot; EvPlot; EvPlot]
          ++ (if save_figs then [EvSavefig filename] else [])
          ++ (if show_figs then [EvShow] else []))%list.
Proof.
  intros o Hdone.
  assert (Hwp : wp (Smoothing.plot_smoothing_visualization_w_wec_wo_wec fs
                      filename save_figs show_figs wec_method wake_model)
                  (fun _ s' =>
                     exists path table,
                       fs !! path = Some table
                       /\ Forall (fun row : list float =>
                                    (6 <= length row)%nat) table
                       /\ trace s'
                          = ([EvLoadtxt path; EvSubplot; EvPlot; EvPlot;
                              EvPlot]
                             ++ (if save_figs then [EvSavefig filename]
                                 else [])
                             ++ (if show_figs then [EvShow] else []))%list)
                  (fun _ _ => True) empty_frame).
  { unfold Smoothing.plot_smoothing_visualization_w_wec_wo_wec,
      Smoothing.select, Smoothing.configure, empty_frame.
    wp_all fs ltac:(exact I).
    all: eexists _, _; split; [eassumption |]; split;
      [ match goal with
        | H : Np.col 5 _ = Ok _ |- _ =>
            apply col_width in H; eapply Forall_impl; [exact H |];
            intros ? ?; cbv beta in *; lia
        end
      | rewrite <- !app_assoc; reflexivity ]. }
  destruct (wp_done _ _ _ _ Hwp Hdone) as (_ & _ & H). exact H.
Qed.

Lemma plot_smoothing_three_curves_witness :
  Smoothing.plots (trace (final_state
    (Smoothing.plot_smoothing_visualization_w_wec_wo_wec smoothing_files
       "s.pdf" true false "D" "BPA" empty_frame))) = 3%nat.
Proof.
  destruct (plot_smoothing_three_curves smoothing_files "s.pdf" "D" "BPA"
              true false eq_refl) as (path & table & _ & _ & ->).
  reflexivity.
Defined.

(** ** The relaxed wake spreads *)

Section WECFacts.
Import Wake WEC.
Local Open Scope R_scope.
Local Abbreviation sqrt := R_sqrt.sqrt.

Lemma sqrt_8_positive : 0 < sqrt 8.
Proof. apply sqrt_lt_R0. lra. Qed.

Lemma map_scale_1 (l : list R) : map (fun s => 1 * s) l = l.
Proof.
  induction l as [| a l IH]; [done |]. cbn [map]. rewrite IH. f_equal. ring.
Qed.

Lemma Forall2_maps {A} (P : R -> R -> Prop) (f g : A -> R) (l : list A) :
  Forall (fun a => P (f a) (g a)) l -> Forall2 P (map f l) (map g l).
Proof. induction 1; cbn [map]; constructor; auto. Qed.


End WECFacts.

(** X23: the WEC-D spread is the spread of [spread_func] times the
    factor.  With [wec_factor = 1] it is the unrelaxed spread, and with a
    factor of at least one it never narrows the wake, as long as the
    unrelaxed cross-wind spread is not negative at the rotor. *)
Theorem spread_func_original_wec_scales
    (x : list R) (x0 xd d ky kz gamma wec_factor : R) :
  (0 < x0)%R -> (0 <= ky)%R -> (0 <= d * cos gamma)%R ->
  (0 <= ky * (xd - x0) + d * cos gamma / R_sqrt.sqrt 8)%R ->
  (1 <= wec_factor)%R -> Forall (fun xi => (0 <= xi)%R) x ->
  WEC.spread_func_original_wec x x0 xd d ky kz gamma 1
  = Wake.spread_func x x0 xd d ky kz gamma
  /\ Forall2 Rle
       (fst (Wake.spread_func x x0 xd d ky kz gamma))
       (fst (WEC.spread_func_original_wec x x0 xd d ky kz gamma
               wec_factor)).
Proof.
  intros Hx0 Hky Hd Hsd Hf Hx.
  pose proof sqrt_8_positive as H8.
  unfold WEC.spread_func_original_wec, Wake.spread_func.
  split; [by rewrite !map_scale_1 |].
  cbn [fst]. rewrite map_map.
  apply Forall2_maps. eapply Forall_impl; [exact Hx |].
  intros xi Hxi. cbv beta.
  assert (Hc : (0 <= d * cos gamma / R_sqrt.sqrt 8)%R).
  { unfold Rdiv. apply Rmult_le_pos; [exact Hd |].
    left. by apply Rinv_0_lt_compat. }
  set (c := (d * cos gamma / R_sqrt.sqrt 8)%R) in *.
  assert (Hs : forall s : R, (0 <= s -> s <= wec_factor * s)%R)
    by (intros s Hs; nra).
  apply Hs.
  destruct (Rlt_dec x0 xi) as [Hfar | Hnear].
  - assert (0 <= ky * (xi - x0))%R by (apply Rmult_le_pos; lra). lra.
  - assert (Hq : (0 <= xi / x0 <= 1)%R).
    { split.
      - unfold Rdiv. apply Rmult_le_pos; [exact Hxi |].
        left. by apply Rinv_0_lt_compat.
      - apply (Rmult_le_reg_r x0); [exact Hx0 |].
        unfold Rdiv. rewrite Rmult_assoc, Rinv_l by lra. lra. }
    set (q := (xi / x0)%R) in *.
    set (sd := (ky * (xd - x0) + c)%R) in *.
    replace (q * (c - sd) + sd)%R with (q * c + (1 - q) * sd)%R by ring.
    assert (0 <= q * c)%R by (apply Rmult_le_pos; lra).
    assert (0 <= (1 - q) * sd)%R by (apply Rmult_le_pos; lra).
    lra.
Qed.

Lemma spread_func_original_wec_scales_witness :
  Forall2 Rle
    (fst (Wake.spread_func [0; 1; 3]%R 2 2 1 1 1 0))
    (fst (WEC.spread_func_original_wec [0; 1; 3]%R 2 2 1 1 1 0 4)).
Proof.
  apply (spread_func_original_wec_scales [0; 1; 3] 2 2 1 1 1 0 4)%R.
  - lra.
  - lra.
  - rewrite cos_0. lra.
  - rewrite cos_0. pose proof sqrt_8_positive as H8.
    assert (0 < 1 * 1 / R_sqrt.sqrt 8)%R.
    { unfold Rdiv. apply Rmult_lt_0_compat; [lra |].
      by apply Rinv_0_lt_compat. }
    lra.
  - lra.
  - repeat constructor; lra.
Defined.








(** ** The sunflower points for every count *)

Section SunflowerDisc.
Import Sunflower.
Local Open Scope R_scope.
Local Abbreviation sqrt := R_sqrt.sqrt.


End SunflowerDisc.


